(** * The symptom-table pipeline: clean, encode, split, persist

    A shallow embedding of [src/data_pipeline] ([extract.py], [transform.py],
    [load.py]) together with the parts of pandas, scikit-learn and numpy that
    those three files call, and of the three task callables of
    [dags/load_clean_split.py] that run them.

    Conventions of the embedding.
    - A Python call that can raise returns a [result]; [Raise e] is the
      exception propagating to the caller.
    - [print] diagnostics are not modelled.
    - The transform stage works on a [Table]: numeric feature columns followed
      by one trailing column of string labels, column names pairwise distinct
      (what [pd.read_csv] delivers for the dataset of the pipeline).  A cell
      of a numeric column is [NaN], an int64 value, a finite float64 value or
      an infinity; the finite float is represented by the rational number it
      denotes, and [Int z] stands for an int64 value.
    - Where numpy evaluates [class_counts / class_counts.sum() * n_draws] in
      binary64 the embedding uses the exact quotient; [ceil(0.2 * n_samples)]
      is taken at the exact fraction 1/5, with which the binary64 product
      agrees after rounding up.
    - The Mersenne Twister behind [np.random.RandomState] is a parameter
      ([BitGenerator]); the algorithms numpy builds on it (shuffle,
      permutation, choice) are written out.
    - [logging] calls are not modelled.  A task callable receives the task
      instance Airflow passes to it; the frame the transform task unpickles
      is a [Table]. *)

From Stdlib Require Import ZArith QArith Qround Ascii String List Sorted Permutation Lia Bool.
From stdpp Require Import base tactics option list gmap strings.

Local Open Scope string_scope.
Local Open Scope nat_scope.
Local Open Scope list_scope.

(** ** Exceptions and results

    [IntCastingNaNError] is pandas' subclass of ValueError. *)

Inductive exn :=
| IndexError | KeyError | ValueError | TypeError
| FileNotFoundError | FileExistsError | NotADirectoryError
| IsADirectoryError | PermissionError | OSError
| IntCastingNaNError.

(** [isinstance(e, OSError)]: the file-system errors are its subclasses. *)
Definition is_OSError (e : exn) : bool :=
  match e with
  | FileNotFoundError | FileExistsError | NotADirectoryError
  | IsADirectoryError | PermissionError | OSError => true
  | IndexError | KeyError | ValueError | TypeError
  | IntCastingNaNError => false
  end.

Inductive result (A : Type) :=
| Ok (a : A)
| Raise (e : exn).
Arguments Ok {A} a.
Arguments Raise {A} e.

#[export] Instance result_ret : MRet result := fun A a => Ok a.
#[export] Instance result_bind : MBind result := fun A B f m =>
  match m with Ok a => f a | Raise e => Raise e end.
#[export] Instance result_fmap : FMap result := fun A B f m =>
  match m with Ok a => Ok (f a) | Raise e => Raise e end.

Fixpoint traverse {A B} (f : A -> result B) (l : list A) : result (list B) :=
  match l with
  | [] => Ok []
  | x :: l' => y ← f x; ys ← traverse f l'; Ok (y :: ys)
  end.

(** ** Data model *)

(** A cell of a numeric column. *)
Inductive num :=
| NaN
| Int (z : Z)
| Float (q : Q)
| Infinity (negative : bool).

(** A cell of the label column: [None] is a missing label. *)
Definition label := option string.

Inductive column :=
| NumCol (v : list num)
| StrCol (v : list label).

(** [pd.DataFrame]: row labels and named columns in declaration order. *)
Record DataFrame := {
  index : list nat;
  columns : list (string * column)
}.

(** [pd.Series] of integer codes. *)
Record Series := {
  name : string;
  s_index : list nat;
  values : list nat
}.

(** The frame the transform stage receives: [SYMPTOM_COLS] are
    [df.columns[:-1]], [TARGET_COL] is [df.columns[-1]]. *)
Record Table := {
  t_index : list nat;
  symptoms : list (string * list num);
  TARGET_COL : string;
  target : list label
}.

Definition SYMPTOM_COLS (df : Table) : list string := (symptoms df).*1.

Definition frame_of_table (df : Table) : DataFrame :=
  {| index := t_index df;
     columns := map (fun c => (c.1, NumCol c.2)) (symptoms df)
                ++ [(TARGET_COL df, StrCol (target df))] |}.

Definition shape (df : DataFrame) : nat * nat :=
  (length (index df), length (columns df)).

Definition column_names (df : DataFrame) : list string := (columns df).*1.

(** [pd.DataFrame()] *)
Definition empty_frame : DataFrame := {| index := []; columns := [] |}.

Definition col_length (c : column) : nat :=
  match c with NumCol v => length v | StrCol v => length v end.

(** ** String order

    Python compares [str] by code point; on UTF-8 bytes this is the byte-wise
    lexicographic order of [String.compare]. *)

Fixpoint insert_sorted (x : string) (l : list string) : list string :=
  match l with
  | [] => [x]
  | y :: l' =>
      match String.compare x y with
      | Lt => x :: l
      | Eq => l
      | Gt => y :: insert_sorted x l'
      end
  end.

(** [sorted(set(xs))], also [np.sort] of distinct values. *)
Definition sorted_set (xs : list string) : list string :=
  foldr insert_sorted [] xs.

Definition str_lt (a b : string) : Prop := String.compare a b = Lt.

(** ** Cleaner ([_clean]) *)

Definition isnull_num (c : num) : bool :=
  match c with NaN => true | _ => false end.

Definition isnull_label (c : label) : bool :=
  match c with None => true | Some _ => false end.

Definition count_true {A} (p : A -> bool) (l : list A) : nat :=
  length (filter (fun x => p x = true) l).

(** [df.isnull().sum()] *)
Definition missing_counts (df : Table) : list (string * nat) :=
  map (fun c => (c.1, count_true isnull_num c.2)) (symptoms df)
  ++ [(TARGET_COL df, count_true isnull_label (target df))].

(** [.fillna(0)] on a numeric column. *)
Definition fillna_num (v : Z) (col : list num) : list num :=
  map (fun c => match c with NaN => Int v | _ => c end) col.

(** [.fillna(s)] on the label column. *)
Definition fillna_label (s : string) (col : list label) : list label :=
  map (fun c => match c with None => Some s | _ => c end) col.

(** Keys of [value_counts(dropna=True)], in order of first occurrence. *)
Fixpoint first_seen (l : list label) (seen : list string) : list string :=
  match l with
  | [] => []
  | None :: l' => first_seen l' seen
  | Some s :: l' =>
      if bool_decide (s ∈ seen) then first_seen l' seen
      else s :: first_seen l' (s :: seen)
  end.

Definition count_label (s : string) (l : list label) : nat :=
  count_true (fun c => bool_decide (c = Some s)) l.

Definition max_count (l : list label) : nat :=
  foldr Nat.max 0 (map (fun s => count_label s l) (first_seen l [])).

(** [Series.mode()]: the most frequent non-missing values, sorted. *)
Definition mode (l : list label) : list string :=
  sorted_set
    (filter (fun s => count_label s l = max_count l) (first_seen l [])).

(** [s[0]] on the result of [mode()]: label 0 is absent from an empty
    Series. *)
Definition getitem0 (m : list string) : result string :=
  match m with
  | [] => Raise KeyError
  | s :: _ => Ok s
  end.

(** Truncation toward zero. *)
Definition Qtrunc (q : Q) : Z := Z.quot (Qnum q) (Z.pos (Qden q)).

Definition INT64_MIN : Z := (- 2 ^ 63)%Z.
Definition INT64_MAX : Z := (2 ^ 63 - 1)%Z.

(** The float64 to int64 cast of [ndarray.astype] on x86-64: truncation
    toward zero; a value whose truncation does not fit int64 becomes
    [INT64_MIN], the processor's result for a conversion out of range
    (pandas silences the warning numpy gives). *)
Definition float_to_int64 (q : Q) : Z :=
  let t := Qtrunc q in
  if (INT64_MIN <=? t)%Z && (t <=? INT64_MAX)%Z then t else INT64_MIN.

(** [.astype(int)] on one cell: pandas raises IntCastingNaNError on a value
    that is not finite, a missing value or an infinity. *)
Definition astype_int_cell (c : num) : result num :=
  match c with
  | NaN | Infinity _ => Raise IntCastingNaNError
  | Int z => Ok (Int z)
  | Float q => Ok (Int (float_to_int64 q))
  end.

Definition astype_int (cols : list (string * list num))
  : result (list (string * list num)) :=
  traverse (fun c => v ← traverse astype_int_cell c.2; Ok (c.1, v)) cols.

Definition _clean (df : Table) : result Table :=
  let missing_data_cols := filter (fun c => 0 < c.2) (missing_counts df) in
  df ← (if negb (bool_decide (missing_data_cols = [])) then
          let df :=
            {| t_index := t_index df;
               symptoms := map (fun c => (c.1, fillna_num 0 c.2)) (symptoms df);
               TARGET_COL := TARGET_COL df;
               target := target df |} in
          if existsb isnull_label (target df) then
            mode_type ← getitem0 (mode (target df));
            Ok {| t_index := t_index df;
                  symptoms := symptoms df;
                  TARGET_COL := TARGET_COL df;
                  target := fillna_label mode_type (target df) |}
          else Ok df
        else Ok df);
  cols ← astype_int (symptoms df);
  Ok {| t_index := t_index df;
        symptoms := cols;
        TARGET_COL := TARGET_COL df;
        target := target df |}.


(** ** Encoder ([_encode]) *)

(** sklearn [_unique_python]: the distinct non-missing values in sorted
    order, followed by the missing value when there is one. *)
Definition _unique_python (vals : list label) : list label :=
  (Some <$> sorted_set (omap id vals))
  ++ (if existsb isnull_label vals then [None] else []).

(** [table = {val: i for i, val in enumerate(uniques)}] *)
Definition enumerate_table (uniques : list label) : gmap label nat :=
  foldl (fun (m : gmap label nat) p => <[p.2 := p.1]> m) ∅
        (zip (seq 0 (length uniques)) uniques).

(** sklearn [_map_to_integer]: [[table[v] for v in values]]. *)
Definition _map_to_integer (vals uniques : list label) : result (list nat) :=
  let table := enumerate_table uniques in
  traverse (fun v => match table !! v with
                     | Some i => Ok i
                     | None => Raise KeyError
                     end) vals.

Record LabelEncoder := { classes_ : list label }.

(** [LabelEncoder.fit_transform] *)
Definition fit_transform (y : list label) : result (LabelEncoder * list nat) :=
  let uniques := _unique_python y in
  inverse ← _map_to_integer y uniques;
  Ok ({| classes_ := uniques |}, inverse).

(** [LabelEncoder.transform]: an unseen label is reported as ValueError. *)
Definition transform (le : LabelEncoder) (y : list label) : result (list nat) :=
  if bool_decide (length y = 0) then Ok []
  else match _map_to_integer y (classes_ le) with
       | Ok codes => Ok codes
       | Raise KeyError => Raise ValueError
       | Raise e => Raise e
       end.

(** A Python [dict]: keys in insertion order; assigning to a key that is
    present replaces its value in place. *)
Fixpoint dict_setitem {K V} `{EqDecision K} (k : K) (v : V) (d : list (K * V))
  : list (K * V) :=
  match d with
  | [] => [(k, v)]
  | (k', v') :: d' =>
      if decide (k = k') then (k, v) :: d' else (k', v') :: dict_setitem k v d'
  end.

Definition dict {K V} `{EqDecision K} (items : list (K * V)) : list (K * V) :=
  foldl (fun d p => dict_setitem p.1 p.2 d) [] items.

(** [pd.Series(data, name=..., index=...)] *)
Definition mk_series (data : list nat) (nm : string) (idx : list nat)
  : result Series :=
  if bool_decide (length data = length idx)
  then Ok {| name := nm; s_index := idx; values := data |}
  else Raise ValueError.

Definition _encode (df : Table)
  : result (DataFrame * Series * list (label * nat)) :=
  let X := {| index := t_index df;
              columns := map (fun c => (c.1, NumCol c.2)) (symptoms df) |} in
  let y_raw := target df in
  '(label_encoder, y_encoded) ← fit_transform y_raw;
  encoded_values ← transform label_encoder (classes_ label_encoder);
  let type_mapping := dict (zip (classes_ label_encoder) encoded_values) in
  y ← mk_series y_encoded "target" (t_index df);
  Ok (X, y, type_mapping).


(** ** numpy helpers on integer arrays *)

Fixpoint insert_nat (x : nat) (l : list nat) : list nat :=
  match l with
  | [] => [x]
  | y :: l' =>
      match Nat.compare x y with
      | Lt => x :: l
      | Eq => l
      | Gt => y :: insert_nat x l'
      end
  end.

(** [np.unique(a)]: the distinct values, ascending. *)
Definition np_unique (a : list nat) : list nat := foldr insert_nat [] a.

Fixpoint index_of (x : nat) (l : list nat) : nat :=
  match l with
  | [] => 0
  | y :: l' => if decide (x = y) then 0 else S (index_of x l')
  end.

(** The inverse returned by [np.unique(a, return_inverse=True)]. *)
Definition np_unique_inverse (a : list nat) : list nat :=
  map (fun v => index_of v (np_unique a)) a.

Definition count_nat (c : nat) (a : list nat) : nat :=
  length (filter (fun v => v = c) a).

(** [np.bincount(a)] *)
Definition bincount (a : list nat) : list nat :=
  match a with
  | [] => []
  | _ => map (fun c => count_nat c a) (seq 0 (S (foldr Nat.max 0 a)))
  end.

(** [np.where(a == v)[0]] *)
Definition np_where (a : list nat) (v : nat) : list nat :=
  filter (fun i => a !! i = Some v) (seq 0 (length a)).

Definition sum_nat (a : list nat) : nat := foldr Nat.add 0 a.

Definition np_min (a : list nat) : nat := foldr Nat.min (hd 0 a) a.

(** [a[inds] += 1] with an index array: every selected position grows by
    one, however often it is listed. *)
Definition increment_at (inds : list nat) (a : list nat) : list nat :=
  imap (fun i x => if bool_decide (i ∈ inds) then S x else x) a.

(** [a.take(idx, mode="clip")] *)
Definition take_clip (a : list nat) (idx : list nat) : list nat :=
  map (fun i => nth (Nat.min i (length a - 1)) a 0) idx.

(** Positional row selection ([.iloc[idx]]); a position past the end is an
    IndexError. *)
Definition take_rows {A} (idx : list nat) (v : list A) : result (list A) :=
  traverse (fun i => match v !! i with
                     | Some x => Ok x
                     | None => Raise IndexError
                     end) idx.

Definition take_col (idx : list nat) (c : column) : result column :=
  match c with
  | NumCol v => NumCol <$> take_rows idx v
  | StrCol v => StrCol <$> take_rows idx v
  end.

Definition iloc (df : DataFrame) (idx : list nat) : result DataFrame :=
  rows ← take_rows idx (index df);
  cols ← traverse (fun c => v ← take_col idx c.2; Ok (c.1, v)) (columns df);
  Ok {| index := rows; columns := cols |}.

Definition iloc_series (y : Series) (idx : list nat) : result Series :=
  rows ← take_rows idx (s_index y);
  vals ← take_rows idx (values y);
  Ok {| name := name y; s_index := rows; values := vals |}.

(** ** Random numbers

    [RandomState seed] is [np.random.RandomState(seed)];
    [random_interval max s] draws an integer from [[0, max]]. *)
Class BitGenerator (S : Type) := {
  RandomState : Z -> S;
  random_interval : nat -> S -> nat * S
}.

(** The draw stays within its bound. *)
Definition bounded_draws {S} `{BitGenerator S} : Prop :=
  forall (m : nat) (s : S), (random_interval m s).1 <= m.

(** [x[i], x[j] = x[j], x[i]]; a position past the end, which a bounded draw
    never produces, leaves the list as it is. *)
Definition swap {A} (i j : nat) (x : list A) : list A :=
  match x !! i, x !! j with
  | Some a, Some b => <[i := b]> (<[j := a]> x)
  | _, _ => x
  end.

Inductive size_arg :=
| Fraction (q : Q)
| Count (k : nat).

Definition size_out_of_range (n_samples : nat) (a : size_arg) : bool :=
  match a with
  | Fraction q => Qle_bool q 0 || Qle_bool 1 q
  | Count k => bool_decide (n_samples <= k) || bool_decide (k = 0)
  end.

(** sklearn [_validate_shuffle_split], [test_size] given. *)
Definition _validate_shuffle_split (n_samples : nat) (test_size : size_arg)
           (train_size : option size_arg) : result (nat * nat) :=
  if size_out_of_range n_samples test_size then Raise ValueError
  else if from_option (size_out_of_range n_samples) false train_size
  then Raise ValueError
  else if match test_size, train_size with
          | Fraction t, Some (Fraction r) => negb (Qle_bool (t + r) 1)
          | _, _ => false
          end
  then Raise ValueError
  else
    let n_test := match test_size with
                  | Fraction q =>
                      Z.to_nat (Qceiling (q * inject_Z (Z.of_nat n_samples)))
                  | Count k => k
                  end in
    let n_train := match train_size with
                   | Some (Fraction q) =>
                       Z.to_nat (Qfloor (q * inject_Z (Z.of_nat n_samples)))
                   | Some (Count k) => k
                   | None => n_samples - n_test
                   end in
    if bool_decide (n_samples < n_train + n_test) then Raise ValueError
    else if bool_decide (n_train = 0) then Raise ValueError
    else Ok (n_train, n_test).

(** The positions of class [i], ascending:
    [np.split(np.argsort(y_indices, kind="mergesort"),
              np.cumsum(class_counts)[:-1])[i]]. *)
Definition class_indices (y_indices : list nat) (i : nat) : list nat :=
  np_where y_indices i.

(** A value of the dictionary [_split] returns. *)
Inductive partition :=
| Frame (df : DataFrame)
| Labels (y : Series).

Section Splitter.
Context {S : Type} `{BitGenerator S}.

(** [for i in reversed(range(1, n)): j = random_interval(i); swap] *)
Fixpoint shuffle_loop {A} (i : nat) (x : list A) (s : S) : list A * S :=
  match i with
  | 0 => (x, s)
  | Datatypes.S i' =>
      let '(j, s') := random_interval i s in
      shuffle_loop i' (swap i j x) s'
  end.

(** [RandomState.shuffle] on a one-dimensional array. *)
Definition shuffle {A} (x : list A) (s : S) : list A * S :=
  shuffle_loop (length x - 1) x s.

(** [rng.permutation(n)] and [rng.permutation(array)]. *)
Definition permutation_n (n : nat) (s : S) : list nat * S :=
  shuffle (seq 0 n) s.

Definition permutation {A} (x : list A) (s : S) : list A * S :=
  shuffle x s.

(** [rng.choice(a, size=size, replace=False)]:
    [a[self.permutation(len(a))[:size]]]; called with [size <= len(a)]. *)
Definition choice (a : list nat) (size : nat) (s : S) : list nat * S :=
  let '(perm, s') := permutation_n (length a) s in
  (map (fun i => nth i a 0) (take size perm), s').

(** sklearn [check_random_state]: [None] is the global singleton of
    [np.random], an integer seeds a fresh generator. *)
Definition check_random_state (seed : option Z) (global : S) : S :=
  match seed with
  | None => global
  | Some n => RandomState n
  end.

(** The loop of [_approximate_mode] over the distinct remainders, largest
    first. *)
Fixpoint add_by_remainder (vals remainder floored : list nat)
         (need_to_add : nat) (s : S) : list nat * S :=
  match vals with
  | [] => (floored, s)
  | value :: vals' =>
      let inds := np_where remainder value in
      let add_now := Nat.min (length inds) need_to_add in
      let '(inds, s) := choice inds add_now s in
      let floored := increment_at inds floored in
      let need_to_add := need_to_add - add_now in
      if bool_decide (need_to_add = 0) then (floored, s)
      else add_by_remainder vals' remainder floored need_to_add s
  end.

(** sklearn [_approximate_mode].  [continuous[i]] is
    [class_counts[i] * n_draws / total]; its floor and its remainder (as a
    numerator over [total]) are computed exactly. *)
Definition _approximate_mode (class_counts : list nat) (n_draws : nat) (s : S)
  : list nat * S :=
  let total := sum_nat class_counts in
  let floored := map (fun c => c * n_draws / total) class_counts in
  let need_to_add := n_draws - sum_nat floored in
  if bool_decide (0 < need_to_add) then
    let remainder := map (fun c => (c * n_draws) mod total) class_counts in
    let vals := rev (np_unique remainder) in
    add_by_remainder vals remainder floored need_to_add s
  else (floored, s).

(** The loop over the classes in [StratifiedShuffleSplit._iter_indices]. *)
Fixpoint draw_classes (y_indices class_counts n_i t_i : list nat) (i : nat)
         (train test : list nat) (s : S) : list nat * list nat * S :=
  match class_counts, n_i, t_i with
  | c :: class_counts', n :: n_i', t :: t_i' =>
      let '(perm, s) := permutation_n c s in
      let perm_indices_class_i := take_clip (class_indices y_indices i) perm in
      let train := train ++ take n perm_indices_class_i in
      let test := test ++ take t (drop n perm_indices_class_i) in
      draw_classes y_indices class_counts' n_i' t_i' (Datatypes.S i) train test s
  | _, _, _ => (train, test, s)
  end.

(** The first split yielded by [StratifiedShuffleSplit(test_size=n_test,
    train_size=n_train, random_state=rng).split(X, y)]; [n_samples] is
    [len(X)]. *)
Definition _iter_indices (n_samples : nat) (y : list nat)
           (test_size train_size : nat) (rng : S)
  : result (list nat * list nat) * S :=
  match _validate_shuffle_split n_samples (Count test_size)
                                (Some (Count train_size)) with
  | Raise e => (Raise e, rng)
  | Ok (n_train, n_test) =>
      let classes := np_unique y in
      let y_indices := np_unique_inverse y in
      let n_classes := length classes in
      let class_counts := bincount y_indices in
      if bool_decide (class_counts = []) then (Raise ValueError, rng)
      else if bool_decide (np_min class_counts < 2) then (Raise ValueError, rng)
      else if bool_decide (n_train < n_classes) then (Raise ValueError, rng)
      else if bool_decide (n_test < n_classes) then (Raise ValueError, rng)
      else
        let '(n_i, rng) := _approximate_mode class_counts n_train rng in
        let class_counts_remaining :=
          zip_with Nat.sub class_counts n_i in
        let '(t_i, rng) :=
          _approximate_mode class_counts_remaining n_test rng in
        let '(train, test, rng) :=
          draw_classes y_indices class_counts n_i t_i 0 [] [] rng in
        let '(train, rng) := permutation train rng in
        let '(test, rng) := permutation test rng in
        (Ok (train, test), rng)
  end.

(** [train_test_split(X, y, test_size=0.2, random_state=random_state,
    stratify=y)].  [global] is the state of the generator shared through
    [np.random]; the returned state is what it is afterwards. *)
Definition train_test_split (X : DataFrame) (y : Series)
           (random_state : option Z) (global : S)
  : result (DataFrame * DataFrame * Series * Series) * S :=
  let n_samples := length (index X) in
  if negb (bool_decide (length (values y) = n_samples))
  then (Raise ValueError, global)
  else
    match _validate_shuffle_split n_samples (Fraction (1 # 5)) None with
    | Raise e => (Raise e, global)
    | Ok (n_train, n_test) =>
        let rng := check_random_state random_state global in
        let '(r, rng) := _iter_indices n_samples (values y) n_test n_train rng in
        let global := match random_state with
                      | None => rng
                      | Some _ => global
                      end in
        (('(train, test) ← r;
          X_train ← iloc X train;
          X_test ← iloc X test;
          y_train ← iloc_series y train;
          y_test ← iloc_series y test;
          Ok (X_train, X_test, y_train, y_test)), global)
    end.

(** ** Splitter ([_split]) and the transform stage *)

Definition _split (X : DataFrame) (y : Series) (global : S)
  : result (list (string * partition)) * S :=
  let '(r, global) := train_test_split X y (Some 42%Z) global in
  (('(X_train, X_test, y_train, y_test) ← r;
    let result := dict [("X_train", Frame X_train);
                        ("X_test", Frame X_test);
                        ("y_train", Labels y_train);
                        ("y_test", Labels y_test)] in
    Ok result), global).

Definition transform_data (df : Table) (global : S)
  : result (list (string * partition) * list (label * nat)) * S :=
  match _clean df with
  | Raise e => (Raise e, global)
  | Ok cleaned =>
      match _encode cleaned with
      | Raise e => (Raise e, global)
      | Ok (X, y, label_mapping) =>
          let '(r, global) := _split X y global in
          ((split_df ← r; Ok (split_df, label_mapping)), global)
      end
  end.

End Splitter.

(** ** A concrete generator

    A linear congruential generator; it stands in for the Mersenne Twister
    when the splitter is run on examples. *)
Definition lcg_next (s : N) : N := ((s * 1103515245 + 12345) mod 2147483648)%N.

#[export] Instance lcg : BitGenerator N := {|
  RandomState seed := Z.to_N seed;
  random_interval m s :=
    let s' := lcg_next s in
    (N.to_nat ((s' / 65536) mod (N.of_nat m + 1))%N, s')
|}.

(** ** Programs that talk to the operating system

    The Reader and the Writer are programs over the library calls below.  A
    call either returns or raises; what it does is up to the environment
    ([OS]). *)

Inductive call :=
| os_path_abspath (p : string)
| pd_read_csv (p : string)
| os_makedirs (p : string) (exist_ok : bool)
| to_csv (df : DataFrame) (p : string) (with_index : bool)
| json_dump_to (obj : list (label * nat)) (p : string) (indent : nat).

(** What a call returns when it does not raise. *)
Definition reply (c : call) : Type :=
  match c with
  | os_path_abspath _ => string
  | pd_read_csv _ => DataFrame
  | os_makedirs _ _ | to_csv _ _ _ | json_dump_to _ _ _ => unit
  end.

Inductive io (A : Type) : Type :=
| Return (a : A)
| Throw (e : exn)
| Do (c : call) (k : result (reply c) -> io A).
Arguments Return {A} a.
Arguments Throw {A} e.
Arguments Do {A} c k.

Fixpoint io_bind {A B} (f : A -> io B) (m : io A) : io B :=
  match m with
  | Return a => f a
  | Throw e => Throw e
  | Do c k => Do c (fun r => io_bind f (k r))
  end.

#[export] Instance io_mbind : MBind io := @io_bind.
#[export] Instance io_mret : MRet io := @Return.

(** A call outside any [try]: an exception propagates. *)
Definition perform (c : call) : io (reply c) :=
  Do c (fun r => match r with Ok x => Return x | Raise e => Throw e end).

Class OS (W : Type) := os_step : forall c : call, W -> result (reply c) * W.

(** Running a program: the outcome, the final state of the environment and
    the calls made, in order. *)
Fixpoint run {W} `{OS W} {A} (m : io A) (w : W) : result A * W * list call :=
  match m with
  | Return a => (Ok a, w, [])
  | Throw e => (Raise e, w, [])
  | Do c k =>
      let '(r, w) := os_step c w in
      let '(out, w, evs) := run (k r) w in
      (out, w, c :: evs)
  end.

(** [os.path.join(a, b)] (posix) *)
Definition ends_with_sep (a : string) : bool :=
  match last (list_ascii_of_string a) with
  | Some c => bool_decide (c = "/"%char)
  | None => false
  end.

Definition os_path_join (a b : string) : string :=
  if String.prefix "/" b then b
  else if bool_decide (a = "") || ends_with_sep a then a +:+ b
  else a +:+ "/" +:+ b.

(** ** Reader ([extract_data]) *)

Definition extract_data (fileName : string) : io DataFrame :=
  let data_dir := "data" in
  let data_path := os_path_join data_dir fileName in
  absolute_data_path ← perform (os_path_abspath data_path);
  Do (pd_read_csv absolute_data_path) (fun r =>
    match r return io DataFrame with
    | Ok df => Return df
    | Raise FileNotFoundError => Return empty_frame
    | Raise e => Throw e
    end).

(** ** Writer ([load_data]) *)

(** [Series.to_frame()] *)
Definition to_frame (y : Series) : DataFrame :=
  {| index := s_index y;
     columns := [(name y, NumCol (map (fun v => Int (Z.of_nat v)) (values y)))] |}.

(** The header row [to_csv(..., index=False)] writes. *)
Definition csv_header (df : DataFrame) : list string := column_names df.

(** [for key, df in dfs_dict[0].items(): ...] *)
Fixpoint save_partitions (items : list (string * partition)) (path : string)
  : io unit :=
  match items with
  | [] => Return tt
  | (key, df) :: items' =>
      let file_name := key +:+ ".csv" in
      let file_path := os_path_join path file_name in
      let df := match df with
                | Labels y => to_frame y
                | Frame df => df
                end in
      perform (to_csv df file_path false);;
      save_partitions items' path
  end.

Definition load_data
    (dfs_dict : list (string * partition) * list (label * nat)) (path : string)
  : io unit :=
  Do (os_makedirs path true) (fun r =>
    match r with
    | Raise e => if is_OSError e then Return tt else Throw e
    | Ok _ =>
        save_partitions dfs_dict.1 path;;
        let mapping_path := os_path_join path "label_mapping.json" in
        perform (json_dump_to dfs_dict.2 mapping_path 4)
    end).

(** ** An in-memory file system *)

Inductive node :=
| Directory
| CsvFile (df : DataFrame)
| JsonFile (obj : list (label * nat)).

Definition memfs_step (c : call) (w : gmap string node)
  : result (reply c) * gmap string node :=
  match c return result (reply c) * gmap string node with
  | os_path_abspath p => (Ok (os_path_join "/srv" p), w)
  | pd_read_csv p =>
      match w !! p with
      | Some (CsvFile df) => (Ok df, w)
      | Some Directory => (Raise IsADirectoryError, w)
      | Some (JsonFile _) => (Raise ValueError, w)
      | None => (Raise FileNotFoundError, w)
      end
  | os_makedirs p exist_ok =>
      match w !! p with
      | None => (Ok tt, <[p := Directory]> w)
      | Some Directory =>
          if exist_ok then (Ok tt, w) else (Raise FileExistsError, w)
      | Some _ => (Raise FileExistsError, w)
      end
  | to_csv df p _ =>
      match w !! p with
      | Some Directory => (Raise IsADirectoryError, w)
      | _ => (Ok tt, <[p := CsvFile df]> w)
      end
  | json_dump_to obj p _ =>
      match w !! p with
      | Some Directory => (Raise IsADirectoryError, w)
      | _ => (Ok tt, <[p := JsonFile obj]> w)
      end
  end.

#[export] Instance memfs : OS (gmap string node) := memfs_step.

(** ** A file system that refuses every access *)

Inductive locked := Locked.

Definition locked_step (c : call) (w : locked) : result (reply c) * locked :=
  match c return result (reply c) * locked with
  | os_path_abspath p => (Ok (os_path_join "/srv" p), w)
  | pd_read_csv _ => (Raise PermissionError, w)
  | os_makedirs _ _ => (Raise PermissionError, w)
  | to_csv _ _ _ => (Raise PermissionError, w)
  | json_dump_to _ _ _ => (Raise PermissionError, w)
  end.

#[export] Instance locked_os : OS locked := locked_step.

(** ** The Airflow tasks ([dags/load_clean_split.py])

    A task talks to the worker it runs on: besides the calls of the Reader
    and the Writer ([core]) it asks whether a path exists, pickles and
    unpickles, and pushes and pulls XCom values.  [read_pickle] returns the
    pickled frame in the layout the transform stage reads it in;
    [pickle_load] returns the pair the transform task has pickled.  The task
    instance [ti] is the one Airflow passes to the callable. *)

Definition DATA_FILE_NAME : string := "raw_data.csv".
Definition XCOM_KEY_PATH : string := "data_file_path".
Definition TEMP_DIR : string := "/tmp/airflow_data".
Definition FINAL_PROCESSED_PATH : string := os_path_join "data" "processed".

Inductive task_call :=
| core (c : call)
| os_path_exists (p : string)
| to_pickle (df : DataFrame) (p : string)
| read_pickle (p : string)
| pickle_dump (obj : list (string * partition) * list (label * nat))
              (p : string)
| pickle_load (p : string)
| xcom_push (key value : string)
| xcom_pull (task_ids key : string).

Definition task_reply (c : task_call) : Type :=
  match c with
  | core c => reply c
  | os_path_exists _ => bool
  | read_pickle _ => Table
  | pickle_load _ => (list (string * partition) * list (label * nat))%type
  | xcom_pull _ _ => option string
  | to_pickle _ _ | pickle_dump _ _ | xcom_push _ _ => unit
  end.

Inductive task (A : Type) : Type :=
| Finish (a : A)
| Abort (e : exn)
| Ask (c : task_call) (k : result (task_reply c) -> task A).
Arguments Finish {A} a.
Arguments Abort {A} e.
Arguments Ask {A} c k.

Fixpoint task_bind {A B} (f : A -> task B) (m : task A) : task B :=
  match m with
  | Finish a => f a
  | Abort e => Abort e
  | Ask c k => Ask c (fun r => task_bind f (k r))
  end.

#[export] Instance task_mbind : MBind task := @task_bind.
#[export] Instance task_mret : MRet task := @Finish.

(** A call outside any [try]. *)
Definition request (c : task_call) : task (task_reply c) :=
  Ask c (fun r => match r with Ok x => Finish x | Raise e => Abort e end).

(** A function of the pipeline called from a task. *)
Fixpoint call_module {A} (m : io A) : task A :=
  match m with
  | Return a => Finish a
  | Throw e => Abort e
  | Do c k => Ask (core c) (fun r => call_module (k r))
  end.

Class Worker (W : Type) :=
  worker_step : forall c : task_call, W -> result (task_reply c) * W.

(** Running a task: the outcome, the final state of the worker and the
    calls made, in order. *)
Fixpoint run_task {W} `{Worker W} {A} (m : task A) (w : W)
  : result A * W * list task_call :=
  match m with
  | Finish a => (Ok a, w, [])
  | Abort e => (Raise e, w, [])
  | Ask c k =>
      let '(r, w) := worker_step c w in
      let '(out, w, evs) := run_task (k r) w in
      (out, w, c :: evs)
  end.

(** [DataFrame.empty]: some axis has length 0. *)
Definition empty (df : DataFrame) : bool :=
  bool_decide (length (index df) = 0) || bool_decide (length (columns df) = 0).

Definition airflow_extract_data : task unit :=
  request (core (os_makedirs TEMP_DIR true));;
  let temp_file_path := os_path_join TEMP_DIR "raw_data.pkl" in
  df ← call_module (extract_data DATA_FILE_NAME);
  if empty df then Abort ValueError
  else
    request (to_pickle df temp_file_path);;
    request (xcom_push XCOM_KEY_PATH temp_file_path).

(** [if not path or not os.path.exists(path): raise FileNotFoundError(...)]
    on what [xcom_pull] returned: [None] and the empty string are falsy, and
    the second operand is only evaluated when the first is false. *)
Definition require_path (path : option string) : task string :=
  match path with
  | None => Abort FileNotFoundError
  | Some p =>
      if bool_decide (p = "") then Abort FileNotFoundError
      else
        found ← request (os_path_exists p);
        if (found : bool) then Finish p else Abort FileNotFoundError
  end.

Section Tasks.
Context {S : Type} `{BitGenerator S}.

(** [global] is the state of numpy's global generator in the worker
    process. *)
Definition airflow_transform_data (global : S) : task unit :=
  raw_data_path ← request (xcom_pull "extract_task" XCOM_KEY_PATH);
  raw_data_path ← require_path raw_data_path;
  df ← request (read_pickle raw_data_path);
  match (transform_data df global).1 with
  | Raise e => Abort e
  | Ok transformed_data =>
      let transformed_data_path :=
        os_path_join TEMP_DIR "transformed_data_set.pkl" in
      request (pickle_dump transformed_data transformed_data_path);;
      request (xcom_push XCOM_KEY_PATH transformed_data_path)
  end.

End Tasks.

Definition airflow_load_data : task unit :=
  transformed_data_path ← request (xcom_pull "transform_task" XCOM_KEY_PATH);
  require_path transformed_data_path;;
  let transformed_data_path :=
    os_path_join TEMP_DIR "transformed_data_set.pkl" in
  loaded_data ← request (pickle_load transformed_data_path);
  final_path ← request (core (os_path_abspath FINAL_PROCESSED_PATH));
  call_module (load_data loaded_data final_path).

(** ** An in-memory worker

    The files of [memfs], the pickles and the XCom values pushed so far
    under the id of the task that pushed them; [task_id] is the task that
    runs. *)

Inductive pickled :=
| PickledFrame (df : DataFrame)
| PickledTable (df : Table)
| PickledResult (r : list (string * partition) * list (label * nat)).

Record machine := {
  files : gmap string node;
  pickles : gmap string pickled;
  xcom : list (string * string * string);
  task_id : string;
  read_only : bool
}.

Definition xcom_lookup (task_ids key : string)
    (store : list (string * string * string)) : option string :=
  (fun e : string * string * string => e.2) <$>
  head (filter (fun e : string * string * string =>
                  e.1.1 = task_ids /\ e.1.2 = key) store).

Definition is_write (c : call) : bool :=
  match c with
  | os_makedirs _ _ | to_csv _ _ _ | json_dump_to _ _ _ => true
  | os_path_abspath _ | pd_read_csv _ => false
  end.

Definition with_files (w : machine) (fs : gmap string node) : machine :=
  {| files := fs; pickles := pickles w; xcom := xcom w;
     task_id := task_id w; read_only := read_only w |}.

Definition with_pickle (w : machine) (p : string) (v : pickled) : machine :=
  {| files := files w; pickles := <[p := v]> (pickles w); xcom := xcom w;
     task_id := task_id w; read_only := read_only w |}.

Definition machine_step (c : task_call) (w : machine)
  : result (task_reply c) * machine :=
  match c return result (task_reply c) * machine with
  | core c =>
      if is_write c && read_only w then (Raise PermissionError, w)
      else let '(r, fs) := memfs_step c (files w) in (r, with_files w fs)
  | os_path_exists p =>
      (Ok (bool_decide (is_Some (files w !! p))
           || bool_decide (is_Some (pickles w !! p))), w)
  | to_pickle df p =>
      if read_only w then (Raise PermissionError, w)
      else (Ok tt, with_pickle w p (PickledFrame df))
  | pickle_dump obj p =>
      if read_only w then (Raise PermissionError, w)
      else (Ok tt, with_pickle w p (PickledResult obj))
  | read_pickle p =>
      match pickles w !! p with
      | Some (PickledTable df) => (Ok df, w)
      | Some _ => (Raise TypeError, w)
      | None => (Raise FileNotFoundError, w)
      end
  | pickle_load p =>
      match pickles w !! p with
      | Some (PickledResult r) => (Ok r, w)
      | Some _ => (Raise TypeError, w)
      | None => (Raise FileNotFoundError, w)
      end
  | xcom_push key value =>
      (Ok tt, {| files := files w; pickles := pickles w;
                 xcom := (task_id w, key, value) :: xcom w;
                 task_id := task_id w; read_only := read_only w |})
  | xcom_pull task_ids key => (Ok (xcom_lookup task_ids key (xcom w)), w)
  end.

#[export] Instance machine_worker : Worker machine := machine_step.

(** ** Vocabulary of the properties *)

(** What the Cleaner makes of one feature cell when it returns: a missing
    value becomes 0, any other value is cast to int64.  With an infinity
    among the feature cells the Cleaner does not return. *)
Definition cleaned_cell (c : num) : num :=
  match c with
  | NaN => Int 0
  | Int z => Int z
  | Float q => Int (float_to_int64 q)
  | Infinity negative => Infinity negative
  end.

(** No feature cell is an infinity. *)
Definition no_infinity (c : num) : bool :=
  match c with
  | Infinity _ => false
  | _ => true
  end.

Definition finite_features (df : Table) : Prop :=
  Forall (fun c : string * list num =>
            Forall (fun x => no_infinity x = true) c.2)
         (symptoms df).

(** Some feature cell is an infinity. *)
Definition infinite_feature (df : Table) : Prop :=
  exists (c : string * list num) (negative : bool),
    c ∈ symptoms df /\ Infinity negative ∈ c.2.

(** The label column has a missing value and no present one. *)
Definition no_label (df : Table) : Prop :=
  existsb isnull_label (target df) = true /\ forall s, Some s ∉ target df.


(** The tie-break by first encounter: the first value, in the order in which
    the frequency count meets the values, whose count is the largest. *)
Definition mode_first_encountered (l : list label) : option string :=
  head (filter (fun s => count_label s l = max_count l) (first_seen l [])).

(** Reading a code back through the Label Mapping. *)
Definition decode (mapping : list (label * nat)) (code : nat) : option label :=
  (fun r => r.2.1) <$> list_find (fun p => p.2 = code) mapping.

(** The code [_map_to_integer] gives a value that occurs in [uniques]. *)
Definition code_in (uniques : list label) (v : label) : nat :=
  default 0 (enumerate_table uniques !! v).

(** The frame the Writer saves for a partition. *)
Definition frame_of_partition (part : partition) : DataFrame :=
  match part with
  | Labels y => to_frame y
  | Frame df => df
  end.

(** The calls of a complete run of the Writer: the directory, one file per
    partition in the order of the dictionary, then the mapping. *)
Definition writer_calls
    (dfs_dict : list (string * partition) * list (label * nat)) (path : string)
  : list call :=
  os_makedirs path true
  :: map (fun item : string * partition =>
            to_csv (frame_of_partition item.2)
                   (os_path_join path (item.1 +:+ ".csv")) false)
         dfs_dict.1
  ++ [json_dump_to dfs_dict.2 (os_path_join path "label_mapping.json") 4].

(** The cell of a column at a position, and the row of a frame at a
    position: its cells next to the names of their columns. *)
Definition cell (c : column) (i : nat) : option (num + label) :=
  match c with
  | NumCol v => inl <$> v !! i
  | StrCol v => inr <$> v !! i
  end.

Definition row (X : DataFrame) (i : nat)
  : list (string * option (num + label)) :=
  map (fun c => (c.1, cell c.2 i)) (columns X).

(** A frame whose columns are as long as its index, and a series whose
    index is as long as its values. *)
Definition well_formed_frame (X : DataFrame) : Prop :=
  Forall (fun c => col_length c.2 = length (index X)) (columns X).

Definition well_formed_series (y : Series) : Prop :=
  length (s_index y) = length (values y).

(** A table whose columns are all as long as its index. *)
Definition well_formed_table (df : Table) : Prop :=
  Forall (fun c : string * list num => length c.2 = length (t_index df))
         (symptoms df) /\
  length (target df) = length (t_index df).

(** ** Sample tables *)

(** Three rows, one feature, a missing feature cell, a fractional feature
    cell and a missing label whose two candidates occur once each. *)
Definition sample_raw : Table :=
  {| t_index := [0; 1; 2];
     symptoms := [("fever", [Float (1 # 1); NaN; Float (1 # 2)])];
     TARGET_COL := "disease";
     target := [Some "flu"; None; Some "cold"] |}.

Definition sample_cleaned : Table :=
  {| t_index := [0; 1; 2];
     symptoms := [("fever", [Int 1; Int 0; Int 0])];
     TARGET_COL := "disease";
     target := [Some "flu"; Some "cold"; Some "cold"] |}.

Definition sample_labelled : Table :=
  {| t_index := [0; 1; 2; 3];
     symptoms := [("fever", [Int 1; Int 0; Int 0; Int 1])];
     TARGET_COL := "disease";
     target := [Some "flu"; Some "cold"; Some "flu"; Some "acne"] |}.

Definition sample_X : DataFrame :=
  {| index := [0; 1; 2; 3];
     columns := [("fever", NumCol [Int 1; Int 0; Int 0; Int 1])] |}.

Definition sample_y : Series :=
  {| name := "target"; s_index := [0; 1; 2; 3]; values := [2; 1; 2; 0] |}.

Definition sample_mapping : list (label * nat) :=
  [(Some "acne", 0); (Some "cold", 1); (Some "flu", 2)].

(** Ten rows, six of one class and four of another. *)
Definition sample_ten : Table :=
  {| t_index := seq 0 10;
     symptoms := [("fever", [Int 1; Int 0; Int 1; NaN; Int 0;
                             Int 1; Int 1; Int 0; Int 0; Int 1])];
     TARGET_COL := "disease";
     target := [Some "flu"; Some "flu"; Some "cold"; Some "flu"; None;
                Some "cold"; Some "flu"; Some "cold"; Some "cold"; Some "flu"] |}.

(** The partitions and the mapping the transform stage makes of
    [sample_ten] with the generator [lcg]. *)
Definition sample_split : list (string * partition) :=
  Eval vm_compute in
    match (transform_data sample_ten 0%N).1 with
    | Ok r => r.1
    | Raise _ => []
    end.

Definition sample_split_mapping : list (label * nat) :=
  Eval vm_compute in
    match (transform_data sample_ten 0%N).1 with
    | Ok r => r.2
    | Raise _ => []
    end.

(** Fifty rows; the label "cold" occurs once. *)
Definition sample_fifty : Table :=
  {| t_index := seq 0 50;
     symptoms := [("fever", repeat (Int 1) 50)];
     TARGET_COL := "disease";
     target := repeat (Some "flu") 49 ++ [Some "cold"] |}.

Definition sample_fifty_X : DataFrame :=
  {| index := seq 0 50; columns := [("fever", NumCol (repeat (Int 1) 50))] |}.

Definition sample_fifty_y : Series :=
  {| name := "target"; s_index := seq 0 50; values := repeat 1 49 ++ [0] |}.

(** What the Encoder hands to the Splitter for [sample_ten]. *)
Definition sample_ten_X : DataFrame :=
  Eval vm_compute in
    match _clean sample_ten ≫= _encode with
    | Ok r => r.1.1
    | Raise _ => empty_frame
    end.

Definition sample_ten_y : Series :=
  Eval vm_compute in
    match _clean sample_ten ≫= _encode with
    | Ok r => r.1.2
    | Raise _ => {| name := ""; s_index := []; values := [] |}
    end.

(** [sample_raw] with its rows in the opposite order. *)
Definition sample_raw_reversed : Table :=
  {| t_index := [2; 1; 0];
     symptoms := [("fever", [Float (1 # 2); NaN; Float (1 # 1)])];
     TARGET_COL := "disease";
     target := [Some "cold"; None; Some "flu"] |}.

(** Two rows, no label at all. *)
Definition sample_unlabelled : Table :=
  {| t_index := [0; 1];
     symptoms := [("fever", [Int 1; NaN])];
     TARGET_COL := "disease";
     target := [None; None] |}.

(** Two rows, one feature cell is 1e19, beyond the int64 range. *)
Definition sample_huge : Table :=
  {| t_index := [0; 1];
     symptoms := [("fever", [Float (1 # 2);
                             Float (10000000000000000000 # 1)])];
     TARGET_COL := "disease";
     target := [Some "flu"; Some "cold"] |}.

Definition sample_huge_cleaned : Table :=
  {| t_index := [0; 1];
     symptoms := [("fever", [Int 0; Int (-9223372036854775808)])];
     TARGET_COL := "disease";
     target := [Some "flu"; Some "cold"] |}.

(** Two rows, one feature cell is an infinity. *)
Definition sample_infinite : Table :=
  {| t_index := [0; 1];
     symptoms := [("fever", [Int 1; Infinity false])];
     TARGET_COL := "disease";
     target := [Some "flu"; Some "cold"] |}.

(** Ten rows in three classes: a test partition of two rows cannot hold
    one row of each. *)
Definition sample_three_X : DataFrame :=
  {| index := seq 0 10; columns := [("fever", NumCol (repeat (Int 1) 10))] |}.

Definition sample_three_y : Series :=
  {| name := "target"; s_index := seq 0 10;
     values := [0; 0; 0; 0; 1; 1; 1; 2; 2; 2] |}.

(** What the Cleaner makes of [sample_ten]. *)
Definition sample_ten_cleaned : Table :=
  Eval vm_compute in
    match _clean sample_ten with
    | Ok r => r
    | Raise _ => sample_ten
    end.

(** A disk on which the path of the data file is a directory. *)
Definition directory_disk : gmap string node :=
  {["/srv/data/raw_data.csv" := Directory]}.

(** A disk that holds [sample_raw] as the data file. *)
Definition sample_disk : gmap string node :=
  {["/srv/data/raw_data.csv" := CsvFile (frame_of_table sample_raw)]}.

(** A worker on which nothing has run yet, the worker after the extract
    task has stored [sample_ten], and a worker after the transform task whose
    disk has become read-only. *)
Definition fresh_worker : machine :=
  {| files := ∅; pickles := ∅; xcom := [];
     task_id := "extract_task"; read_only := false |}.

(** A worker whose disk holds the data file. *)
Definition staged_worker : machine :=
  {| files := sample_disk; pickles := ∅; xcom := [];
     task_id := "extract_task"; read_only := false |}.

Definition extracted_worker : machine :=
  {| files := {["/tmp/airflow_data" := Directory]};
     pickles := {["/tmp/airflow_data/raw_data.pkl" := PickledTable sample_ten]};
     xcom := [("extract_task", "data_file_path",
               "/tmp/airflow_data/raw_data.pkl")];
     task_id := "transform_task"; read_only := false |}.

Definition read_only_worker : machine :=
  {| files := {["/tmp/airflow_data" := Directory]};
     pickles := {["/tmp/airflow_data/transformed_data_set.pkl"
                  := PickledResult (sample_split, sample_split_mapping)]};
     xcom := [("transform_task", "data_file_path",
               "/tmp/airflow_data/transformed_data_set.pkl")];
     task_id := "load_task"; read_only := true |}.

(** * Properties *)

(** ** The string order *)

Lemma ascii_compare_refl (a : ascii) : Ascii.compare a a = Eq.
Proof. unfold Ascii.compare. apply N.compare_refl. Qed.

Lemma ascii_compare_lt_trans (a b c : ascii) :
  Ascii.compare a b = Lt -> Ascii.compare b c = Lt -> Ascii.compare a c = Lt.
Proof.
  unfold Ascii.compare. rewrite !N.compare_lt_iff. apply N.lt_trans.
Qed.

Lemma str_compare_refl (s : string) : String.compare s s = Eq.
Proof.
  induction s as [|a s IH]; simpl; [done|]. by rewrite ascii_compare_refl.
Qed.

Lemma str_lt_trans (a b c : string) : str_lt a b -> str_lt b c -> str_lt a c.
Proof.
  unfold str_lt. revert b c.
  induction a as [|x a IH]; intros [|y b] [|z c]; simpl; try done.
  destruct (Ascii.compare x y) eqn:Hxy; try done.
  - apply Ascii.compare_eq_iff in Hxy as ->.
    destruct (Ascii.compare y z) eqn:Hyz; try done. apply IH.
  - destruct (Ascii.compare y z) eqn:Hyz; try done.
    + apply Ascii.compare_eq_iff in Hyz as <-. by rewrite Hxy.
    + by rewrite (ascii_compare_lt_trans x y z).
Qed.

Lemma str_lt_irrefl (a : string) : ~ str_lt a a.
Proof. unfold str_lt. by rewrite str_compare_refl. Qed.

Lemma str_compare_gt (a b : string) :
  String.compare a b = Gt -> str_lt b a.
Proof.
  unfold str_lt. intros Hc. rewrite String.compare_antisym, Hc. done.
Qed.

Lemma str_lt_asym (a b : string) : str_lt a b -> ~ str_lt b a.
Proof. intros H1 H2. exact (str_lt_irrefl a (str_lt_trans _ _ _ H1 H2)). Qed.

(** ** [sorted_set] *)

Lemma insert_sorted_elem (x y : string) (l : list string) :
  y ∈ insert_sorted x l <-> y = x \/ y ∈ l.
Proof.
  induction l as [|z l IH]; simpl.
  - rewrite list_elem_of_singleton. set_solver.
  - destruct (String.compare x z) eqn:Hc.
    + apply String.compare_eq_iff in Hc as ->. set_solver.
    + set_solver.
    + rewrite !elem_of_cons, IH. tauto.
Qed.

Lemma insert_sorted_sorted (x : string) (l : list string) :
  StronglySorted str_lt l -> StronglySorted str_lt (insert_sorted x l).
Proof.
  induction 1 as [|z l Hs IH Hz]; simpl.
  - repeat constructor.
  - destruct (String.compare x z) eqn:Hc.
    + by constructor.
    + constructor; [by constructor|].
      constructor; [done|].
      eapply Forall_impl; [exact Hz|]. intros w Hw.
      by apply (str_lt_trans x z w).
    + constructor; [done|].
      apply Forall_forall. intros w Hw.
      apply insert_sorted_elem in Hw as [->|Hw].
      * by apply str_compare_gt.
      * rewrite Forall_forall in Hz. by apply Hz.
Qed.

Lemma sorted_set_elem (y : string) (l : list string) :
  y ∈ sorted_set l <-> y ∈ l.
Proof.
  induction l as [|x l IH]; simpl; [done|].
  rewrite insert_sorted_elem, IH. set_solver.
Qed.

Lemma sorted_set_sorted (l : list string) : StronglySorted str_lt (sorted_set l).
Proof.
  induction l; simpl; [constructor|]. by apply insert_sorted_sorted.
Qed.

Lemma sorted_NoDup (l : list string) : StronglySorted str_lt l -> NoDup l.
Proof.
  induction 1 as [|x l Hs IH Hx]; constructor; [|done].
  intros Hin. rewrite Forall_forall in Hx.
  apply Hx in Hin. by apply str_lt_irrefl in Hin.
Qed.

(** Two strictly sorted lists with the same elements are the same list. *)
Lemma sorted_unique (l1 l2 : list string) :
  StronglySorted str_lt l1 -> StronglySorted str_lt l2 ->
  (forall x, x ∈ l1 <-> x ∈ l2) -> l1 = l2.
Proof.
  intros H1. revert l2.
  induction H1 as [|x l1 Hs1 IH Hx]; intros l2 H2 Heq.
  - destruct l2 as [|y l2]; [done|]. specialize (Heq y). set_solver.
  - destruct H2 as [|y l2 Hs2 Hy].
    { specialize (Heq x). set_solver. }
    rewrite Forall_forall in Hx, Hy.
    assert (x = y) as <-.
    { pose proof (proj1 (Heq x) ltac:(set_solver)) as Hxin.
      pose proof (proj2 (Heq y) ltac:(set_solver)) as Hyin.
      apply elem_of_cons in Hxin as [?|Hxin]; [done|].
      apply elem_of_cons in Hyin as [?|Hyin]; [done|].
      apply Hy in Hxin. apply Hx in Hyin.
      by destruct (str_lt_asym _ _ Hxin). }
    f_equal. apply IH; [done|]. intros z. split; intros Hz.
    + pose proof (proj1 (Heq z) ltac:(set_solver)) as Hz'.
      apply elem_of_cons in Hz' as [->|?]; [|done].
      apply Hx in Hz. by apply str_lt_irrefl in Hz.
    + pose proof (proj2 (Heq z) ltac:(set_solver)) as Hz'.
      apply elem_of_cons in Hz' as [->|?]; [|done].
      apply Hy in Hz. by apply str_lt_irrefl in Hz.
Qed.

Lemma sorted_set_perm (l1 l2 : list string) :
  l1 ≡ₚ l2 -> sorted_set l1 = sorted_set l2.
Proof.
  intros Hp. apply sorted_unique; try apply sorted_set_sorted.
  intros x. rewrite !sorted_set_elem. by rewrite Hp.
Qed.

(** ** [result] and [traverse] *)

Lemma traverse_ok_map {A B} (f : A -> result B) (g : A -> B) (l : list A) :
  (forall x, x ∈ l -> f x = Ok (g x)) -> traverse f l = Ok (map g l).
Proof.
  induction l as [|x l IH]; intros Hf; simpl; [done|].
  rewrite Hf by set_solver. simpl. rewrite IH by set_solver. done.
Qed.

Lemma traverse_ok_inv {A B} (f : A -> result B) (l : list A) (l' : list B) :
  traverse f l = Ok l' -> Forall2 (fun x y => f x = Ok y) l l'.
Proof.
  revert l'. induction l as [|x l IH]; intros l'; simpl.
  - intros [= <-]. constructor.
  - destruct (f x) as [y|] eqn:Hx; simpl; [|done].
    destruct (traverse f l) as [ys|] eqn:Hl; simpl; [|done].
    intros [= <-]. constructor; [done|]. by apply IH.
Qed.

Lemma traverse_ok_length {A B} (f : A -> result B) (l : list A) (l' : list B) :
  traverse f l = Ok l' -> length l' = length l.
Proof. intros Ht. symmetry. eapply Forall2_length, traverse_ok_inv, Ht. Qed.

(** ** The Cleaner *)

Lemma count_true_zero {A} (p : A -> bool) (l : list A) :
  count_true p l = 0 <-> Forall (fun x => p x = false) l.
Proof.
  unfold count_true. induction l as [|x l IH]; simpl.
  - split; [constructor|done].
  - rewrite filter_cons. destruct (decide (p x = true)) as [Hp|Hp]; simpl.
    + split; [done|]. intros Hf. inversion Hf; congruence.
    + rewrite IH. apply not_true_is_false in Hp. split.
      * by constructor.
      * by inversion 1.
Qed.

Lemma existsb_false_Forall {A} (p : A -> bool) (l : list A) :
  existsb p l = false <-> Forall (fun x => p x = false) l.
Proof.
  induction l as [|x l IH]; simpl.
  - split; [constructor|done].
  - rewrite orb_false_iff, IH. split.
    + intros [? ?]. by constructor.
    + by inversion 1.
Qed.


Lemma fillna_label_no_missing (m : string) (l : list label) :
  Forall (fun x => isnull_label x = false) (fillna_label m l).
Proof.
  unfold fillna_label. apply Forall_forall. intros x Hx.
  apply list_elem_of_fmap in Hx as (y & -> & _). by destruct y.
Qed.

Lemma cleaned_cell_fillna (c : num) :
  no_infinity c = true ->
  astype_int_cell (match c with NaN => Int 0 | _ => c end) = Ok (cleaned_cell c).
Proof. by destruct c. Qed.

Lemma cleaned_cell_filled (c : num) :
  cleaned_cell (match c with NaN => Int 0 | _ => c end) = cleaned_cell c.
Proof. by destruct c. Qed.

Lemma astype_int_cell_ok (c c' : num) :
  astype_int_cell c = Ok c' -> c' = cleaned_cell c /\ isnull_num c = false.
Proof. destruct c; simpl; try done; by intros [= <-]. Qed.

Lemma astype_int_cell_finite (c c' : num) :
  astype_int_cell c = Ok c' -> no_infinity c = true.
Proof. by destruct c. Qed.

Lemma astype_int_cell_raises (c : num) (e : exn) :
  astype_int_cell c = Raise e -> e = IntCastingNaNError.
Proof. destruct c; simpl; congruence. Qed.

Lemma astype_col_ok (col col' : list num) :
  traverse astype_int_cell col = Ok col' ->
  col' = map cleaned_cell col /\ Forall (fun x => isnull_num x = false) col.
Proof.
  intros Ht. apply traverse_ok_inv in Ht.
  induction Ht as [|x y l l' Hxy Hl IH]; simpl; [done|].
  apply astype_int_cell_ok in Hxy as [-> ?]. destruct IH as [-> ?].
  split; [done|]. by constructor.
Qed.

Lemma astype_col_finite (col col' : list num) :
  traverse astype_int_cell col = Ok col' ->
  Forall (fun x => no_infinity x = true) col.
Proof.
  intros Ht. apply traverse_ok_inv in Ht.
  induction Ht as [|x y l l' Hxy Hl IH]; [done|].
  constructor; [by eapply astype_int_cell_finite|done].
Qed.

Lemma traverse_raises {A B} (f : A -> result B) (l : list A) (e : exn) :
  traverse f l = Raise e -> exists x, x ∈ l /\ f x = Raise e.
Proof.
  induction l as [|x l IH]; simpl; [done|].
  destruct (f x) as [y|e'] eqn:Hx; simpl.
  - destruct (traverse f l) as [ys|e'] eqn:Hl; simpl; [done|].
    intros [= ->]. destruct (IH eq_refl) as (x' & Hin & Hx').
    exists x'. split; [set_solver|done].
  - intros [= ->]. exists x. split; [set_solver|done].
Qed.

Lemma astype_int_ok (cols cols' : list (string * list num)) :
  astype_int cols = Ok cols' ->
  cols' = map (fun c => (c.1, map cleaned_cell c.2)) cols.
Proof.
  unfold astype_int. intros Ht. apply traverse_ok_inv in Ht.
  induction Ht as [|x y l l' Hxy Hl IH]; simpl; [done|].
  rewrite <- IH. f_equal.
  destruct (traverse astype_int_cell x.2) as [v|] eqn:Hv; simpl in Hxy; [|done].
  apply astype_col_ok in Hv as [-> _]. by injection Hxy as <-.
Qed.

Lemma astype_int_finite (cols cols' : list (string * list num)) :
  astype_int cols = Ok cols' ->
  Forall (fun c : string * list num =>
            Forall (fun x => no_infinity x = true) c.2) cols.
Proof.
  unfold astype_int. intros Ht. apply traverse_ok_inv in Ht.
  induction Ht as [|x y l l' Hxy Hl IH]; [done|]. constructor; [|done].
  destruct (traverse astype_int_cell x.2) as [v|] eqn:Hv; simpl in Hxy; [|done].
  by apply astype_col_finite in Hv.
Qed.

Lemma astype_int_raises (cols : list (string * list num)) (e : exn) :
  astype_int cols = Raise e -> e = IntCastingNaNError.
Proof.
  unfold astype_int. intros Ht.
  apply traverse_raises in Ht as (c & _ & Hc).
  destruct (traverse astype_int_cell c.2) as [v|e'] eqn:Hv; simpl in Hc; [done|].
  injection Hc as <-.
  apply traverse_raises in Hv as (x & _ & Hx).
  by apply astype_int_cell_raises in Hx.
Qed.

Lemma filled_cols_finite (cols : list (string * list num)) :
  Forall (fun c : string * list num =>
            Forall (fun x => no_infinity x = true) c.2)
         (map (fun c => (c.1, fillna_num 0 c.2)) cols) ->
  Forall (fun c : string * list num =>
            Forall (fun x => no_infinity x = true) c.2) cols.
Proof.
  rewrite Forall_map. intros Hall. eapply Forall_impl; [exact Hall|].
  intros c. simpl. unfold fillna_num. rewrite Forall_map.
  intros Hcol. eapply Forall_impl; [exact Hcol|].
  intros x. simpl. by destruct x.
Qed.

Lemma astype_int_filled (cols : list (string * list num)) :
  Forall (fun c : string * list num =>
            Forall (fun x => no_infinity x = true) c.2) cols ->
  astype_int (map (fun c => (c.1, fillna_num 0 c.2)) cols)
  = Ok (map (fun c => (c.1, map cleaned_cell c.2)) cols).
Proof.
  unfold astype_int. induction 1 as [|[n col] cols Hcol Hcols IH]; simpl; [done|].
  rewrite IH. simpl in *.
  assert (traverse astype_int_cell (fillna_num 0 col) = Ok (map cleaned_cell col))
    as ->; [|done].
  unfold fillna_num. clear IH Hcols.
  induction Hcol as [|c col Hc Hcol IHc]; simpl; [done|].
  rewrite (cleaned_cell_fillna c Hc). simpl. by rewrite IHc.
Qed.

Lemma astype_int_filled_ok (cols cols' : list (string * list num)) :
  astype_int (map (fun c => (c.1, fillna_num 0 c.2)) cols) = Ok cols' ->
  cols' = map (fun c => (c.1, map cleaned_cell c.2)) cols.
Proof.
  intros Ht. pose proof (astype_int_finite _ _ Ht) as Hfin.
  apply filled_cols_finite in Hfin.
  rewrite (astype_int_filled _ Hfin) in Ht. by injection Ht as <-.
Qed.

Lemma cleaned_cell_not_null (c : num) : isnull_num (cleaned_cell c) = false.
Proof. by destruct c. Qed.

Lemma cleaned_cols_no_missing (cols : list (string * list num)) :
  Forall (fun c => Forall (fun x => isnull_num x = false) c.2)
         (map (fun c => (c.1, map cleaned_cell c.2)) cols).
Proof.
  apply Forall_forall. intros c Hc.
  apply list_elem_of_fmap in Hc as (c0 & -> & _). simpl.
  apply Forall_forall. intros x Hx.
  apply list_elem_of_fmap in Hx as (x0 & -> & _). apply cleaned_cell_not_null.
Qed.

(** The label column of a table without a missing count. *)
Lemma no_missing_cols_target (df : Table) :
  filter (fun c : string * nat => 0 < c.2) (missing_counts df) = [] ->
  Forall (fun x => isnull_label x = false) (target df).
Proof.
  unfold missing_counts. rewrite filter_app. intros Hf.
  apply app_eq_nil in Hf as [_ Hf]. rewrite filter_cons in Hf. simpl in Hf.
  destruct (decide (0 < count_true isnull_label (target df))); [done|].
  apply count_true_zero. lia.
Qed.

(** What [_clean] returns, whenever it returns. *)
Lemma clean_inv (df df' : Table) :
  _clean df = Ok df' ->
  t_index df' = t_index df /\ TARGET_COL df' = TARGET_COL df /\
  symptoms df' = map (fun c => (c.1, map cleaned_cell c.2)) (symptoms df) /\
  (existsb isnull_label (target df) = false /\ target df' = target df \/
   existsb isnull_label (target df) = true /\
   exists m, getitem0 (mode (target df)) = Ok m /\
             target df' = fillna_label m (target df)).
Proof.
  unfold _clean.
  destruct (bool_decide _) eqn:Hmiss; simpl.
  - apply bool_decide_eq_true in Hmiss.
    destruct (astype_int (symptoms df)) as [cols|] eqn:Hc; simpl; [|done].
    intros [= <-]. simpl. apply astype_int_ok in Hc.
    repeat split; try done. left. split; [|done].
    by apply existsb_false_Forall, no_missing_cols_target.
  - destruct (existsb isnull_label (target df)) eqn:Hnull; simpl.
    + destruct (getitem0 (mode (target df))) as [m|] eqn:Hm; simpl; [|done].
      destruct (astype_int _) as [cols|] eqn:Hc; simpl; [|done].
      intros [= <-]. simpl. apply astype_int_filled_ok in Hc.
      repeat split; try done. right. split; [done|]. by exists m.
    + destruct (astype_int _) as [cols|] eqn:Hc; simpl; [|done].
      intros [= <-]. simpl. apply astype_int_filled_ok in Hc.
      repeat split; try done. by left.
Qed.

(** The Cleaner returns only on a table without an infinite feature cell. *)
Lemma clean_finite (df df' : Table) :
  _clean df = Ok df' -> finite_features df.
Proof.
  unfold _clean, finite_features.
  destruct (bool_decide _) eqn:Hmiss; simpl.
  - destruct (astype_int (symptoms df)) as [cols|] eqn:Hc; simpl; [|done].
    intros _. by apply astype_int_finite in Hc.
  - destruct (existsb isnull_label (target df)) eqn:Hnull; simpl.
    + destruct (getitem0 (mode (target df))) as [m|] eqn:Hm; simpl; [|done].
      destruct (astype_int _) as [cols|] eqn:Hc; simpl; [|done].
      intros _. by apply astype_int_finite, filled_cols_finite in Hc.
    + destruct (astype_int _) as [cols|] eqn:Hc; simpl; [|done].
      intros _. by apply astype_int_finite, filled_cols_finite in Hc.
Qed.

(** *** The mode of the label column *)

Lemma first_seen_elem (s : string) (l : list label) (seen : list string) :
  s ∈ first_seen l seen <-> Some s ∈ l /\ s ∉ seen.
Proof.
  revert seen. induction l as [|[x|] l IH]; intros seen; simpl.
  - set_solver.
  - case_bool_decide as Hx.
    + rewrite IH. split.
      * intros [? ?]. split; [set_solver|done].
      * intros [Hin ?]. split; [|done].
        apply elem_of_cons in Hin as [[= ->]|?]; done.
    + rewrite elem_of_cons, IH. split.
      * intros [->|[? ?]]; set_solver.
      * intros [Hin ?]. destruct (decide (s = x)) as [->|Hne]; [by left|].
        right. set_solver.
  - rewrite IH. set_solver.
Qed.

Lemma count_label_pos (s : string) (l : list label) :
  0 < count_label s l <-> Some s ∈ l.
Proof.
  unfold count_label, count_true. induction l as [|x l IH]; simpl.
  - split; [lia|set_solver].
  - rewrite filter_cons. destruct (decide _) as [Hx|Hx]; simpl.
    + apply bool_decide_eq_true in Hx as ->. split; [set_solver|lia].
    + rewrite IH. rewrite elem_of_cons. split; [tauto|].
      intros [Heq|?]; [|done]. exfalso. apply Hx. by apply bool_decide_eq_true.
Qed.

Lemma foldr_max_ge {A} (f : A -> nat) (ks : list A) (x : A) :
  x ∈ ks -> f x <= foldr Nat.max 0 (map f ks).
Proof.
  induction ks as [|k ks IH]; simpl; [set_solver|].
  intros [->|Hin]%elem_of_cons; [lia|]. specialize (IH Hin). lia.
Qed.

Lemma foldr_max_attained {A} (f : A -> nat) (ks : list A) :
  ks <> [] -> exists x, x ∈ ks /\ f x = foldr Nat.max 0 (map f ks).
Proof.
  induction ks as [|k ks IH]; [done|]. intros _. simpl.
  destruct ks as [|k' ks].
  - exists k. split; [set_solver|]. simpl. lia.
  - destruct IH as (x & Hx & Hfx); [done|].
    destruct (decide (f k <= f x)).
    + exists x. split; [set_solver|]. rewrite <- Hfx. lia.
    + exists k. split; [set_solver|]. rewrite <- Hfx. lia.
Qed.

Lemma max_count_ge (s : string) (l : list label) :
  count_label s l <= max_count l.
Proof.
  destruct (decide (Some s ∈ l)) as [Hin|Hin].
  - unfold max_count. apply (foldr_max_ge (fun s => count_label s l)).
    apply first_seen_elem. set_solver.
  - assert (~ 0 < count_label s l) by by rewrite count_label_pos. lia.
Qed.

Lemma mode_elem (s : string) (l : list label) :
  s ∈ mode l <-> Some s ∈ l /\ count_label s l = max_count l.
Proof.
  unfold mode. rewrite sorted_set_elem, list_elem_of_filter, first_seen_elem.
  set_solver.
Qed.

Lemma mode_nonempty (l : list label) (s : string) :
  Some s ∈ l -> mode l <> [].
Proof.
  intros Hin.
  destruct (foldr_max_attained (fun s => count_label s l) (first_seen l []))
    as (x & Hx & Hfx).
  { intros Hnil. assert (s ∈ first_seen l []) as Hs.
    { apply first_seen_elem. set_solver. }
    rewrite Hnil in Hs. set_solver. }
  assert (x ∈ mode l) as Hm.
  { apply mode_elem. split; [|done]. by apply first_seen_elem in Hx as [? _]. }
  intros Hnil. rewrite Hnil in Hm. set_solver.
Qed.

Lemma sorted_head_least (l : list string) (m : string) :
  StronglySorted str_lt l -> head l = Some m ->
  forall x, x ∈ l -> x = m \/ str_lt m x.
Proof.
  destruct 1 as [|y l Hs Hy]; simpl; [done|]. intros [= ->] x Hx.
  apply elem_of_cons in Hx as [->|Hx]; [by left|]. right.
  rewrite Forall_forall in Hy. by apply Hy.
Qed.

Lemma getitem0_head (l : list string) (m : string) :
  getitem0 l = Ok m <-> head l = Some m.
Proof. destruct l; simpl; split; congruence. Qed.

(** The Cleaner's output has no missing value. *)
Lemma clean_no_missing (df df' : Table) :
  _clean df = Ok df' ->
  Forall (fun c => Forall (fun x => isnull_num x = false) c.2) (symptoms df') /\
  Forall (fun x => isnull_label x = false) (target df') /\
  symptoms df' = map (fun c => (c.1, map cleaned_cell c.2)) (symptoms df).
Proof.
  intros Hc. apply clean_inv in Hc as (_ & _ & Hsym & Htgt).
  split; [rewrite Hsym; apply cleaned_cols_no_missing|]. split; [|done].
  destruct Htgt as [[Hnone ->]|[_ (m & _ & ->)]].
  - by apply existsb_false_Forall.
  - apply fillna_label_no_missing.
Qed.


(** The Cleaner returns unless the label column has a missing value and
    nothing else. *)
Lemma clean_returns (df : Table) :
  finite_features df ->
  existsb isnull_label (target df) = false \/ (exists s, Some s ∈ target df) ->
  exists df', _clean df = Ok df'.
Proof.
  intros Hfin Hok. unfold _clean.
  destruct (bool_decide _) eqn:Hmiss; simpl.
  - apply bool_decide_eq_true in Hmiss.
    pose proof (no_missing_cols_target _ Hmiss) as Htgt.
    assert (Forall (fun c : string * list num =>
                      Forall (fun x => isnull_num x = false) c.2)
                   (symptoms df)) as Hsym.
    { apply Forall_forall. intros c Hc. apply count_true_zero.
      unfold missing_counts in Hmiss. rewrite filter_app in Hmiss.
      apply app_eq_nil in Hmiss as [Hmiss _].
      destruct (decide (0 < count_true isnull_num c.2)) as [Hpos|]; [|lia].
      exfalso.
      eapply (filter_nil_not_elem_of _ _ (c.1, count_true isnull_num c.2));
        [exact Hmiss|exact Hpos|].
      apply list_elem_of_fmap. by exists c. }
    assert (astype_int (symptoms df)
            = Ok (map (fun c => (c.1, map cleaned_cell c.2)) (symptoms df)))
      as ->; [|simpl; eauto].
    unfold astype_int. apply traverse_ok_map. intros c Hc.
    unfold finite_features in Hfin.
    rewrite Forall_forall in Hsym, Hfin. specialize (Hsym c Hc).
    specialize (Hfin c Hc).
    erewrite traverse_ok_map; [done|]. intros x Hx.
    rewrite Forall_forall in Hsym, Hfin. specialize (Hsym x Hx).
    specialize (Hfin x Hx). by destruct x.
  - destruct (existsb isnull_label (target df)) eqn:Hnull; simpl.
    + destruct Hok as [?|[s Hs]]; [done|].
      pose proof (mode_nonempty _ _ Hs) as Hm.
      destruct (mode (target df)) as [|m ms] eqn:Hmode; [done|]. simpl.
      rewrite (astype_int_filled _ Hfin). simpl. eauto.
    + rewrite (astype_int_filled _ Hfin). simpl. eauto.
Qed.



(** C6 (as amended): when the label column has a missing value and the
    Cleaner returns, every missing label has been replaced by one value [m]
    and the other labels are unchanged; [m] occurs in the column as it was
    before the substitution, no value occurs more often, and every other
    value that occurs as often comes after [m] in lexicographic order. *)
Theorem clean_label_mode (df df' : Table) :
  _clean df = Ok df' ->
  existsb isnull_label (target df) = true ->
  exists m : string,
    target df' = fillna_label m (target df) /\
    Some m ∈ target df /\
    (forall s, count_label s (target df) <= count_label m (target df)) /\
    (forall s, count_label s (target df) = count_label m (target df) ->
               s = m \/ str_lt m s).
Proof.
  intros Hc Hnull. apply clean_inv in Hc as (_ & _ & _ & Htgt).
  destruct Htgt as [[Hnone _]|[_ (m & Hm & Ht)]]; [congruence|].
  exists m. split; [done|]. apply getitem0_head in Hm.
  assert (m ∈ mode (target df)) as Hin.
  { destruct (mode (target df)); simpl in Hm; [done|]. set_solver. }
  apply mode_elem in Hin as [Hin Hmax].
  split; [done|]. split.
  - intros s. rewrite Hmax. apply max_count_ge.
  - intros s Hs.
    assert (s ∈ mode (target df)) as Hsm.
    { apply mode_elem. split; [|congruence].
      apply count_label_pos. rewrite Hs. by apply count_label_pos. }
    eapply sorted_head_least; [apply sorted_set_sorted|exact Hm|exact Hsm].
Qed.

Lemma clean_label_mode_witness :
  _clean sample_raw = Ok sample_cleaned /\
  existsb isnull_label (target sample_raw) = true /\
  exists m : string,
    target sample_cleaned = fillna_label m (target sample_raw) /\
    Some m ∈ target sample_raw /\
    (forall s, count_label s (target sample_raw)
               <= count_label m (target sample_raw)) /\
    (forall s, count_label s (target sample_raw)
               = count_label m (target sample_raw) -> s = m \/ str_lt m s).
Proof.
  split; [reflexivity|]. split; [reflexivity|].
  apply (clean_label_mode sample_raw sample_cleaned); reflexivity.
Defined.

(** C6 (as stated) fails on the tie-break.  In [sample_raw] the labels "flu"
    and "cold" occur once each and the count meets "flu" first, yet the
    missing label is filled with "cold". *)
Lemma clean_tie_not_first_encountered :
  _clean sample_raw = Ok sample_cleaned /\
  mode_first_encountered (target sample_raw) = Some "flu" /\
  target sample_cleaned = fillna_label "cold" (target sample_raw) /\
  target sample_cleaned <> fillna_label "flu" (target sample_raw).
Proof. repeat split; try reflexivity. discriminate. Qed.

(** ** The Encoder *)

Lemma unique_python_NoDup (vals : list label) : NoDup (_unique_python vals).
Proof.
  unfold _unique_python. apply NoDup_app. split; [|split].
  - apply (NoDup_fmap_2 _). apply sorted_NoDup, sorted_set_sorted.
  - intros x Hx Hx'. apply list_elem_of_fmap in Hx as (s & -> & _).
    destruct (existsb _ _); set_solver.
  - destruct (existsb _ _); [apply NoDup_singleton|apply NoDup_nil_2].
Qed.

Lemma existsb_isnull_elem (vals : list label) :
  existsb isnull_label vals = true <-> None ∈ vals.
Proof.
  induction vals as [|[x|] vals IH]; simpl.
  - set_solver.
  - rewrite IH. set_solver.
  - set_solver.
Qed.

Lemma unique_python_elem (v : label) (vals : list label) :
  v ∈ _unique_python vals <-> v ∈ vals.
Proof.
  unfold _unique_python. rewrite elem_of_app, list_elem_of_fmap. split.
  - intros [(s & -> & Hs)|Hv].
    + apply sorted_set_elem, list_elem_of_omap in Hs as (x & Hx & Hs).
      simpl in Hs. by subst.
    + destruct (existsb _ _) eqn:He; [|set_solver].
      apply existsb_isnull_elem in He. set_solver.
  - intros Hv. destruct v as [s|].
    + left. exists s. split; [done|]. apply sorted_set_elem, list_elem_of_omap.
      by exists (Some s).
    + right. apply existsb_isnull_elem in Hv as ->. set_solver.
Qed.

Lemma enumerate_from_lookup (l : list label) (m : gmap label nat) (k i : nat)
      (v : label) :
  NoDup l -> l !! i = Some v ->
  foldl (fun (m : gmap label nat) p => <[p.2 := p.1]> m) m
        (zip (seq k (length l)) l) !! v = Some (k + i).
Proof.
  revert m k i. induction l as [|x l IH]; intros m k i Hnd Hi; [done|].
  apply NoDup_cons in Hnd as [Hx Hnd]. simpl.
  destruct i as [|i]; simpl in Hi.
  - injection Hi as ->. clear IH.
    assert (forall (l' : list label) (m' : gmap label nat) (k' : nat) (c : nat),
      v ∉ l' -> m' !! v = Some c ->
      foldl (fun (m : gmap label nat) p => <[p.2 := p.1]> m) m'
            (zip (seq k' (length l')) l') !! v = Some c) as Hkeep.
    { induction l' as [|y l' IH']; intros m' k' c Hnin Hm'; [done|].
      simpl. apply IH'; [set_solver|]. rewrite lookup_insert_ne; [done|].
      set_solver. }
    rewrite Nat.add_0_r. apply Hkeep; [done|]. by rewrite lookup_insert_eq.
  - rewrite (IH _ (Datatypes.S k) i Hnd Hi). f_equal. lia.
Qed.

Lemma enumerate_table_lookup (l : list label) (i : nat) (v : label) :
  NoDup l -> l !! i = Some v -> enumerate_table l !! v = Some i.
Proof. intros Hnd Hi. unfold enumerate_table. by rewrite (enumerate_from_lookup l ∅ 0 i v). Qed.

Lemma code_in_lookup (l : list label) (v : label) :
  NoDup l -> v ∈ l -> l !! code_in l v = Some v.
Proof.
  intros Hnd Hv. apply list_elem_of_lookup in Hv as [i Hi].
  unfold code_in. by rewrite (enumerate_table_lookup l i v).
Qed.

Lemma map_to_integer_ok (vals uniques : list label) :
  NoDup uniques -> (forall v, v ∈ vals -> v ∈ uniques) ->
  _map_to_integer vals uniques = Ok (map (code_in uniques) vals).
Proof.
  intros Hnd Hsub. unfold _map_to_integer. apply traverse_ok_map.
  intros v Hv. apply Hsub, list_elem_of_lookup in Hv as [i Hi].
  unfold code_in. by rewrite (enumerate_table_lookup uniques i v).
Qed.

Lemma codes_of_uniques (l : list label) :
  NoDup l -> map (code_in l) l = seq 0 (length l).
Proof.
  intros Hnd. apply list_eq. intros i.
  rewrite list_lookup_fmap. destruct (l !! i) as [v|] eqn:Hi; simpl.
  - unfold code_in. rewrite (enumerate_table_lookup l i v) by done. simpl.
    symmetry. apply lookup_seq. split; [done|]. by eapply lookup_lt_Some.
  - symmetry. apply lookup_ge_None. rewrite length_seq.
    by apply lookup_ge_None.
Qed.

Lemma dict_setitem_fresh {K V} `{EqDecision K} (k : K) (v : V) (d : list (K * V)) :
  k ∉ d.*1 -> dict_setitem k v d = d ++ [(k, v)].
Proof.
  induction d as [|[k' v'] d IH]; simpl; [done|]. intros Hk.
  rewrite decide_False by set_solver. rewrite IH by set_solver. done.
Qed.

Lemma dict_from_fresh {K V} `{EqDecision K} (items d : list (K * V)) :
  NoDup (d.*1 ++ items.*1) ->
  foldl (fun d p => dict_setitem p.1 p.2 d) d items = d ++ items.
Proof.
  revert d. induction items as [|[k v] items IH]; intros d Hnd; simpl.
  - by rewrite app_nil_r.
  - rewrite dict_setitem_fresh.
    + rewrite IH; [by rewrite <- app_assoc|].
      rewrite fmap_app. simpl. by rewrite <- app_assoc.
    + simpl in Hnd. apply NoDup_app in Hnd as (_ & Hd & _).
      intros Hk. apply (Hd k Hk). set_solver.
Qed.

Lemma dict_NoDup_keys {K V} `{EqDecision K} (items : list (K * V)) :
  NoDup items.*1 -> dict items = items.
Proof. intros Hnd. unfold dict. by rewrite dict_from_fresh. Qed.

(** What [_encode] returns, whenever it returns. *)
Lemma encode_inv (df : Table) (X : DataFrame) (y : Series)
      (mapping : list (label * nat)) :
  _encode df = Ok (X, y, mapping) ->
  let uniques := _unique_python (target df) in
  X = {| index := t_index df;
         columns := map (fun c => (c.1, NumCol c.2)) (symptoms df) |} /\
  name y = "target" /\ s_index y = t_index df /\
  values y = map (code_in uniques) (target df) /\
  length (target df) = length (t_index df) /\
  mapping = zip uniques (seq 0 (length uniques)).
Proof.
  intros He uniques. unfold _encode, fit_transform in He.
  fold uniques in He.
  rewrite (map_to_integer_ok (target df) uniques) in He;
    [|apply unique_python_NoDup|intros v; apply unique_python_elem].
  simpl in He.
  assert (transform {| classes_ := uniques |} uniques
          = Ok (seq 0 (length uniques))) as Ht.
  { unfold transform. simpl. case_bool_decide as Hlen.
    - by rewrite Hlen.
    - rewrite map_to_integer_ok; [|apply unique_python_NoDup|done].
      by rewrite codes_of_uniques by apply unique_python_NoDup. }
  rewrite Ht in He. simpl in He. unfold mk_series in He.
  case_bool_decide as Hlen; simpl in He; [|done].
  injection He as <- <- <-. simpl. rewrite length_map in Hlen.
  repeat split; try done.
  apply dict_NoDup_keys. rewrite fst_zip; [apply unique_python_NoDup|].
  by rewrite length_seq.
Qed.

Lemma encode_total (df : Table) :
  length (target df) = length (t_index df) ->
  exists X y mapping, _encode df = Ok (X, y, mapping).
Proof.
  intros Hlen. unfold _encode, fit_transform.
  rewrite (map_to_integer_ok (target df) (_unique_python (target df)));
    [|apply unique_python_NoDup|intros v; apply unique_python_elem].
  simpl. unfold transform. simpl. case_bool_decide as Hl; simpl.
  - unfold mk_series. rewrite length_map, bool_decide_eq_true_2 by done.
    simpl. eauto.
  - rewrite map_to_integer_ok; [|apply unique_python_NoDup|done]. simpl.
    unfold mk_series. rewrite length_map, bool_decide_eq_true_2 by done.
    simpl. eauto.
Qed.

Lemma unique_python_perm (l1 l2 : list label) :
  l1 ≡ₚ l2 -> _unique_python l1 = _unique_python l2.
Proof.
  intros Hp. unfold _unique_python. f_equal.
  - f_equal. apply sorted_set_perm. by rewrite Hp.
  - destruct (existsb isnull_label l1) eqn:H1, (existsb isnull_label l2) eqn:H2;
      try done.
    + apply existsb_isnull_elem in H1. rewrite Hp in H1.
      apply existsb_isnull_elem in H1. congruence.
    + apply existsb_isnull_elem in H2. rewrite <- Hp in H2.
      apply existsb_isnull_elem in H2. congruence.
Qed.

Lemma unique_python_cleaned (vals : list label) :
  Forall (fun x => isnull_label x = false) vals ->
  _unique_python vals = Some <$> sorted_set (omap id vals).
Proof.
  intros Hc. unfold _unique_python.
  apply existsb_false_Forall in Hc as ->. by rewrite app_nil_r.
Qed.

Lemma lookup_zip_seq {A} (u : list A) (c : nat) (v : A) :
  u !! c = Some v -> zip u (seq 0 (length u)) !! c = Some (v, c).
Proof.
  intros Hc. apply lookup_zip_with_Some. exists v, c. split; [done|].
  split; [done|]. apply lookup_seq. split; [done|]. by eapply lookup_lt_Some.
Qed.

Lemma decode_zip (u : list label) (c : nat) (v : label) :
  u !! c = Some v -> decode (zip u (seq 0 (length u))) c = Some v.
Proof.
  intros Hc. unfold decode.
  assert (list_find (fun p : label * nat => p.2 = c) (zip u (seq 0 (length u)))
          = Some (c, (v, c))) as ->; [|done].
  apply list_find_Some. split; [by apply lookup_zip_seq|]. split; [done|].
  intros j [w k] Hj Hlt. simpl.
  apply lookup_zip_with_Some in Hj as (w' & k' & [= <- <-] & _ & Hk).
  apply lookup_seq in Hk as [-> _]. lia.
Qed.

Lemma omap_of_fmap_Some {A B} (f : A -> option B) (l : list A) (l' : list B) :
  f <$> l = Some <$> l' -> omap f l = l'.
Proof.
  revert l'. induction l as [|x l IH]; intros [|y l']; simpl; try done.
  intros [= Hx Hl]. rewrite Hx. f_equal. by apply IH.
Qed.

(** C3: on a cleaned table the Encoder's mapping lists the distinct labels
    in strictly increasing lexicographic order with the codes 0, 1, ..., K-1
    in that order, every row's code is the position of its label in that
    list, and a table whose label column is a rearrangement of this one gets
    the same mapping. *)
Theorem encode_sorted_codes (df : Table) (X : DataFrame) (y : Series)
        (mapping : list (label * nat)) :
  Forall (fun x => isnull_label x = false) (target df) ->
  _encode df = Ok (X, y, mapping) ->
  exists classes : list string,
    StronglySorted str_lt classes /\
    (forall s, s ∈ classes <-> Some s ∈ target df) /\
    mapping = zip (Some <$> classes) (seq 0 (length classes)) /\
    Forall2 (fun lab code => classes !! code = lab) (target df) (values y) /\
    (forall (df2 : Table) X2 y2 mapping2,
        target df2 ≡ₚ target df ->
        _encode df2 = Ok (X2, y2, mapping2) -> mapping2 = mapping).
Proof.
  intros Hclean He.
  pose proof (encode_inv _ _ _ _ He) as (_ & _ & _ & Hy & _ & Hm).
  simpl in Hy, Hm.
  pose proof (unique_python_cleaned _ Hclean) as Hu.
  exists (sorted_set (omap id (target df))).
  split; [apply sorted_set_sorted|]. split; [|split; [|split]].
  - intros s. rewrite sorted_set_elem, list_elem_of_omap. split.
    + intros (x & Hx & Hs). simpl in Hs. by subst.
    + intros Hs. by exists (Some s).
  - rewrite Hm, Hu. by rewrite length_fmap.
  - rewrite Hy. apply Forall2_fmap_r, Forall_Forall2_diag, Forall_forall.
    intros lab Hlab.
    pose proof (code_in_lookup (_unique_python (target df)) lab
                  (unique_python_NoDup _)
                  (proj2 (unique_python_elem _ _) Hlab)) as Hl.
    rewrite Hu in Hl at 2. rewrite list_lookup_fmap in Hl. simpl.
    destruct (sorted_set (omap id (target df)) !! _) as [s|]; simpl in Hl;
      [|done].
    by injection Hl as <-.
  - intros df2 X2 y2 mapping2 Hp He2.
    pose proof (encode_inv _ _ _ _ He2) as (_ & _ & _ & _ & _ & ->).
    simpl. by rewrite Hm, (unique_python_perm _ _ Hp).
Qed.

Lemma encode_sorted_codes_witness :
  Forall (fun x => isnull_label x = false) (target sample_labelled) /\
  _encode sample_labelled = Ok (sample_X, sample_y, sample_mapping) /\
  exists classes : list string,
    StronglySorted str_lt classes /\
    (forall s, s ∈ classes <-> Some s ∈ target sample_labelled) /\
    sample_mapping = zip (Some <$> classes) (seq 0 (length classes)) /\
    Forall2 (fun lab code => classes !! code = lab)
            (target sample_labelled) (values sample_y) /\
    (forall (df2 : Table) X2 y2 mapping2,
        target df2 ≡ₚ target sample_labelled ->
        _encode df2 = Ok (X2, y2, mapping2) -> mapping2 = sample_mapping).
Proof.
  assert (Forall (fun x => isnull_label x = false) (target sample_labelled))
    as Hclean by (repeat constructor).
  assert (_encode sample_labelled = Ok (sample_X, sample_y, sample_mapping))
    as He by (vm_compute; reflexivity).
  split; [exact Hclean|]. split; [exact He|].
  exact (encode_sorted_codes sample_labelled sample_X sample_y sample_mapping
           Hclean He).
Defined.

(** C4: reading every output code back through the returned mapping gives
    the original label of that row, so the decoded codes are the original
    labels with their multiplicities, and the mapping is one-to-one: no label
    and no code occurs twice in it. *)
Theorem encode_invertible (df : Table) (X : DataFrame) (y : Series)
        (mapping : list (label * nat)) :
  _encode df = Ok (X, y, mapping) ->
  decode mapping <$> values y = Some <$> target df /\
  omap (decode mapping) (values y) ≡ₚ target df /\
  NoDup mapping.*1 /\ NoDup mapping.*2.
Proof.
  intros He.
  pose proof (encode_inv _ _ _ _ He) as (_ & _ & _ & Hy & _ & Hm).
  simpl in Hy, Hm. set (u := _unique_python (target df)) in *.
  assert (decode mapping <$> values y = Some <$> target df) as Hdec.
  { rewrite Hy, Hm, <- list_fmap_compose. apply list_fmap_ext.
    intros _ lab Hlab%list_elem_of_lookup_2. simpl.
    apply decode_zip, code_in_lookup; [apply unique_python_NoDup|].
    by apply unique_python_elem. }
  split; [done|]. split; [by rewrite (omap_of_fmap_Some _ _ _ Hdec)|].
  rewrite Hm. rewrite fst_zip, snd_zip by (rewrite length_seq; lia).
  split; [apply unique_python_NoDup|apply NoDup_seq].
Qed.

Lemma encode_invertible_witness :
  _encode sample_labelled = Ok (sample_X, sample_y, sample_mapping) /\
  decode sample_mapping <$> values sample_y = Some <$> target sample_labelled /\
  omap (decode sample_mapping) (values sample_y) ≡ₚ target sample_labelled /\
  NoDup sample_mapping.*1 /\ NoDup sample_mapping.*2.
Proof.
  assert (_encode sample_labelled = Ok (sample_X, sample_y, sample_mapping))
    as He by (vm_compute; reflexivity).
  split; [exact He|].
  exact (encode_invertible sample_labelled sample_X sample_y sample_mapping He).
Defined.

(** ** Programs *)

Lemma run_bind {W} `{OS W} {A B} (m : io A) (f : A -> io B) (w : W) :
  run (m ≫= f) w =
  match run m w with
  | (Ok a, w', evs) =>
      let '(r, w'', evs') := run (f a) w' in (r, w'', evs ++ evs')
  | (Raise e, w', evs) => (Raise e, w', evs)
  end.
Proof.
  revert w. induction m as [a|e|c k IH]; intros w; simpl.
  - change (Return a ≫= f) with (f a). by destruct (run (f a) w) as [[r w'] evs].
  - done.
  - change (Do c k ≫= f) with (Do c (fun r => k r ≫= f)). simpl.
    destruct (os_step c w) as [r w1]. rewrite IH.
    destruct (run (k r) w1) as [[[a|e] w2] evs]; [|done].
    by destruct (run (f a) w2) as [[r' w3] evs'].
Qed.

(** ** The Reader *)

(** C8 (as amended): when loading the resolved path raises
    FileNotFoundError, the Reader does not raise; it returns the empty
    frame, which has no rows and no columns. *)
Theorem extract_data_file_not_found {W} `{OS W} (w w1 w2 : W)
        (fileName p : string) :
  os_step (os_path_abspath (os_path_join "data" fileName)) w = (Ok p, w1) ->
  os_step (pd_read_csv p) w1 = (Raise FileNotFoundError, w2) ->
  (run (extract_data fileName) w).1.1 = Ok empty_frame /\
  shape empty_frame = (0, 0).
Proof.
  intros Habs Hread. split; [|done].
  unfold extract_data. rewrite run_bind. simpl.
  rewrite Habs. simpl. by rewrite Hread.
Qed.

Lemma extract_data_file_not_found_witness :
  os_step (os_path_abspath (os_path_join "data" "raw_data.csv"))
          (∅ : gmap string node)
  = (Ok "/srv/data/raw_data.csv", ∅) /\
  os_step (pd_read_csv "/srv/data/raw_data.csv") (∅ : gmap string node)
  = (Raise FileNotFoundError, ∅) /\
  (run (extract_data "raw_data.csv") (∅ : gmap string node)).1.1
  = Ok empty_frame /\
  shape empty_frame = (0, 0).
Proof.
  split; [reflexivity|]. split; [reflexivity|].
  apply (extract_data_file_not_found (∅ : gmap string node) ∅ ∅
           "raw_data.csv" "/srv/data/raw_data.csv"); reflexivity.
Defined.

(** C8 (as stated) fails: a path at which there is no file need not make the
    load raise FileNotFoundError.  On [directory_disk] the resolved path is
    that of a directory: no file is at the path, the load raises
    IsADirectoryError, and the Reader raises it too instead of returning the
    empty frame. *)
Lemma extract_data_directory_not_sentinel :
  os_step (os_path_abspath (os_path_join "data" "raw_data.csv")) directory_disk
  = (Ok "/srv/data/raw_data.csv", directory_disk) /\
  (forall df, directory_disk !! "/srv/data/raw_data.csv" <> Some (CsvFile df)) /\
  os_step (pd_read_csv "/srv/data/raw_data.csv") directory_disk
  = (Raise IsADirectoryError, directory_disk) /\
  (run (extract_data "raw_data.csv") directory_disk).1.1
  = Raise IsADirectoryError /\
  (run (extract_data "raw_data.csv") directory_disk).1.1 <> Ok empty_frame.
Proof.
  split; [reflexivity|]. split; [intros df; vm_compute; discriminate|].
  split; [reflexivity|]. split; [reflexivity|]. vm_compute. discriminate.
Qed.

(** Any other failure of the load is not caught. *)
Lemma extract_data_other_error {W} `{OS W} (w w1 w2 : W)
      (fileName p : string) (e : exn) :
  os_step (os_path_abspath (os_path_join "data" fileName)) w = (Ok p, w1) ->
  os_step (pd_read_csv p) w1 = (Raise e, w2) ->
  e <> FileNotFoundError ->
  (run (extract_data fileName) w).1.1 = Raise e.
Proof.
  intros Habs Hread Hne. unfold extract_data. rewrite run_bind. simpl.
  rewrite Habs. simpl. rewrite Hread. by destruct e.
Qed.

(** ** The Writer *)

(** C2 (as amended): the first thing the Writer does is ask for the output
    directory to be created, parents included, an existing directory being
    accepted; when that call raises an OSError, the Writer makes no further
    call, writes no file and returns normally: the failure does not reach
    the caller. *)
Theorem load_data_makedirs_failure {W} `{OS W} (w w' : W)
        (dfs_dict : list (string * partition) * list (label * nat))
        (path : string) (e : exn) :
  os_step (os_makedirs path true) w = (Raise e, w') ->
  is_OSError e = true ->
  head (run (load_data dfs_dict path) w).2 = Some (os_makedirs path true) /\
  run (load_data dfs_dict path) w = (Ok tt, w', [os_makedirs path true]).
Proof.
  intros Hmk He. unfold load_data. simpl. rewrite Hmk. simpl.
  by rewrite He.
Qed.

Lemma load_data_makedirs_failure_witness :
  os_step (os_makedirs "/srv/data/processed" true) Locked
  = (Raise PermissionError, Locked) /\
  is_OSError PermissionError = true /\
  head (run (load_data (sample_split, sample_split_mapping)
                       "/srv/data/processed") Locked).2
  = Some (os_makedirs "/srv/data/processed" true) /\
  run (load_data (sample_split, sample_split_mapping) "/srv/data/processed")
      Locked
  = (Ok tt, Locked, [os_makedirs "/srv/data/processed" true]).
Proof.
  split; [reflexivity|]. split; [reflexivity|].
  apply (load_data_makedirs_failure Locked Locked
           (sample_split, sample_split_mapping) "/srv/data/processed"
           PermissionError); reflexivity.
Defined.

(** C2 (as stated) fails: on a file system that denies the creation of the
    directory with PermissionError the Writer returns normally instead of
    failing. *)
Lemma load_data_swallows_permission_error :
  os_step (os_makedirs "/srv/data/processed" true) Locked
  = (Raise PermissionError, Locked) /\
  (run (load_data (sample_split, sample_split_mapping) "/srv/data/processed")
       Locked).1.1 = Ok tt /\
  ~ exists e : exn,
      (run (load_data (sample_split, sample_split_mapping)
                      "/srv/data/processed") Locked).1.1 = Raise e.
Proof.
  split; [reflexivity|]. split; [reflexivity|]. intros [e He]. discriminate.
Qed.

(** ** Row selection *)

Lemma take_rows_length {A} (idx : list nat) (v v' : list A) :
  take_rows idx v = Ok v' -> length v' = length idx.
Proof. apply traverse_ok_length. Qed.

Lemma iloc_series_inv (y y' : Series) (idx : list nat) :
  iloc_series y idx = Ok y' ->
  name y' = name y /\
  take_rows idx (s_index y) = Ok (s_index y') /\
  take_rows idx (values y) = Ok (values y').
Proof.
  unfold iloc_series.
  destruct (take_rows idx (s_index y)) as [rows|]; simpl; [|done].
  destruct (take_rows idx (values y)) as [vals|]; simpl; [|done].
  by intros [= <-].
Qed.

Lemma iloc_inv (X X' : DataFrame) (idx : list nat) :
  iloc X idx = Ok X' ->
  take_rows idx (index X) = Ok (index X') /\
  column_names X' = column_names X /\
  Forall (fun c => col_length c.2 = length idx) (columns X').
Proof.
  unfold iloc.
  destruct (take_rows idx (index X)) as [rows|]; simpl; [|done].
  destruct (traverse _ (columns X)) as [cols|] eqn:Hc; simpl; [|done].
  intros [= <-]. simpl. split; [done|].
  apply traverse_ok_inv in Hc. unfold column_names.
  induction Hc as [|c c' l l' Hcc' Hl [IH1 IH2]]; simpl; [done|].
  destruct (take_col idx c.2) as [v|] eqn:Hv; simpl in Hcc'; [|done].
  injection Hcc' as <-. simpl. split; [by f_equal|].
  constructor; [|done]. simpl. unfold take_col in Hv.
  destruct c.2 as [col|col].
  - destruct (take_rows idx col) as [r|] eqn:Hr; simpl in Hv; [|done].
    injection Hv as <-. simpl. by eapply take_rows_length.
  - destruct (take_rows idx col) as [r|] eqn:Hr; simpl in Hv; [|done].
    injection Hv as <-. simpl. by eapply take_rows_length.
Qed.

(** ** numpy helpers *)

Lemma insert_nat_elem (x y : nat) (l : list nat) :
  y ∈ insert_nat x l <-> y = x \/ y ∈ l.
Proof.
  induction l as [|z l IH]; simpl.
  - rewrite list_elem_of_singleton. set_solver.
  - destruct (Nat.compare_spec x z) as [->|Hlt|Hgt].
    + set_solver.
    + set_solver.
    + rewrite !elem_of_cons, IH. tauto.
Qed.

Lemma np_unique_elem (y : nat) (a : list nat) : y ∈ np_unique a <-> y ∈ a.
Proof.
  induction a as [|x a IH]; simpl; [done|].
  rewrite insert_nat_elem, IH. set_solver.
Qed.

Lemma insert_nat_sorted (x : nat) (l : list nat) :
  StronglySorted lt l -> StronglySorted lt (insert_nat x l).
Proof.
  induction 1 as [|z l Hs IH Hz]; simpl.
  - repeat constructor.
  - destruct (Nat.compare_spec x z) as [->|Hlt|Hgt].
    + by constructor.
    + constructor; [by constructor|]. constructor; [done|].
      eapply Forall_impl; [exact Hz|]. simpl. lia.
    + constructor; [done|]. apply Forall_forall. intros w Hw.
      apply insert_nat_elem in Hw as [->|Hw]; [done|].
      rewrite Forall_forall in Hz. by apply Hz.
Qed.

Lemma np_unique_sorted (a : list nat) : StronglySorted lt (np_unique a).
Proof. induction a; simpl; [constructor|]. by apply insert_nat_sorted. Qed.

Lemma sorted_lt_NoDup (l : list nat) : StronglySorted lt l -> NoDup l.
Proof.
  induction 1 as [|x l Hs IH Hx]; constructor; [|done].
  intros Hin. rewrite Forall_forall in Hx. apply Hx in Hin. lia.
Qed.

Lemma np_unique_NoDup (a : list nat) : NoDup (np_unique a).
Proof. apply sorted_lt_NoDup, np_unique_sorted. Qed.

Lemma index_of_lt (x : nat) (l : list nat) : x ∈ l -> index_of x l < length l.
Proof.
  induction l as [|y l IH]; simpl; [set_solver|].
  intros Hx. destruct (decide (x = y)); [lia|].
  apply elem_of_cons in Hx as [?|Hx]; [done|]. specialize (IH Hx). lia.
Qed.

Lemma index_of_lookup (x : nat) (l : list nat) :
  x ∈ l -> l !! index_of x l = Some x.
Proof.
  induction l as [|y l IH]; simpl; [set_solver|].
  intros Hx. destruct (decide (x = y)) as [->|Hne]; [done|].
  apply elem_of_cons in Hx as [?|Hx]; [done|]. by apply IH.
Qed.

Lemma index_of_inj (x y : nat) (l : list nat) :
  x ∈ l -> y ∈ l -> index_of x l = index_of y l -> x = y.
Proof.
  intros Hx Hy Heq. apply index_of_lookup in Hx, Hy.
  rewrite Heq in Hx. congruence.
Qed.

Lemma count_nat_map_inj (f : nat -> nat) (c : nat) (a : list nat) :
  (forall v, v ∈ a -> f v = f c -> v = c) ->
  count_nat (f c) (map f a) = count_nat c a.
Proof.
  unfold count_nat. induction a as [|x a IH]; intros Hinj; simpl; [done|].
  rewrite !filter_cons.
  destruct (decide (f x = f c)) as [Hfx|Hfx], (decide (x = c)) as [Hx|Hx];
    simpl; try (rewrite IH by set_solver; done).
  - exfalso. apply Hx, Hinj; [set_solver|done].
  - exfalso. apply Hfx. by rewrite Hx.
Qed.

Lemma count_nat_pos (c : nat) (a : list nat) : 0 < count_nat c a <-> c ∈ a.
Proof.
  unfold count_nat. induction a as [|x a IH]; simpl.
  - split; [lia|set_solver].
  - rewrite filter_cons. destruct (decide (x = c)) as [->|Hx]; simpl.
    + split; [set_solver|lia].
    + rewrite IH. set_solver.
Qed.

Lemma foldr_min_le (d x : nat) (l : list nat) :
  x ∈ l -> foldr Nat.min d l <= x.
Proof.
  induction l as [|y l IH]; simpl; [set_solver|].
  intros [->|Hx]%elem_of_cons; [lia|]. specialize (IH Hx). lia.
Qed.

Lemma np_min_le (x : nat) (l : list nat) : x ∈ l -> np_min l <= x.
Proof. apply foldr_min_le. Qed.

Lemma list_max_ge (x : nat) (l : list nat) : x ∈ l -> x <= foldr Nat.max 0 l.
Proof.
  induction l as [|y l IH]; simpl; [set_solver|].
  intros [->|Hx]%elem_of_cons; [lia|]. specialize (IH Hx). lia.
Qed.

Lemma bincount_elem (i : nat) (a : list nat) :
  i ∈ a -> count_nat i a ∈ bincount a.
Proof.
  intros Hi. unfold bincount. destruct a as [|x a]; [set_solver|].
  apply list_elem_of_fmap. exists i. split; [done|].
  apply elem_of_seq. pose proof (list_max_ge i (x :: a) Hi). simpl in *. lia.
Qed.

(** A value that occurs once in [y] is a class with one member. *)
Lemma singleton_class_count (c : nat) (y : list nat) :
  count_nat c y = 1 -> np_min (bincount (np_unique_inverse y)) < 2.
Proof.
  intros Hc.
  assert (c ∈ y) as Hin by (apply count_nat_pos; lia).
  set (u := np_unique y).
  assert (count_nat (index_of c u) (np_unique_inverse y) = 1) as Hcount.
  { unfold np_unique_inverse. fold u.
    rewrite (count_nat_map_inj (fun v => index_of v u)); [done|].
    intros v Hv. apply index_of_inj; by apply np_unique_elem. }
  assert (index_of c u ∈ np_unique_inverse y) as Hi.
  { apply count_nat_pos. lia. }
  pose proof (np_min_le _ _ (bincount_elem _ _ Hi)). lia.
Qed.

(** ** The Splitter *)

Lemma validate_raises_ValueError (n : nat) (a : size_arg) (b : option size_arg)
      (e : exn) :
  _validate_shuffle_split n a b = Raise e -> e = ValueError.
Proof.
  unfold _validate_shuffle_split.
  repeat match goal with
         | |- (if ?c then _ else _) = _ -> _ => destruct c
         end; congruence.
Qed.

Lemma filter_none {A} (P : A -> Prop) `{forall x, Decision (P x)} (l : list A) :
  Forall (fun x => ~ P x) l -> filter P l = [].
Proof.
  induction 1 as [|x l Hx Hl IH]; [done|].
  rewrite filter_cons, decide_False by done. done.
Qed.

(** [_clean] leaves a table it has produced as it is. *)
Lemma clean_idempotent (df cleaned : Table) :
  _clean df = Ok cleaned -> _clean cleaned = Ok cleaned.
Proof.
  intros Hc. pose proof (clean_finite _ _ Hc) as Hfin.
  apply clean_no_missing in Hc as (Hsym & Htgt & Hcells).
  unfold _clean.
  assert (filter (fun c : string * nat => 0 < c.2) (missing_counts cleaned) = [])
    as ->.
  { apply filter_none. apply Forall_forall. intros [n k] Hk. simpl.
    unfold missing_counts in Hk. apply elem_of_app in Hk as [Hk|Hk].
    - apply list_elem_of_fmap in Hk as (c & [= -> ->] & Hin).
      rewrite Forall_forall in Hsym.
      pose proof (proj2 (count_true_zero _ _) (Hsym c Hin)). lia.
    - apply list_elem_of_singleton in Hk as [= -> ->].
      pose proof (proj2 (count_true_zero _ _) Htgt). lia. }
  simpl.
  assert (astype_int (symptoms cleaned) = Ok (symptoms cleaned)) as ->.
  { unfold astype_int. rewrite Hcells.
    erewrite traverse_ok_map; [by rewrite list_fmap_id|].
    intros c Hc. apply list_elem_of_fmap in Hc as (c0 & -> & Hc0). simpl.
    erewrite traverse_ok_map; [by rewrite list_fmap_id|].
    intros x Hx. apply list_elem_of_fmap in Hx as (x0 & -> & Hx0).
    unfold finite_features in Hfin. rewrite Forall_forall in Hfin.
    specialize (Hfin c0 Hc0). rewrite Forall_forall in Hfin.
    specialize (Hfin x0 Hx0). by destruct x0. }
  simpl. by destruct cleaned.
Qed.

Section SplitterProperties.
Context {S : Type} `{BitGenerator S}.

Lemma iter_indices_raises_ValueError (n : nat) (y : list nat)
      (n_test n_train : nat) (rng rng' : S) (e : exn) :
  _iter_indices n y n_test n_train rng = (Raise e, rng') -> e = ValueError.
Proof.
  unfold _iter_indices.
  destruct (_validate_shuffle_split _ _ _) as [[a b]|e'] eqn:Hv.
  - repeat case_bool_decide; try (intros [= <-]; done).
    destruct (_approximate_mode _ _ _) as [n_i r1].
    destruct (_approximate_mode _ _ r1) as [t_i r2].
    destruct (draw_classes _ _ _ _ _ _ _ _) as [[train test] r3].
    destruct (permutation train r3) as [train' r4].
    destruct (permutation test r4) as [test' r5]. done.
  - intros [= <- _]. by apply validate_raises_ValueError in Hv.
Qed.

(** With a seed the split neither reads nor changes the shared generator. *)
Lemma train_test_split_seeded (X : DataFrame) (y : Series) (seed : Z)
      (g g' : S) :
  train_test_split X y (Some seed) g
  = ((train_test_split X y (Some seed) g').1, g).
Proof.
  unfold train_test_split. simpl.
  destruct (negb _); [done|].
  destruct (_validate_shuffle_split _ _ _) as [[n_train n_test]|e]; [|done].
  by destruct (_iter_indices _ _ _ _ _) as [r rng].
Qed.

Lemma split_seeded (X : DataFrame) (y : Series) (g g' : S) :
  _split X y g = ((_split X y g').1, g).
Proof.
  unfold _split. rewrite (train_test_split_seeded X y 42 g g').
  by destruct (train_test_split X y (Some 42%Z) g') as [r g''].
Qed.

(** C9: the transform stage is a function of the table alone.  Its result
    does not depend on the state of the generator shared through
    [np.random], which it leaves as it found it, and a run on a table that an
    earlier run has already cleaned in place gives the same partitions and
    the same mapping. *)
Theorem transform_deterministic (df : Table) (g1 g2 : S) :
  (transform_data df g1).1 = (transform_data df g2).1 /\
  (transform_data df g1).2 = g1 /\
  (forall cleaned : Table,
      _clean df = Ok cleaned ->
      (transform_data cleaned g2).1 = (transform_data df g1).1).
Proof.
  assert (forall (t : Table) g g',
             transform_data t g = ((transform_data t g').1, g)) as Hseed.
  { intros t g g'. unfold transform_data.
    destruct (_clean t) as [cleaned|e]; [|done].
    destruct (_encode cleaned) as [[[X y] m]|e]; [|done].
    rewrite (split_seeded X y g g').
    by destruct (_split X y g') as [r g'']. }
  split; [by rewrite (Hseed df g1 g2)|]. split; [by rewrite (Hseed df g1 g2)|].
  intros cleaned Hc. rewrite (Hseed df g1 g2).
  simpl. unfold transform_data.
  by rewrite Hc, (clean_idempotent _ _ Hc).
Qed.

(** What [_split] returns, whenever it returns. *)
Lemma split_inv (X : DataFrame) (y : Series) (g : S)
      (parts : list (string * partition)) :
  (_split X y g).1 = Ok parts ->
  exists X_train X_test y_train y_test train test n_train n_test rng rng',
    parts = [("X_train", Frame X_train); ("X_test", Frame X_test);
             ("y_train", Labels y_train); ("y_test", Labels y_test)] /\
    length (values y) = length (index X) /\
    _validate_shuffle_split (length (index X)) (Fraction (1 # 5)) None
    = Ok (n_train, n_test) /\
    _iter_indices (length (index X)) (values y) n_test n_train rng
    = (Ok (train, test), rng') /\
    iloc X train = Ok X_train /\ iloc X test = Ok X_test /\
    iloc_series y train = Ok y_train /\ iloc_series y test = Ok y_test.
Proof.
  unfold _split, train_test_split.
  case_bool_decide as Hlen; simpl; [|done].
  destruct (_validate_shuffle_split _ _ _) as [[n_train n_test]|e] eqn:Hv;
    [|done].
  destruct (_iter_indices _ _ _ _ _) as [[[train test]|e] rng'] eqn:Hit;
    simpl; [|done].
  destruct (iloc X train) as [X_train|] eqn:H1; simpl; [|done].
  destruct (iloc X test) as [X_test|] eqn:H2; simpl; [|done].
  destruct (iloc_series y train) as [y_train|] eqn:H3; simpl; [|done].
  destruct (iloc_series y test) as [y_test|] eqn:H4; simpl; [|done].
  intros [= <-].
  exists X_train, X_test, y_train, y_test, train, test, n_train, n_test.
  eexists _, rng'. repeat split; done.
Qed.

(** C1 (as amended): when some label code occurs exactly once, the Splitter
    raises ValueError: the stratified split refuses a class with a single
    member, and no partition is returned. *)
Theorem split_singleton_raises (X : DataFrame) (y : Series) (g : S) (c : nat) :
  count_nat c (values y) = 1 ->
  (_split X y g).1 = Raise ValueError.
Proof.
  intros Hc. unfold _split, train_test_split.
  case_bool_decide as Hlen; simpl; [|done].
  destruct (_validate_shuffle_split _ _ _) as [[n_train n_test]|e] eqn:Hv.
  2:{ simpl. by rewrite (validate_raises_ValueError _ _ _ _ Hv). }
  destruct (_iter_indices _ _ _ _ _) as [[[train test]|e] rng'] eqn:Hit; simpl.
  - exfalso. revert Hit. unfold _iter_indices.
    destruct (_validate_shuffle_split _ (Count _) _) as [[a b]|e']; [|done].
    case_bool_decide; [done|].
    pose proof (singleton_class_count c (values y) Hc).
    rewrite bool_decide_eq_true_2 by done. done.
  - by rewrite (iter_indices_raises_ValueError _ _ _ _ _ _ _ Hit).
Qed.

End SplitterProperties.

Lemma split_singleton_raises_witness :
  count_nat 0 (values sample_fifty_y) = 1 /\
  (_split sample_fifty_X sample_fifty_y 0%N).1 = Raise ValueError.
Proof.
  split; [reflexivity|].
  apply (split_singleton_raises sample_fifty_X sample_fifty_y 0%N 0).
  reflexivity.
Defined.

(** C1 (as stated) fails: [sample_fifty] has fifty rows and the label "cold"
    occurs once; the Encoder hands [sample_fifty_X] and [sample_fifty_y] to
    the Splitter, and the Splitter raises. *)
Lemma split_singleton_not_handled :
  length (t_index sample_fifty) = 50 /\
  count_label "cold" (target sample_fifty) = 1 /\
  (exists mapping,
      _encode sample_fifty = Ok (sample_fifty_X, sample_fifty_y, mapping)) /\
  (_split sample_fifty_X sample_fifty_y 0%N).1 = Raise ValueError /\
  (transform_data sample_fifty 0%N).1 = Raise ValueError.
Proof.
  split; [reflexivity|]. split; [reflexivity|]. split; [|split].
  - eexists. vm_compute. reflexivity.
  - vm_compute. reflexivity.
  - vm_compute. reflexivity.
Qed.

(** ** What the Writer saves *)

Lemma append_inj_r (a b b' : string) : a +:+ b = a +:+ b' -> b = b'.
Proof. induction a as [|c a IH]; simpl; [done|]. intros [= Heq]. by apply IH. Qed.

Lemma os_path_join_inj (a b b' : string) :
  String.prefix "/" b = false -> String.prefix "/" b' = false ->
  os_path_join a b = os_path_join a b' -> b = b'.
Proof.
  unfold os_path_join. intros -> ->.
  destruct (_ || _).
  - apply append_inj_r.
  - intros Heq. apply append_inj_r in Heq. by apply (append_inj_r "/") in Heq.
Qed.

Lemma save_partitions_calls {W} `{OS W} (items : list (string * partition))
      (path : string) (w : W) (c : call) :
  c ∈ (run (save_partitions items path) w).2 ->
  exists key part,
    (key, part) ∈ items /\
    c = to_csv (frame_of_partition part) (os_path_join path (key +:+ ".csv"))
               false.
Proof.
  revert w. induction items as [|[key part] items IH]; intros w; simpl.
  - set_solver.
  - destruct (os_step _ w) as [[[]|e] w1] eqn:Hstep; simpl.
    + destruct (run (save_partitions items path) w1) as [[r w2] evs] eqn:Hrun.
      simpl. intros [->|Hc]%elem_of_cons.
      * exists key, part. split; [set_solver|]. by destruct part.
      * destruct (IH w1 ltac:(by rewrite Hrun)) as (k & p & Hin & ->).
        exists k, p. split; [set_solver|done].
    + intros ->%list_elem_of_singleton.
      exists key, part. split; [set_solver|]. by destruct part.
Qed.

Lemma load_data_calls {W} `{OS W}
      (dfs_dict : list (string * partition) * list (label * nat))
      (path : string) (w : W) (df : DataFrame) (p : string) (flag : bool) :
  to_csv df p flag ∈ (run (load_data dfs_dict path) w).2 ->
  exists key part,
    (key, part) ∈ dfs_dict.1 /\ df = frame_of_partition part /\
    p = os_path_join path (key +:+ ".csv").
Proof.
  unfold load_data. simpl.
  destruct (os_step (os_makedirs path true) w) as [[[]|e] w1]; simpl.
  - rewrite run_bind.
    destruct (run (save_partitions dfs_dict.1 path) w1) as [[[[]|e] w2] evs]
      eqn:Hsave; simpl.
    + destruct (os_step _ w2) as [[[]|e] w3]; simpl;
        intros [[=]|Hc]%elem_of_cons;
        apply elem_of_app in Hc as [Hc|Hc]; try set_solver;
        destruct (save_partitions_calls dfs_dict.1 path w1 (to_csv df p flag)
                    ltac:(by rewrite Hsave)) as (k & q & Hin & [= -> -> ->]);
        by exists k, q.
    + intros [[=]|Hc]%elem_of_cons.
      destruct (save_partitions_calls dfs_dict.1 path w1 (to_csv df p flag)
                  ltac:(by rewrite Hsave)) as (k & q & Hin & [= -> -> ->]).
      by exists k, q.
  - destruct (is_OSError e); simpl; set_solver.
Qed.

Section WriterProperties.
Context {S : Type} `{BitGenerator S}.

(** C10: the series the Encoder returns is named "target" whatever the
    label column of the table is called, and whenever the Writer saves the
    partitions made by the transform stage, the frames it writes to
    [y_train.csv] and [y_test.csv] have the single header "target". *)
Theorem labels_saved_under_target {W} `{OS W} (df : Table) (g : S)
        (split_df : list (string * partition)) (mapping : list (label * nat))
        (path : string) (w : W) (saved : DataFrame) (p : string) (flag : bool) :
  (transform_data df g).1 = Ok (split_df, mapping) ->
  to_csv saved p flag ∈ (run (load_data (split_df, mapping) path) w).2 ->
  p = os_path_join path "y_train.csv" \/ p = os_path_join path "y_test.csv" ->
  csv_header saved = ["target"] /\
  (forall cleaned X y m, _encode cleaned = Ok (X, y, m) -> name y = "target").
Proof.
  intros Ht Hcall Hp. split.
  2:{ intros cleaned X y m He. by apply encode_inv in He as (_ & ? & _). }
  unfold transform_data in Ht.
  destruct (_clean df) as [cleaned|]; [|done].
  destruct (_encode cleaned) as [[[X y] m]|] eqn:He; [|done].
  apply encode_inv in He as (_ & Hname & _).
  destruct (_split X y g) as [r g'] eqn:Hs. simpl in Ht.
  destruct r as [parts|]; simpl in Ht; [|done]. injection Ht as -> ->.
  destruct (split_inv X y g split_df ltac:(by rewrite Hs))
    as (X_train & X_test & y_train & y_test & train & test & ? & ? & ? & ?
        & -> & _ & _ & _ & _ & _ & Hy1 & Hy2).
  apply iloc_series_inv in Hy1 as (Hn1 & _), Hy2 as (Hn2 & _).
  apply load_data_calls in Hcall as (key & part & Hin & -> & ->). simpl in Hin.
  assert (forall k k', String.prefix "/" (k +:+ ".csv") = false ->
            String.prefix "/" k' = false ->
            os_path_join path (k +:+ ".csv") = os_path_join path k' ->
            k +:+ ".csv" = k') as Hinj.
  { intros k k' ? ?. by apply os_path_join_inj. }
  repeat (apply elem_of_cons in Hin as [[= -> ->]|Hin]);
    [| | | |set_solver]; simpl.
  - destruct Hp as [Hp|Hp]; by apply Hinj in Hp.
  - destruct Hp as [Hp|Hp]; by apply Hinj in Hp.
  - unfold csv_header, column_names. simpl. congruence.
  - unfold csv_header, column_names. simpl. congruence.
Qed.

End WriterProperties.

Lemma labels_saved_under_target_witness :
  (transform_data sample_ten 0%N).1 = Ok (sample_split, sample_split_mapping) /\
  to_csv (to_frame {| name := "target"; s_index := [4; 5]; values := [1; 0] |})
         "/srv/data/processed/y_test.csv" false
    ∈ (run (load_data (sample_split, sample_split_mapping)
                      "/srv/data/processed") (∅ : gmap string node)).2 /\
  csv_header
    (to_frame {| name := "target"; s_index := [4; 5]; values := [1; 0] |})
  = ["target"] /\
  (forall cleaned X y m, _encode cleaned = Ok (X, y, m) -> name y = "target").
Proof.
  assert ((transform_data sample_ten 0%N).1
          = Ok (sample_split, sample_split_mapping)) as Ht
      by (vm_compute; reflexivity).
  assert (to_csv (to_frame {| name := "target"; s_index := [4; 5];
                              values := [1; 0] |})
                 "/srv/data/processed/y_test.csv" false
            ∈ (run (load_data (sample_split, sample_split_mapping)
                              "/srv/data/processed")
                   (∅ : gmap string node)).2) as Hcall.
  { vm_compute. do 4 apply list_elem_of_further. apply list_elem_of_here. }
  split; [exact Ht|]. split; [exact Hcall|].
  apply (labels_saved_under_target sample_ten 0%N sample_split
           sample_split_mapping "/srv/data/processed" (∅ : gmap string node)
           _ "/srv/data/processed/y_test.csv" false Ht Hcall).
  right. reflexivity.
Defined.

(** ** Shuffling *)

Lemma length_swap {A} (i j : nat) (x : list A) : length (swap i j x) = length x.
Proof.
  unfold swap. destruct (x !! i), (x !! j); try done.
  by rewrite !length_insert.
Qed.

Lemma swap_perm {A} (i j : nat) (x : list A) :
  i < length x -> j < length x -> swap i j x ≡ₚ x.
Proof.
  intros Hi Hj. apply Permutation_inj. split; [apply length_swap|].
  exists (fun k => if decide (k = i) then j
                   else if decide (k = j) then i else k).
  split.
  - intros k1 k2. repeat case_decide; lia.
  - intros k. unfold swap.
    destruct (lookup_lt_is_Some_2 x i Hi) as [a Ha].
    destruct (lookup_lt_is_Some_2 x j Hj) as [b Hb].
    rewrite Ha, Hb, !list_lookup_insert, length_insert.
    repeat case_decide; subst; try done; lia.
Qed.

Section Shuffling.
Context {S : Type} `{BitGenerator S}.
Hypothesis Hbounded : bounded_draws.

Lemma shuffle_loop_perm {A} (i : nat) (x : list A) (s : S) :
  i < length x \/ i = 0 -> (shuffle_loop i x s).1 ≡ₚ x.
Proof.
  revert x s. induction i as [|i IH]; intros x s Hi; simpl; [done|].
  destruct Hi as [Hi|?]; [|done].
  pose proof (Hbounded (Datatypes.S i) s) as Hj.
  destruct (random_interval (Datatypes.S i) s) as [j s'] eqn:Hr. simpl in Hj.
  rewrite IH.
  - apply swap_perm; lia.
  - left. rewrite length_swap. lia.
Qed.

Lemma shuffle_perm {A} (x : list A) (s : S) : (shuffle x s).1 ≡ₚ x.
Proof.
  unfold shuffle. apply shuffle_loop_perm.
  destruct x; simpl; [by right|left; lia].
Qed.

Lemma permutation_length {A} (x : list A) (s : S) :
  length (permutation x s).1 = length x.
Proof. unfold permutation. by rewrite shuffle_perm. Qed.

Lemma permutation_n_perm (n : nat) (s : S) : (permutation_n n s).1 ≡ₚ seq 0 n.
Proof. apply shuffle_perm. Qed.

Lemma permutation_n_length (n : nat) (s : S) :
  length (permutation_n n s).1 = n.
Proof. by rewrite permutation_n_perm, length_seq. Qed.

(** A sample drawn without replacement: distinct members of the
    population, as many as were asked for. *)
Lemma choice_spec (a : list nat) (size : nat) (s : S) :
  NoDup a -> size <= length a ->
  NoDup (choice a size s).1 /\
  (forall x, x ∈ (choice a size s).1 -> x ∈ a) /\
  length (choice a size s).1 = size.
Proof.
  intros Hnd Hsize. unfold choice.
  pose proof (permutation_n_perm (length a) s) as Hperm.
  destruct (permutation_n (length a) s) as [perm s'] eqn:Hp. simpl in *.
  assert (forall i, i ∈ take size perm -> i < length a) as Hlt.
  { intros i Hi. apply elem_of_take in Hi as (k & Hk & _).
    apply list_elem_of_lookup_2 in Hk. rewrite Hperm in Hk.
    apply elem_of_seq in Hk. lia. }
  split; [|split].
  - apply NoDup_fmap_2_strong.
    + intros i j Hi Hj Heq. apply Hlt in Hi, Hj.
      destruct (lookup_lt_is_Some_2 a i Hi) as [u Hu].
      destruct (lookup_lt_is_Some_2 a j Hj) as [v Hv].
      rewrite (nth_lookup_Some _ _ _ _ Hu), (nth_lookup_Some _ _ _ _ Hv) in Heq.
      subst v. by eapply NoDup_alt.
    + eapply sublist_NoDup; [|apply sublist_take].
      rewrite Hperm. apply NoDup_seq.
  - intros x Hx. apply list_elem_of_fmap in Hx as (i & -> & Hi).
    apply Hlt in Hi. destruct (lookup_lt_is_Some_2 a i Hi) as [u Hu].
    rewrite (nth_lookup_Some _ _ _ _ Hu). by eapply list_elem_of_lookup_2.
  - rewrite length_map, length_take, Hperm, length_seq. lia.
Qed.

End Shuffling.

(** ** Incrementing selected positions *)

Lemma length_increment_at (inds a : list nat) :
  length (increment_at inds a) = length a.
Proof. apply length_imap. Qed.

Lemma increment_at_lookup (inds a : list nat) (i x : nat) :
  a !! i = Some x ->
  increment_at inds a !! i
  = Some (if bool_decide (i ∈ inds) then Datatypes.S x else x).
Proof.
  intros Hi. unfold increment_at. by rewrite list_lookup_imap, Hi.
Qed.

Lemma sum_imap_increment (inds a : list nat) (k : nat) :
  sum_nat (imap (fun i x => if bool_decide (k + i ∈ inds)
                            then Datatypes.S x else x) a)
  = sum_nat a + length (filter (fun i => i ∈ inds) (seq k (length a))).
Proof.
  revert k. induction a as [|x a IH]; intros k; simpl; [done|].
  rewrite filter_cons.
  rewrite (imap_ext _ (fun i x => if bool_decide (Datatypes.S k + i ∈ inds)
                                  then Datatypes.S x else x)).
  2:{ intros i y _. simpl. by replace (k + Datatypes.S i)
                                 with (Datatypes.S (k + i)) by lia. }
  rewrite IH. replace (k + 0) with k by lia.
  case_bool_decide; rewrite ?decide_True, ?decide_False by done; simpl; lia.
Qed.

Lemma sum_increment_at (inds a : list nat) :
  NoDup inds -> (forall i, i ∈ inds -> i < length a) ->
  sum_nat (increment_at inds a) = sum_nat a + length inds.
Proof.
  intros Hnd Hlt. unfold increment_at.
  pose proof (sum_imap_increment inds a 0) as Hs. simpl in Hs.
  rewrite Hs. f_equal.
  apply Permutation_length, NoDup_Permutation; [|done|].
  - apply NoDup_filter, NoDup_seq.
  - intros i. rewrite list_elem_of_filter, elem_of_seq. split; [tauto|].
    intros Hi. split; [done|]. specialize (Hlt i Hi). lia.
Qed.

(** ** Positions of a value *)

Lemma np_where_elem (a : list nat) (v i : nat) :
  i ∈ np_where a v <-> a !! i = Some v.
Proof.
  unfold np_where. rewrite list_elem_of_filter, elem_of_seq. split; [tauto|].
  intros Hi. split; [done|]. apply lookup_lt_Some in Hi. lia.
Qed.

Lemma np_where_NoDup (a : list nat) (v : nat) : NoDup (np_where a v).
Proof. apply NoDup_filter, NoDup_seq. Qed.

Lemma filter_ext_elem {A} (P Q : A -> Prop) `{forall x, Decision (P x)}
      `{forall x, Decision (Q x)} (l : list A) :
  (forall x, x ∈ l -> P x <-> Q x) -> filter P l = filter Q l.
Proof.
  induction l as [|x l IH]; intros Hpq; [done|].
  rewrite !filter_cons, IH by set_solver.
  destruct (decide (P x)) as [Hp|Hp].
  - rewrite decide_True; [done|]. apply Hpq; [set_solver|done].
  - rewrite decide_False; [done|]. intros Hq. apply Hp, Hpq; [set_solver|done].
Qed.

Lemma np_where_length (a : list nat) (v : nat) :
  length (np_where a v) = count_nat v a.
Proof.
  unfold np_where, count_nat. induction a as [|x a IH] using rev_ind; [done|].
  rewrite length_app. simpl. rewrite Nat.add_1_r, seq_S, !filter_app.
  rewrite !length_app, <- IH. simpl. f_equal.
  - f_equal. apply filter_ext_elem. intros i Hi.
    apply elem_of_seq in Hi. by rewrite lookup_app_l by lia.
  - rewrite !filter_cons, !filter_nil.
    rewrite list_lookup_middle by done.
    destruct (decide (x = v)) as [->|Hne].
    + by rewrite decide_True.
    + rewrite decide_False; [done|]. congruence.
Qed.

Lemma count_nat_cons (v x : nat) (r : list nat) :
  count_nat v (x :: r) = (if decide (x = v) then 1 else 0) + count_nat v r.
Proof.
  unfold count_nat. rewrite filter_cons. by destruct (decide (x = v)).
Qed.

Lemma sum_nat_add {A} (f g : A -> nat) (l : list A) :
  sum_nat (map (fun v => f v + g v) l) = sum_nat (map f l) + sum_nat (map g l).
Proof. induction l as [|v l IH]; simpl; [done|]. rewrite IH. lia. Qed.

Lemma sum_indicator (x : nat) (vals : list nat) :
  NoDup vals ->
  sum_nat (map (fun v => if decide (x = v) then 1 else 0) vals)
  = if decide (x ∈ vals) then 1 else 0.
Proof.
  induction 1 as [|v vals Hv Hnd IH]; simpl; [done|]. rewrite IH.
  destruct (decide (x = v)) as [->|Hne].
  - rewrite decide_False by done. rewrite decide_True by set_solver. done.
  - destruct (decide (x ∈ vals)).
    + rewrite decide_True by set_solver. done.
    + rewrite decide_False by set_solver. done.
Qed.

Lemma sum_counts_cover (vals r : list nat) :
  NoDup vals -> (forall x, x ∈ r -> x ∈ vals) ->
  sum_nat (map (fun v => count_nat v r) vals) = length r.
Proof.
  intros Hnd. induction r as [|x r IH]; intros Hcov.
  - clear. induction vals as [|v vals IHv]; simpl; [done|]. by rewrite IHv.
  - rewrite (map_ext _ _ (fun v => count_nat_cons v x r)).
    rewrite sum_nat_add, sum_indicator by done.
    rewrite decide_True by set_solver. rewrite IH by set_solver. done.
Qed.

(** ** [_approximate_mode] *)

Section ApproximateMode.
Context {S : Type} `{BitGenerator S}.
Hypothesis Hbounded : bounded_draws.

Lemma add_by_remainder_spec (vals r fl : list nat) (need : nat) (s : S) :
  length fl = length r -> NoDup vals ->
  need <= sum_nat (map (fun v => length (np_where r v)) vals) ->
  length (add_by_remainder vals r fl need s).1 = length fl /\
  sum_nat (add_by_remainder vals r fl need s).1 = sum_nat fl + need /\
  forall i a, fl !! i = Some a ->
    exists b, (add_by_remainder vals r fl need s).1 !! i = Some b /\
              (b = a \/ b = Datatypes.S a /\ exists v, v ∈ vals /\ r !! i = Some v).
Proof.
  revert fl need s. induction vals as [|v vals IH]; intros fl need s Hlen Hnd Hcap.
  - simpl in *. assert (need = 0) as -> by lia.
    split; [done|]. split; [lia|]. intros i a Ha. exists a. by split; [|left].
  - apply NoDup_cons in Hnd as [Hv Hnd]. simpl in Hcap. simpl.
    set (inds := np_where r v) in *.
    set (add_now := Nat.min (length inds) need).
    destruct (choice_spec Hbounded inds add_now s (np_where_NoDup r v)
                ltac:(unfold add_now; lia)) as (Hcd & Hcsub & Hclen).
    destruct (choice inds add_now s) as [chosen s1]. simpl in *.
    assert (forall i, i ∈ chosen -> r !! i = Some v) as Hcr.
    { intros i Hi. by apply np_where_elem, Hcsub. }
    assert (sum_nat (increment_at chosen fl) = sum_nat fl + add_now) as Hsum.
    { rewrite sum_increment_at, Hclen; [done|done|].
      intros i Hi. apply Hcr, lookup_lt_Some in Hi. lia. }
    assert (forall i a, fl !! i = Some a ->
              exists a1, increment_at chosen fl !! i = Some a1 /\
                         (a1 = a \/ a1 = Datatypes.S a /\ r !! i = Some v))
      as Hstep.
    { intros i a Ha. rewrite (increment_at_lookup _ _ _ _ Ha).
      eexists. split; [done|]. case_bool_decide; [right|left]; auto. }
    case_bool_decide as Hneed; simpl.
    + split; [apply length_increment_at|]. split; [lia|].
      intros i a Ha. destruct (Hstep i a Ha) as (a1 & Ha1 & [->|[-> Hr]]).
      * exists a. split; [done|by left].
      * exists (Datatypes.S a). split; [done|]. right. split; [done|].
        exists v. split; [set_solver|done].
    + destruct (IH (increment_at chosen fl) (need - add_now) s1)
        as (IHlen & IHsum & IHpt).
      * by rewrite length_increment_at.
      * done.
      * unfold add_now in *. lia.
      * split; [by rewrite IHlen, length_increment_at|]. split; [lia|].
        intros i a Ha. destruct (Hstep i a Ha) as (a1 & Ha1 & Hcase).
        destruct (IHpt i a1 Ha1) as (b & Hb & Hb').
        exists b. split; [done|].
        destruct Hcase as [->|[-> Hr]].
        -- destruct Hb' as [->|[-> (w & Hw & Hrw)]]; [by left|].
           right. split; [done|]. exists w. split; [set_solver|done].
        -- destruct Hb' as [->|[-> (w & Hw & Hrw)]].
           ++ right. split; [done|]. exists v. split; [set_solver|done].
           ++ rewrite Hr in Hrw. injection Hrw as <-. done.
Qed.

Lemma sum_nat_scale (cs : list nat) (n : nat) :
  sum_nat (map (fun c => c * n) cs) = sum_nat cs * n.
Proof. induction cs as [|c cs IH]; simpl; [done|]. rewrite IH. lia. Qed.

Lemma sum_nat_div_mod (xs : list nat) (T : nat) :
  0 < T ->
  sum_nat xs = T * sum_nat (map (fun x => x / T) xs)
               + sum_nat (map (fun x => x mod T) xs) /\
  sum_nat (map (fun x => x mod T) xs) <= length xs * (T - 1).
Proof.
  intros HT. induction xs as [|x xs [IH1 IH2]]; simpl; [lia|].
  pose proof (Nat.div_mod_eq x T). pose proof (Nat.mod_upper_bound x T). lia.
Qed.

(** The draws add up to [n_draws] and no class gets more than one above
    the floor of its share. *)
Lemma approximate_mode_spec (cs : list nat) (n : nat) (s : S) :
  0 < sum_nat cs -> n <= sum_nat cs ->
  length (_approximate_mode cs n s).1 = length cs /\
  sum_nat (_approximate_mode cs n s).1 = n /\
  forall i c, cs !! i = Some c ->
    exists x, (_approximate_mode cs n s).1 !! i = Some x /\
              x <= Datatypes.S (c * n / sum_nat cs).
Proof.
  intros HT Hn. unfold _approximate_mode.
  set (T := sum_nat cs) in *.
  set (floored := map (fun c => c * n / T) cs).
  set (remainder := map (fun c => (c * n) mod T) cs).
  destruct (sum_nat_div_mod (map (fun c => c * n) cs) T HT) as [Hdm Hrem].
  rewrite sum_nat_scale, !map_map, length_map in *.
  fold T floored remainder in Hdm, Hrem.
  assert (sum_nat floored <= n /\ n - sum_nat floored <= length cs)
    as [HF Hneed] by nia.
  assert (forall i c, cs !! i = Some c -> floored !! i = Some (c * n / T))
    as Hfl.
  { intros i c Hc. unfold floored.
    change (map ?f ?l) with (f <$> l). by rewrite list_lookup_fmap, Hc. }
  case_bool_decide as Hpos; simpl.
  - destruct (add_by_remainder_spec (rev (np_unique remainder)) remainder
                floored (n - sum_nat floored) s) as (Hlen & Hsum & Hpt).
    + unfold floored, remainder. by rewrite !length_map.
    + apply NoDup_ListNoDup, NoDup_rev, NoDup_ListNoDup, np_unique_NoDup.
    + rewrite (map_ext _ (fun v => count_nat v remainder))
        by (intros; apply np_where_length).
      rewrite sum_counts_cover.
      * unfold remainder. by rewrite length_map.
      * apply NoDup_ListNoDup, NoDup_rev, NoDup_ListNoDup, np_unique_NoDup.
      * intros x Hx. apply list_elem_of_In, in_rev, list_elem_of_In.
        rewrite rev_involutive. by apply np_unique_elem.
    + split; [by rewrite Hlen; unfold floored; rewrite length_map|].
      split; [lia|]. intros i c Hc.
      destruct (Hpt i _ (Hfl i c Hc)) as (b & Hb & Hcase).
      exists b. split; [done|]. destruct Hcase as [->|[-> _]]; lia.
  - split; [by unfold floored; rewrite length_map|]. split; [lia|].
    intros i c Hc. exists (c * n / T). split; [by apply Hfl|lia].
Qed.

(** Asked for as many draws as there are members, every class gives all
    its members; the generator is not consulted. *)
Lemma approximate_mode_exact (cs : list nat) (s : S) :
  0 < sum_nat cs -> _approximate_mode cs (sum_nat cs) s = (cs, s).
Proof.
  intros HT. unfold _approximate_mode.
  assert (map (fun c => c * sum_nat cs / sum_nat cs) cs = cs) as ->.
  { transitivity (map (fun c => c) cs); [|apply map_id].
    apply map_ext. intros c. apply Nat.div_mul. lia. }
  rewrite Nat.sub_diag. by rewrite bool_decide_eq_false_2 by lia.
Qed.

End ApproximateMode.

(** ** Class counts *)

Lemma sum_bincount (a : list nat) : sum_nat (bincount a) = length a.
Proof.
  unfold bincount. destruct a as [|x a]; [done|].
  apply sum_counts_cover; [apply NoDup_seq|].
  intros v Hv. apply elem_of_seq. pose proof (list_max_ge v _ Hv). lia.
Qed.

Lemma sum_zip_sub (cs ns : list nat) :
  Forall2 le ns cs -> sum_nat (zip_with Nat.sub cs ns) + sum_nat ns = sum_nat cs.
Proof. induction 1 as [|n c ns cs Hle Hf IH]; simpl; [done|]. lia. Qed.

Lemma validate_counts (n n_test n_train a b : nat) :
  _validate_shuffle_split n (Count n_test) (Some (Count n_train)) = Ok (a, b) ->
  a = n_train /\ b = n_test /\ n_test < n /\ n_train < n /\
  0 < n_test /\ 0 < n_train.
Proof.
  unfold _validate_shuffle_split. simpl.
  repeat case_bool_decide; simpl; try done.
  intros [= <- <-]. lia.
Qed.

Lemma validate_fraction (n a b : nat) :
  _validate_shuffle_split n (Fraction (1 # 5)) None = Ok (a, b) ->
  a = n - b /\ 0 < a.
Proof.
  unfold _validate_shuffle_split. simpl.
  repeat case_bool_decide; simpl; try done.
  intros [= <- <-]. lia.
Qed.

Section Completeness.
Context {S : Type} `{BitGenerator S}.
Hypothesis Hbounded : bounded_draws.

Lemma draw_classes_lengths (y_indices cs ns ts : list nat) (i : nat)
      (train test : list nat) (s : S) :
  Forall2 le ns cs -> ts = zip_with Nat.sub cs ns ->
  length (draw_classes y_indices cs ns ts i train test s).1.1
  = length train + sum_nat ns /\
  length (draw_classes y_indices cs ns ts i train test s).1.2
  = length test + sum_nat ts.
Proof.
  intros Hle. revert ts i train test s.
  induction Hle as [|n c ns cs Hnc Hle IH]; intros ts i train test s ->;
    simpl; [lia|].
  pose proof (permutation_n_length Hbounded c s) as Hlen.
  destruct (permutation_n c s) as [perm s1]. simpl in Hlen.
  destruct (IH (zip_with Nat.sub cs ns) (Datatypes.S i)
              (train ++ take n (take_clip (class_indices y_indices i) perm))
              (test ++ take (c - n)
                        (drop n (take_clip (class_indices y_indices i) perm)))
              s1 eq_refl) as [IH1 IH2].
  rewrite IH1, IH2, !length_app, !length_take, length_drop.
  unfold take_clip. rewrite !length_map, Hlen. lia.
Qed.

(** The two index arrays of the split have the requested sizes. *)
Lemma iter_indices_sizes (n : nat) (y : list nat) (n_test n_train : nat)
      (rng rng' : S) (train test : list nat) :
  length y = n -> n_train + n_test = n ->
  _iter_indices n y n_test n_train rng = (Ok (train, test), rng') ->
  length train = n_train /\ length test = n_test.
Proof.
  intros Hy Hsum. unfold _iter_indices.
  destruct (_validate_shuffle_split _ _ _) as [[a b]|e] eqn:Hv; [|done].
  apply validate_counts in Hv as (-> & -> & Hlt1 & Hlt2 & Hpos1 & Hpos2).
  set (cs := bincount (np_unique_inverse y)).
  assert (sum_nat cs = n) as Hcs.
  { unfold cs. rewrite sum_bincount. unfold np_unique_inverse.
    by rewrite length_map. }
  case_bool_decide as Hnil; [done|].
  case_bool_decide as Hmin; [done|].
  case_bool_decide as Hk1; [done|].
  case_bool_decide as Hk2; [done|].
  destruct (approximate_mode_spec Hbounded cs n_train rng)
    as (Hlen & Hsum_n & Hpt); [lia|lia|].
  destruct (_approximate_mode cs n_train rng) as [n_i r1]. simpl in *.
  assert (Forall2 le n_i cs) as Hle.
  { apply Forall2_same_length_lookup. split; [done|].
    intros i x c Hx Hc. destruct (Hpt i c Hc) as (x' & Hx' & Hbound).
    rewrite Hx in Hx'. injection Hx' as <-.
    assert (2 <= c) as Hc2.
    { pose proof (np_min_le c cs (list_elem_of_lookup_2 _ _ _ Hc)). lia. }
    assert (c * n_train / sum_nat cs < c); [|lia].
    apply Nat.Div0.div_lt_upper_bound. nia. }
  pose proof (sum_zip_sub cs n_i Hle) as Hrem.
  assert (sum_nat (zip_with Nat.sub cs n_i) = n_test) as Hrem' by lia.
  rewrite <- Hrem' at 1.
  rewrite approximate_mode_exact by lia.
  pose proof (draw_classes_lengths (np_unique_inverse y) cs n_i
                (zip_with Nat.sub cs n_i) 0 [] [] r1 Hle eq_refl) as [Ht1 Ht2].
  destruct (draw_classes _ _ _ _ _ _ _ _) as [[tr te] r3]. simpl in Ht1, Ht2.
  pose proof (permutation_length Hbounded tr r3) as Hp1.
  destruct (permutation tr r3) as [train' r4]. simpl in Hp1.
  pose proof (permutation_length Hbounded te r4) as Hp2.
  destruct (permutation te r4) as [test' r5]. simpl in Hp2.
  intros [= <- <- _]. lia.
Qed.

End Completeness.

Section SplitCompleteness.
Context {S : Type} `{BitGenerator S}.

(** C7: whenever the Splitter returns, with a generator whose draws stay
    within their bounds, the four partitions are the rows of [X] and of [y]
    at one list of train positions and one list of test positions; the train
    and test row counts add up to the row count of the input, the feature and
    label partitions of each side have the same number of rows, every column
    of a feature partition has that many cells, and when [X] and [y] carry
    the same row labels so do the two partitions of each side. *)
Theorem split_complete (X : DataFrame) (y : Series) (g : S)
        (parts : list (string * partition)) :
  bounded_draws ->
  (_split X y g).1 = Ok parts ->
  exists X_train X_test y_train y_test train test,
    parts = [("X_train", Frame X_train); ("X_test", Frame X_test);
             ("y_train", Labels y_train); ("y_test", Labels y_test)] /\
    iloc X train = Ok X_train /\ iloc_series y train = Ok y_train /\
    iloc X test = Ok X_test /\ iloc_series y test = Ok y_test /\
    length (index X_train) + length (index X_test) = length (index X) /\
    length (index X_train) = length (values y_train) /\
    length (index X_test) = length (values y_test) /\
    Forall (fun c => col_length c.2 = length (index X_train)) (columns X_train) /\
    Forall (fun c => col_length c.2 = length (index X_test)) (columns X_test) /\
    (s_index y = index X ->
     index X_train = s_index y_train /\ index X_test = s_index y_test).
Proof.
  intros Hb Hs.
  destruct (split_inv X y g parts Hs)
    as (X_train & X_test & y_train & y_test & train & test & n_train & n_test
        & rng & rng' & -> & Hlen & Hv & Hit & HX1 & HX2 & Hy1 & Hy2).
  apply validate_fraction in Hv as [Hn Hpos].
  pose proof Hit as Hit'. unfold _iter_indices in Hit'.
  destruct (_validate_shuffle_split _ (Count _) _) as [[a b]|e] eqn:Hv2;
    [|done].
  apply validate_counts in Hv2 as (_ & _ & Hlt & _). clear Hit'.
  assert (n_train + n_test = length (index X)) as Hadd by lia.
  destruct (iter_indices_sizes Hb _ _ _ _ _ _ _ _ Hlen Hadd Hit)
    as [Htr Hte].
  exists X_train, X_test, y_train, y_test, train, test.
  pose proof (iloc_inv _ _ _ HX1) as (Hi1 & _ & Hc1).
  pose proof (iloc_inv _ _ _ HX2) as (Hi2 & _ & Hc2).
  pose proof (iloc_series_inv _ _ _ Hy1) as (_ & Hs1 & Hv1).
  pose proof (iloc_series_inv _ _ _ Hy2) as (_ & Hs2 & Hv2).
  assert (s_index y = index X ->
          index X_train = s_index y_train /\ index X_test = s_index y_test)
    as Halign.
  { intros Heq. rewrite Heq in Hs1, Hs2. split; congruence. }
  apply take_rows_length in Hi1, Hi2, Hv1, Hv2.
  rewrite Hi1, Hi2, Hv1, Hv2.
  repeat split; try done; try lia; by apply Halign.
Qed.

End SplitCompleteness.

Lemma lcg_bounded : @bounded_draws N lcg.
Proof.
  intros m s. simpl.
  pose proof (N.mod_upper_bound (lcg_next s / 65536) (N.of_nat m + 1)). lia.
Qed.

Lemma split_complete_witness :
  @bounded_draws N lcg /\
  (_split sample_ten_X sample_ten_y 0%N).1 = Ok sample_split /\
  exists X_train X_test y_train y_test train test,
    sample_split = [("X_train", Frame X_train); ("X_test", Frame X_test);
                    ("y_train", Labels y_train); ("y_test", Labels y_test)] /\
    iloc sample_ten_X train = Ok X_train /\
    iloc_series sample_ten_y train = Ok y_train /\
    iloc sample_ten_X test = Ok X_test /\
    iloc_series sample_ten_y test = Ok y_test /\
    length (index X_train) + length (index X_test)
    = length (index sample_ten_X) /\
    length (index X_train) = length (values y_train) /\
    length (index X_test) = length (values y_test) /\
    Forall (fun c => col_length c.2 = length (index X_train)) (columns X_train) /\
    Forall (fun c => col_length c.2 = length (index X_test)) (columns X_test) /\
    (s_index sample_ten_y = index sample_ten_X ->
     index X_train = s_index y_train /\ index X_test = s_index y_test).
Proof.
  assert ((_split sample_ten_X sample_ten_y 0%N).1 = Ok sample_split) as Hs
      by (vm_compute; reflexivity).
  split; [exact lcg_bounded|]. split; [exact Hs|].
  exact (split_complete sample_ten_X sample_ten_y 0%N sample_split
           lcg_bounded Hs).
Defined.

(** * Further properties *)

(** ** Every row lands in one partition *)

Lemma take_clip_perm (a perm : list nat) :
  perm ≡ₚ seq 0 (length a) -> take_clip a perm ≡ₚ a.
Proof.
  intros Hp. unfold take_clip. change (map ?f perm) with (f <$> perm).
  rewrite Hp. apply reflexive_eq, list_eq. intros i.
  rewrite list_lookup_fmap. destruct (decide (i < length a)) as [Hi|Hi].
  - rewrite lookup_seq_lt by done. simpl.
    destruct (lookup_lt_is_Some_2 a i Hi) as [x Hx]. rewrite Hx. f_equal.
    apply nth_lookup_Some. by replace (Nat.min i (length a - 1)) with i by lia.
  - rewrite lookup_seq_ge by lia. simpl. symmetry. apply lookup_ge_None. lia.
Qed.

Lemma class_groups_perm (y_indices : list nat) (K : nat) :
  (forall v, v ∈ y_indices -> v < K) ->
  seq 0 K ≫= class_indices y_indices ≡ₚ seq 0 (length y_indices).
Proof.
  intros Hlt. apply NoDup_Permutation.
  - apply NoDup_bind; [|intros; apply np_where_NoDup|apply NoDup_seq].
    intros i j p _ _ Hi%np_where_elem Hj%np_where_elem. congruence.
  - apply NoDup_seq.
  - intros p. rewrite list_elem_of_bind, elem_of_seq. split.
    + intros (i & Hp%np_where_elem & _). apply lookup_lt_Some in Hp. lia.
    + intros [_ Hp]. destruct (lookup_lt_is_Some_2 y_indices p Hp) as [v Hv].
      exists v. split; [by apply np_where_elem|].
      apply elem_of_seq. pose proof (Hlt v (list_elem_of_lookup_2 _ _ _ Hv)).
      lia.
Qed.

Lemma bincount_lookup (a : list nat) (j c : nat) :
  bincount a !! j = Some c -> c = count_nat j a.
Proof.
  unfold bincount. destruct a as [|x a]; [done|].
  change (map ?f ?l) with (f <$> l). rewrite list_lookup_fmap.
  destruct (seq 0 _ !! j) as [k|] eqn:Hk; simpl; [|done].
  apply lookup_seq in Hk as [-> _]. by intros [= <-].
Qed.

Lemma bincount_bound (a : list nat) (v : nat) :
  v ∈ a -> v < length (bincount a).
Proof.
  intros Hv. unfold bincount. destruct a as [|x a]; [set_solver|].
  rewrite length_map, length_seq. pose proof (list_max_ge v _ Hv). lia.
Qed.

Section Partition.
Context {S : Type} `{BitGenerator S}.
Hypothesis Hbounded : bounded_draws.

Lemma draw_classes_perm (y_indices cs ns ts : list nat) (i : nat)
      (train test : list nat) (s : S) :
  Forall2 le ns cs -> ts = zip_with Nat.sub cs ns ->
  (forall j c, cs !! j = Some c ->
               length (class_indices y_indices (i + j)) = c) ->
  (draw_classes y_indices cs ns ts i train test s).1.1
  ++ (draw_classes y_indices cs ns ts i train test s).1.2
  ≡ₚ train ++ test ++ (seq i (length cs) ≫= class_indices y_indices).
Proof.
  intros Hle. revert ts i train test s.
  induction Hle as [|n c ns cs Hnc Hle IH]; intros ts i train test s -> Hcs.
  - simpl. by rewrite app_nil_r.
  - simpl.
    pose proof (permutation_n_perm Hbounded c s) as Hperm.
    pose proof (permutation_n_length Hbounded c s) as Hlen.
    destruct (permutation_n c s) as [perm s1]. simpl in Hperm, Hlen.
    pose proof (Hcs 0 c eq_refl) as Hc0. rewrite Nat.add_0_r in Hc0.
    set (P := take_clip (class_indices y_indices i) perm).
    assert (P ≡ₚ class_indices y_indices i) as HP.
    { apply take_clip_perm. by rewrite Hc0. }
    assert (length P = c) as HlenP.
    { unfold P, take_clip. by rewrite length_map. }
    rewrite IH; [|done|].
    2:{ intros j c' Hj. replace (Datatypes.S i + j) with (i + Datatypes.S j)
          by lia. by apply Hcs. }
    rewrite (take_ge (drop n P)) by (rewrite length_drop; lia).
    simpl. change (list_bind nat nat ?f ?l) with (l ≫= f).
    rewrite <- HP. rewrite <- (take_drop n P) at 3.
    generalize (seq (Datatypes.S i) (length cs) ≫= class_indices y_indices).
    intros R. generalize (take n P) (drop n P). intros t1 t2.
    solve_Permutation.
Qed.

(** The train and test positions together are the positions of all rows,
    each once. *)
Lemma iter_indices_partition (n : nat) (y : list nat) (n_test n_train : nat)
      (rng rng' : S) (train test : list nat) :
  length y = n -> n_train + n_test = n ->
  _iter_indices n y n_test n_train rng = (Ok (train, test), rng') ->
  train ++ test ≡ₚ seq 0 n.
Proof.
  intros Hy Hsum. unfold _iter_indices.
  destruct (_validate_shuffle_split _ _ _) as [[a b]|e] eqn:Hv; [|done].
  apply validate_counts in Hv as (-> & -> & Hlt1 & Hlt2 & Hpos1 & Hpos2).
  set (yi := np_unique_inverse y).
  set (cs := bincount yi).
  assert (length yi = n) as Hyi by (unfold yi, np_unique_inverse;
                                     by rewrite length_map).
  assert (sum_nat cs = n) as Hcs by (unfold cs; by rewrite sum_bincount).
  case_bool_decide as Hnil; [done|].
  case_bool_decide as Hmin; [done|].
  case_bool_decide as Hk1; [done|].
  case_bool_decide as Hk2; [done|].
  destruct (approximate_mode_spec Hbounded cs n_train rng)
    as (Hlen & Hsum_n & Hpt); [lia|lia|].
  destruct (_approximate_mode cs n_train rng) as [n_i r1]. simpl in *.
  assert (Forall2 le n_i cs) as Hle.
  { apply Forall2_same_length_lookup. split; [done|].
    intros i x c Hx Hc. destruct (Hpt i c Hc) as (x' & Hx' & Hbound).
    rewrite Hx in Hx'. injection Hx' as <-.
    assert (2 <= c) as Hc2.
    { pose proof (np_min_le c cs (list_elem_of_lookup_2 _ _ _ Hc)). lia. }
    assert (c * n_train / sum_nat cs < c); [|lia].
    apply Nat.Div0.div_lt_upper_bound. nia. }
  pose proof (sum_zip_sub cs n_i Hle) as Hrem.
  assert (sum_nat (zip_with Nat.sub cs n_i) = n_test) as Hrem' by lia.
  rewrite <- Hrem' at 1.
  rewrite approximate_mode_exact by lia.
  pose proof (draw_classes_perm yi cs n_i (zip_with Nat.sub cs n_i) 0 [] [] r1
                Hle eq_refl) as Hdraw.
  destruct (draw_classes _ _ _ _ _ _ _ _) as [[tr te] r3]. simpl in Hdraw.
  pose proof (shuffle_perm Hbounded tr r3) as Hp1.
  unfold permutation.
  destruct (shuffle tr r3) as [train' r4]. simpl in Hp1.
  pose proof (shuffle_perm Hbounded te r4) as Hp2.
  destruct (shuffle te r4) as [test' r5]. simpl in Hp2.
  intros [= <- <- _]. rewrite Hp1, Hp2, Hdraw.
  - rewrite class_groups_perm; [by rewrite Hyi|].
    intros v Hv. by apply bincount_bound.
  - intros j c Hc. simpl. apply bincount_lookup in Hc as ->.
    apply np_where_length.
Qed.

End Partition.

(** Selecting rows that are all present. *)
Lemma take_rows_omap {A} (idx : list nat) (v v' : list A) :
  take_rows idx v = Ok v' -> v' = omap (fun i => v !! i) idx.
Proof.
  intros Ht. apply traverse_ok_inv in Ht.
  induction Ht as [|i x idx v' Hix Hf IH]; simpl; [done|].
  destruct (v !! i) as [x'|]; [|done]. injection Hix as ->. by rewrite IH.
Qed.

Lemma take_rows_in_range {A} (idx : list nat) (v : list A) :
  Forall (fun i => i < length v) idx -> exists v', take_rows idx v = Ok v'.
Proof.
  induction 1 as [|i idx Hi Hf [v' IH]]; simpl; [by eexists|].
  destruct (lookup_lt_is_Some_2 v i Hi) as [x Hx].
  unfold take_rows in *. simpl. rewrite Hx. simpl. rewrite IH. simpl.
  by eexists.
Qed.

Lemma omap_lookup_seq {A} (v : list A) :
  omap (fun i => v !! i) (seq 0 (length v)) = v.
Proof.
  apply omap_of_fmap_Some, list_eq. intros i. rewrite !list_lookup_fmap.
  destruct (decide (i < length v)) as [Hi|Hi].
  - rewrite lookup_seq_lt by done. simpl.
    destruct (lookup_lt_is_Some_2 v i Hi) as [x Hx]. by rewrite Hx.
  - rewrite lookup_seq_ge by lia. simpl.
    by rewrite (proj2 (lookup_ge_None v i)) by lia.
Qed.

Lemma take_rows_partition {A} (train test : list nat) (v a b : list A) :
  train ++ test ≡ₚ seq 0 (length v) ->
  take_rows train v = Ok a -> take_rows test v = Ok b -> a ++ b ≡ₚ v.
Proof.
  intros Hp Ha%take_rows_omap Hb%take_rows_omap. subst.
  rewrite <- omap_app, Hp. by rewrite omap_lookup_seq.
Qed.

(** ** Sizes of the two partitions *)

Lemma ceil_fifth (n : nat) :
  Z.to_nat (Qceiling ((1 # 5) * inject_Z (Z.of_nat n))) = (n + 4) / 5.
Proof.
  unfold Qceiling, Qfloor, Qmult, Qopp, inject_Z. cbn [Qnum Qden].
  change (Z.pos (5 * 1)) with 5%Z.
  apply Nat2Z.inj. rewrite Nat2Z.inj_div, Z2Nat.id.
  - Z.div_mod_to_equations. lia.
  - Z.div_mod_to_equations. lia.
Qed.

Lemma validate_fraction_sizes (n a b : nat) :
  _validate_shuffle_split n (Fraction (1 # 5)) None = Ok (a, b) ->
  b = (n + 4) / 5 /\ a = n - (n + 4) / 5 /\ 2 <= n.
Proof.
  unfold _validate_shuffle_split. simpl. rewrite ceil_fifth.
  repeat case_bool_decide; simpl; try done.
  intros [= <- <-]. repeat split; try done.
  destruct n as [|[|n]]; simpl in *; try done. lia.
Qed.

Lemma traverse_exists {A B} (f : A -> result B) (l : list A) :
  (forall x, x ∈ l -> exists y, f x = Ok y) -> exists l', traverse f l = Ok l'.
Proof.
  induction l as [|x l IH]; intros Hf; simpl; [by eexists|].
  destruct (Hf x ltac:(set_solver)) as [y ->].
  destruct IH as [l' ->]; [set_solver|]. simpl. by eexists.
Qed.

Lemma iloc_in_range (X : DataFrame) (idx : list nat) :
  well_formed_frame X -> Forall (fun i => i < length (index X)) idx ->
  exists X', iloc X idx = Ok X'.
Proof.
  intros Hwf Hidx. unfold iloc.
  destruct (take_rows_in_range idx (index X) Hidx) as [rows ->]. simpl.
  destruct (traverse_exists
              (fun c : string * column => v ← take_col idx c.2; Ok (c.1, v))
              (columns X)) as [cols ->]; [|simpl; by eexists].
  intros c Hc. unfold well_formed_frame in Hwf. rewrite Forall_forall in Hwf.
  specialize (Hwf c Hc). unfold take_col. destruct c.2 as [v|v]; simpl in Hwf.
  - destruct (take_rows_in_range idx v) as [v' ->]; [by rewrite Hwf|].
    simpl. by eexists.
  - destruct (take_rows_in_range idx v) as [v' ->]; [by rewrite Hwf|].
    simpl. by eexists.
Qed.

Lemma iloc_series_in_range (y : Series) (idx : list nat) :
  well_formed_series y -> Forall (fun i => i < length (values y)) idx ->
  exists y', iloc_series y idx = Ok y'.
Proof.
  intros Hwf Hidx. unfold iloc_series.
  destruct (take_rows_in_range idx (s_index y)) as [rows ->];
    [by rewrite Hwf|].
  destruct (take_rows_in_range idx (values y) Hidx) as [vals ->].
  simpl. by eexists.
Qed.

Lemma perm_seq_in_range (l1 l2 : list nat) (n : nat) :
  l1 ++ l2 ≡ₚ seq 0 n ->
  Forall (fun i => i < n) l1 /\ Forall (fun i => i < n) l2.
Proof.
  intros Hp. split; apply Forall_forall; intros i Hi;
    assert (i ∈ seq 0 n) as Hin by (rewrite <- Hp; set_solver);
    apply elem_of_seq in Hin; lia.
Qed.

Section SplitFurther.
Context {S : Type} `{BitGenerator S}.

Lemma split_index_partition (X : DataFrame) (y : Series) (g : S)
      (parts : list (string * partition)) :
  bounded_draws ->
  (_split X y g).1 = Ok parts ->
  exists X_train X_test y_train y_test train test,
    parts = [("X_train", Frame X_train); ("X_test", Frame X_test);
             ("y_train", Labels y_train); ("y_test", Labels y_test)] /\
    length (values y) = length (index X) /\
    train ++ test ≡ₚ seq 0 (length (index X)) /\
    iloc X train = Ok X_train /\ iloc X test = Ok X_test /\
    iloc_series y train = Ok y_train /\ iloc_series y test = Ok y_test.
Proof.
  intros Hb Hs.
  destruct (split_inv X y g parts Hs)
    as (X_train & X_test & y_train & y_test & train & test & n_train & n_test
        & rng & rng' & -> & Hlen & Hv & Hit & HX1 & HX2 & Hy1 & Hy2).
  apply validate_fraction_sizes in Hv as (-> & -> & Hn).
  assert (length (index X) - (length (index X) + 4) / 5
          + (length (index X) + 4) / 5 = length (index X)) as Hadd.
  { assert ((length (index X) + 4) / 5 <= length (index X)); [|lia].
    apply Nat.Div0.div_le_upper_bound. lia. }
  pose proof (iter_indices_partition Hb _ _ _ _ _ _ _ _ Hlen Hadd Hit)
    as Hp.
  by exists X_train, X_test, y_train, y_test, train, test.
Qed.

(** X1: whenever the Splitter returns, the row labels of the train and test
    feature partitions together are the row labels of [X], each as often as
    in [X], and the train and test codes together are the codes of [y] with
    their multiplicities: no row is lost and none lands in both partitions. *)
Theorem split_partitions_rows (X : DataFrame) (y : Series) (g : S)
        (parts : list (string * partition)) :
  bounded_draws ->
  (_split X y g).1 = Ok parts ->
  exists X_train X_test y_train y_test,
    parts = [("X_train", Frame X_train); ("X_test", Frame X_test);
             ("y_train", Labels y_train); ("y_test", Labels y_test)] /\
    index X_train ++ index X_test ≡ₚ index X /\
    values y_train ++ values y_test ≡ₚ values y.
Proof.
  intros Hb Hs.
  destruct (split_index_partition X y g parts Hb Hs)
    as (X_train & X_test & y_train & y_test & train & test
        & -> & Hlen & Hp & HX1 & HX2 & Hy1 & Hy2).
  exists X_train, X_test, y_train, y_test. split; [done|].
  apply iloc_inv in HX1 as (Hi1 & _), HX2 as (Hi2 & _).
  apply iloc_series_inv in Hy1 as (_ & _ & Hv1), Hy2 as (_ & _ & Hv2).
  split.
  - by apply (take_rows_partition train test).
  - apply (take_rows_partition train test); [by rewrite Hlen|done|done].
Qed.

(** X2: whenever the Splitter returns, the test partitions have
    [ceil(n / 5)] rows and the train partitions have the remaining rows,
    [n] being the number of rows of the input. *)
Theorem split_sizes (X : DataFrame) (y : Series) (g : S)
        (parts : list (string * partition)) :
  bounded_draws ->
  (_split X y g).1 = Ok parts ->
  exists X_train X_test y_train y_test,
    parts = [("X_train", Frame X_train); ("X_test", Frame X_test);
             ("y_train", Labels y_train); ("y_test", Labels y_test)] /\
    length (index X_test) = (length (index X) + 4) / 5 /\
    length (values y_test) = (length (index X) + 4) / 5 /\
    length (index X_train) = length (index X) - (length (index X) + 4) / 5 /\
    length (values y_train) = length (index X) - (length (index X) + 4) / 5.
Proof.
  intros Hb Hs.
  destruct (split_inv X y g parts Hs)
    as (X_train & X_test & y_train & y_test & train & test & n_train & n_test
        & rng & rng' & -> & Hlen & Hv & Hit & HX1 & HX2 & Hy1 & Hy2).
  apply validate_fraction_sizes in Hv as (-> & -> & Hn).
  assert (length (index X) - (length (index X) + 4) / 5
          + (length (index X) + 4) / 5 = length (index X)) as Hadd.
  { assert ((length (index X) + 4) / 5 <= length (index X)); [|lia].
    apply Nat.Div0.div_le_upper_bound. lia. }
  destruct (iter_indices_sizes Hb _ _ _ _ _ _ _ _ Hlen Hadd Hit)
    as [Htr Hte].
  exists X_train, X_test, y_train, y_test. split; [done|].
  apply iloc_inv in HX1 as (Hi1 & _), HX2 as (Hi2 & _).
  apply iloc_series_inv in Hy1 as (_ & _ & Hv1), Hy2 as (_ & _ & Hv2).
  apply take_rows_length in Hi1, Hi2, Hv1, Hv2.
  rewrite Hi1, Hi2, Hv1, Hv2. done.
Qed.

Lemma iter_indices_few_test_rows (n : nat) (y : list nat)
      (n_test n_train : nat) (rng : S) :
  n_test < length (np_unique y) ->
  (_iter_indices n y n_test n_train rng).1 = Raise ValueError.
Proof.
  intros Hk. unfold _iter_indices.
  destruct (_validate_shuffle_split _ _ _) as [[a b]|e] eqn:Hv.
  - apply validate_counts in Hv as (-> & -> & _).
    repeat (case_bool_decide; [done|]). lia.
  - simpl. by rewrite (validate_raises_ValueError _ _ _ _ Hv).
Qed.

(** X3: when the input has more distinct label codes than [ceil(n / 5)],
    the test partition could not hold one row of each, and the Splitter
    raises ValueError. *)
Theorem split_too_many_classes (X : DataFrame) (y : Series) (g : S) :
  (length (index X) + 4) / 5 < length (np_unique (values y)) ->
  (_split X y g).1 = Raise ValueError.
Proof.
  intros Hk. unfold _split, train_test_split.
  case_bool_decide as Hlen; simpl; [|done].
  destruct (_validate_shuffle_split _ _ _) as [[n_train n_test]|e] eqn:Hv.
  2:{ simpl. by rewrite (validate_raises_ValueError _ _ _ _ Hv). }
  apply validate_fraction_sizes in Hv as (-> & -> & _).
  pose proof (iter_indices_few_test_rows (length (index X)) (values y) _
                (length (index X) - (length (index X) + 4) / 5)
                (check_random_state (Some 42%Z) g) Hk) as Hit.
  destruct (_iter_indices _ _ _ _ _) as [r rng']. simpl in Hit. by subst r.
Qed.

Lemma train_test_split_error_kind (X : DataFrame) (y : Series)
      (random_state : option Z) (g : S) (e : exn) :
  bounded_draws -> well_formed_frame X -> well_formed_series y ->
  (train_test_split X y random_state g).1 = Raise e -> e = ValueError.
Proof.
  intros Hb HwfX Hwfy. unfold train_test_split.
  case_bool_decide as Hlen; simpl; [|by intros [= <-]].
  destruct (_validate_shuffle_split _ _ _) as [[n_train n_test]|e'] eqn:Hv.
  2:{ simpl. intros [= <-]. by apply validate_raises_ValueError in Hv. }
  apply validate_fraction_sizes in Hv as (-> & -> & Hn).
  assert (length (index X) - (length (index X) + 4) / 5
          + (length (index X) + 4) / 5 = length (index X)) as Hadd.
  { assert ((length (index X) + 4) / 5 <= length (index X)); [|lia].
    apply Nat.Div0.div_le_upper_bound. lia. }
  destruct (_iter_indices _ _ _ _ _) as [[[train test]|e'] rng'] eqn:Hit;
    simpl.
  2:{ intros [= <-]. by apply iter_indices_raises_ValueError in Hit. }
  pose proof (iter_indices_partition Hb _ _ _ _ _ _ _ _ Hlen Hadd Hit)
    as Hp.
  apply perm_seq_in_range in Hp as [Htr Hte].
  destruct (iloc_in_range X train HwfX Htr) as [X_train ->].
  destruct (iloc_in_range X test HwfX Hte) as [X_test ->].
  rewrite <- Hlen in Htr, Hte.
  destruct (iloc_series_in_range y train Hwfy Htr) as [y_train ->].
  destruct (iloc_series_in_range y test Hwfy Hte) as [y_test ->].
  done.
Qed.

(** X4: on a well-formed input the Splitter raises nothing but ValueError;
    in particular the row selection never runs past the end of the input. *)
Theorem split_raises_only_ValueError (X : DataFrame) (y : Series) (g : S)
        (e : exn) :
  bounded_draws -> well_formed_frame X -> well_formed_series y ->
  (_split X y g).1 = Raise e -> e = ValueError.
Proof.
  intros Hb HwfX Hwfy. unfold _split.
  destruct (train_test_split X y (Some 42%Z) g) as [[r|e'] g'] eqn:Ht; simpl.
  - by destruct r as [[[X_train X_test] y_train] y_test].
  - intros [= <-].
    apply (train_test_split_error_kind X y (Some 42%Z) g e' Hb HwfX Hwfy).
    by rewrite Ht.
Qed.

End SplitFurther.

(** ** When the Splitter returns *)

Lemma inverse_index (y : list nat) (j v : nat) :
  np_unique y !! j = Some v -> index_of v (np_unique y) = j.
Proof.
  intros Hj. pose proof (list_elem_of_lookup_2 _ _ _ Hj) as Hv.
  apply index_of_lookup in Hv.
  by eapply NoDup_alt; [apply np_unique_NoDup|..].
Qed.

Lemma inverse_elem (y : list nat) (j : nat) :
  j ∈ np_unique_inverse y <-> j < length (np_unique y).
Proof.
  unfold np_unique_inverse. change (map ?f ?l) with (f <$> l).
  rewrite list_elem_of_fmap. split.
  - intros (v & -> & Hv). by apply index_of_lt, np_unique_elem.
  - intros Hj. destruct (lookup_lt_is_Some_2 _ _ Hj) as [v Hv].
    exists v. split; [by rewrite (inverse_index y j v)|].
    by apply np_unique_elem, (list_elem_of_lookup_2 _ j).
Qed.

Lemma inverse_count (y : list nat) (j v : nat) :
  np_unique y !! j = Some v ->
  count_nat j (np_unique_inverse y) = count_nat v y.
Proof.
  intros Hj. rewrite <- (inverse_index y j v Hj). unfold np_unique_inverse.
  apply (count_nat_map_inj (fun w => index_of w (np_unique y))).
  intros w Hw. apply index_of_inj; apply np_unique_elem; [done|].
  by apply np_unique_elem, (list_elem_of_lookup_2 _ j).
Qed.

Lemma list_max_le (l : list nat) (m : nat) :
  (forall x, x ∈ l -> x <= m) -> foldr Nat.max 0 l <= m.
Proof.
  induction l as [|x l IH]; intros Hl; simpl; [lia|].
  pose proof (Hl x ltac:(set_solver)). pose proof (IH ltac:(set_solver)). lia.
Qed.

Lemma length_bincount_inverse (y : list nat) :
  length (bincount (np_unique_inverse y)) = length (np_unique y).
Proof.
  destruct y as [|v y]; [done|].
  set (yi := np_unique_inverse (v :: y)).
  assert (yi <> []) as Hne by done.
  unfold bincount. destruct yi as [|i yi'] eqn:Hyi; [done|].
  rewrite length_map, length_seq. rewrite <- Hyi.
  assert (0 < length (np_unique (v :: y))) as Hpos.
  { assert (v ∈ np_unique (v :: y)) as Hv by (apply np_unique_elem; set_solver).
    destruct (np_unique (v :: y)); [set_solver|simpl; lia]. }
  assert (foldr Nat.max 0 yi <= length (np_unique (v :: y)) - 1).
  { apply list_max_le. intros x Hx. unfold yi in Hx.
    apply inverse_elem in Hx. lia. }
  assert (length (np_unique (v :: y)) - 1 <= foldr Nat.max 0 yi).
  { apply list_max_ge. unfold yi. apply inverse_elem. lia. }
  subst yi. lia.
Qed.

Lemma foldr_min_ge (d m : nat) (l : list nat) :
  m <= d -> Forall (fun x => m <= x) l -> m <= foldr Nat.min d l.
Proof. induction 2; simpl; lia. Qed.

Lemma np_min_ge (m : nat) (l : list nat) :
  l <> [] -> Forall (fun x => m <= x) l -> m <= np_min l.
Proof.
  intros Hne Hl. unfold np_min. apply foldr_min_ge; [|done].
  destruct l as [|x l]; [done|]. simpl. by inversion Hl.
Qed.

Lemma class_counts_ge (y : list nat) (m : nat) :
  (forall c, c ∈ y -> m <= count_nat c y) ->
  Forall (fun x => m <= x) (bincount (np_unique_inverse y)).
Proof.
  intros Hy. apply Forall_lookup. intros j c Hj.
  pose proof (lookup_lt_Some _ _ _ Hj) as Hlt.
  rewrite length_bincount_inverse in Hlt.
  apply bincount_lookup in Hj as ->.
  destruct (lookup_lt_is_Some_2 _ _ Hlt) as [v Hv].
  rewrite (inverse_count y j v Hv). apply Hy.
  by apply np_unique_elem, (list_elem_of_lookup_2 _ j).
Qed.

Lemma validate_counts_ok (n n_test n_train : nat) :
  0 < n_test -> 0 < n_train -> n_train + n_test = n ->
  _validate_shuffle_split n (Count n_test) (Some (Count n_train))
  = Ok (n_train, n_test).
Proof.
  intros H1 H2 H3. unfold _validate_shuffle_split. simpl.
  repeat (rewrite bool_decide_eq_false_2 by lia; simpl). done.
Qed.

Lemma validate_fraction_ok (n : nat) :
  2 <= n ->
  _validate_shuffle_split n (Fraction (1 # 5)) None
  = Ok (n - (n + 4) / 5, (n + 4) / 5) /\
  0 < (n + 4) / 5 /\ (n + 4) / 5 <= n - (n + 4) / 5.
Proof.
  intros Hn. pose proof (Nat.div_mod_eq (n + 4) 5) as Hd.
  pose proof (Nat.mod_upper_bound (n + 4) 5 ltac:(lia)) as Hm.
  set (q := (n + 4) / 5) in *.
  split; [|lia]. unfold _validate_shuffle_split. simpl. rewrite ceil_fifth.
  fold q. repeat (rewrite bool_decide_eq_false_2 by lia; simpl). done.
Qed.

Lemma count_nat_le_length (c : nat) (y : list nat) : count_nat c y <= length y.
Proof. apply length_filter. Qed.

Section SplitReturns.
Context {S : Type} `{BitGenerator S}.

Lemma iter_indices_returns (n : nat) (y : list nat) (n_test n_train : nat)
      (rng : S) :
  length y = n -> 0 < n_test -> 0 < n_train -> n_train + n_test = n ->
  (forall c, c ∈ y -> 2 <= count_nat c y) ->
  length (np_unique y) <= n_test -> length (np_unique y) <= n_train ->
  exists train test rng',
    _iter_indices n y n_test n_train rng = (Ok (train, test), rng').
Proof.
  intros Hlen H1 H2 H3 Hcounts Hk1 Hk2. unfold _iter_indices.
  rewrite validate_counts_ok by done.
  assert (bincount (np_unique_inverse y) <> []) as Hne.
  { intros Hnil. pose proof (length_bincount_inverse y) as Hl.
    rewrite Hnil in Hl. simpl in Hl.
    destruct y as [|v y]; [simpl in *; lia|].
    assert (v ∈ np_unique (v :: y)) as Hv by (apply np_unique_elem; set_solver).
    destruct (np_unique (v :: y)); [set_solver|done]. }
  rewrite (bool_decide_eq_false_2 _ Hne).
  pose proof (np_min_ge 2 _ Hne (class_counts_ge y 2 Hcounts)).
  repeat (rewrite bool_decide_eq_false_2 by lia).
  destruct (_approximate_mode _ _ _) as [n_i r1].
  destruct (_approximate_mode _ _ r1) as [t_i r2].
  destruct (draw_classes _ _ _ _ _ _ _ _) as [[tr te] r3].
  destruct (permutation tr r3) as [train r4].
  destruct (permutation te r4) as [test r5]. eauto.
Qed.

Lemma train_test_split_returns (X : DataFrame) (y : Series)
      (random_state : option Z) (g : S) :
  bounded_draws -> well_formed_frame X -> well_formed_series y ->
  length (values y) = length (index X) ->
  (forall c, c ∈ values y -> 2 <= count_nat c (values y)) ->
  0 < length (np_unique (values y)) <= (length (index X) + 4) / 5 ->
  exists r, (train_test_split X y random_state g).1 = Ok r.
Proof.
  intros Hb HwfX Hwfy Hlen Hcounts [Hk0 Hk].
  assert (2 <= length (index X)) as Hn.
  { destruct (np_unique (values y)) as [|v u] eqn:Hu; [simpl in Hk0; lia|].
    assert (v ∈ values y) as Hv by (apply np_unique_elem; rewrite Hu; set_solver).
    pose proof (Hcounts v Hv). pose proof (count_nat_le_length v (values y)).
    lia. }
  destruct (validate_fraction_ok _ Hn) as (Hv & Hpos & Hle).
  unfold train_test_split.
  rewrite bool_decide_eq_true_2 by done. cbn [negb]. rewrite Hv. cbv zeta.
  assert (length (index X) - (length (index X) + 4) / 5
          + (length (index X) + 4) / 5 = length (index X)) as Hadd by lia.
  destruct (iter_indices_returns (length (index X)) (values y)
              ((length (index X) + 4) / 5)
              (length (index X) - (length (index X) + 4) / 5)
              (check_random_state random_state g))
    as (train & test & rng' & Hit); try done; try lia.
  rewrite Hit. simpl.
  pose proof (iter_indices_partition Hb _ _ _ _ _ _ _ _ Hlen Hadd Hit) as Hp.
  apply perm_seq_in_range in Hp as [Htr Hte].
  destruct (iloc_in_range X train HwfX Htr) as [X_train ->].
  destruct (iloc_in_range X test HwfX Hte) as [X_test ->].
  rewrite <- Hlen in Htr, Hte.
  destruct (iloc_series_in_range y train Hwfy Htr) as [y_train ->].
  destruct (iloc_series_in_range y test Hwfy Hte) as [y_test ->].
  simpl. eauto.
Qed.

(** X5: on a well-formed input whose features and codes have the same
    number of rows, the Splitter returns whenever every label code occurs at
    least twice and there are at most [ceil(n / 5)] distinct codes (and at
    least one). *)
Theorem split_returns (X : DataFrame) (y : Series) (g : S) :
  bounded_draws -> well_formed_frame X -> well_formed_series y ->
  length (values y) = length (index X) ->
  (forall c, c ∈ values y -> 2 <= count_nat c (values y)) ->
  0 < length (np_unique (values y)) <= (length (index X) + 4) / 5 ->
  exists parts, (_split X y g).1 = Ok parts.
Proof.
  intros Hb HwfX Hwfy Hlen Hcounts Hk.
  destruct (train_test_split_returns X y (Some 42%Z) g Hb HwfX Hwfy Hlen
              Hcounts Hk) as [[[[X_train X_test] y_train] y_test] Hr].
  unfold _split.
  destruct (train_test_split X y (Some 42%Z) g) as [r g'].
  simpl in Hr. subst r. simpl. eauto.
Qed.

End SplitReturns.

(** ** Every class reaches the training partition *)

Section TrainClasses.
Context {S : Type} `{BitGenerator S}.
Hypothesis Hbounded : bounded_draws.

(** No class gets less than the floor of its share. *)
Lemma approximate_mode_lower (cs : list nat) (n : nat) (s : S) (i c x : nat) :
  0 < sum_nat cs -> n <= sum_nat cs ->
  cs !! i = Some c -> (_approximate_mode cs n s).1 !! i = Some x ->
  c * n / sum_nat cs <= x.
Proof.
  intros HT Hn Hc. unfold _approximate_mode.
  set (T := sum_nat cs) in *.
  set (floored := map (fun c => c * n / T) cs).
  set (remainder := map (fun c => (c * n) mod T) cs).
  destruct (sum_nat_div_mod (map (fun c => c * n) cs) T HT) as [Hdm Hrem].
  rewrite sum_nat_scale, !map_map, length_map in *.
  fold T floored remainder in Hdm, Hrem.
  assert (sum_nat floored <= n /\ n - sum_nat floored <= length cs)
    as [HF Hneed] by nia.
  assert (floored !! i = Some (c * n / T)) as Hfl.
  { unfold floored. change (map ?f ?l) with (f <$> l).
    by rewrite list_lookup_fmap, Hc. }
  case_bool_decide as Hpos; simpl.
  - destruct (add_by_remainder_spec Hbounded (rev (np_unique remainder))
                remainder floored (n - sum_nat floored) s) as (_ & _ & Hpt).
    + unfold floored, remainder. by rewrite !length_map.
    + apply NoDup_ListNoDup, NoDup_rev, NoDup_ListNoDup, np_unique_NoDup.
    + rewrite (map_ext _ (fun v => count_nat v remainder))
        by (intros; apply np_where_length).
      rewrite sum_counts_cover.
      * unfold remainder. by rewrite length_map.
      * apply NoDup_ListNoDup, NoDup_rev, NoDup_ListNoDup, np_unique_NoDup.
      * intros v Hv. apply list_elem_of_In, in_rev, list_elem_of_In.
        rewrite rev_involutive. by apply np_unique_elem.
    + destruct (Hpt i _ Hfl) as (b & Hb & Hcase). rewrite Hb.
      intros [= <-]. destruct Hcase as [->|[-> _]]; lia.
  - rewrite Hfl. by intros [= <-].
Qed.

Lemma draw_classes_train_mono (y_indices cs ns ts : list nat) (i : nat)
      (train test : list nat) (s : S) (p : nat) :
  p ∈ train -> p ∈ (draw_classes y_indices cs ns ts i train test s).1.1.
Proof.
  revert ns ts i train test s.
  induction cs as [|c cs IH]; intros [|n ns] [|t ts] i train test s Hp;
    simpl; try done.
  destruct (permutation_n c s) as [perm s1]. apply IH. set_solver.
Qed.

Lemma draw_classes_train_member (y_indices cs ns ts : list nat) (i : nat)
      (train test : list nat) (s : S) (j n : nat) :
  Forall2 le ns cs -> length ts = length cs ->
  (forall k c, cs !! k = Some c ->
               length (class_indices y_indices (i + k)) = c) ->
  ns !! j = Some n -> 0 < n ->
  exists p, p ∈ (draw_classes y_indices cs ns ts i train test s).1.1 /\
            y_indices !! p = Some (i + j).
Proof.
  intros Hle. revert ts i train test s j.
  induction Hle as [|n0 c ns cs Hnc Hle IH];
    intros ts i train test s j Hts Hcs Hj Hn; [done|].
  destruct ts as [|t ts]; [done|]. simpl.
  pose proof (permutation_n_perm Hbounded c s) as Hperm.
  destruct (permutation_n c s) as [perm s1]. simpl in Hperm.
  pose proof (Hcs 0 c eq_refl) as Hc0. rewrite Nat.add_0_r in Hc0.
  set (P := take_clip (class_indices y_indices i) perm).
  assert (P ≡ₚ class_indices y_indices i) as HP.
  { apply take_clip_perm. by rewrite Hc0. }
  destruct j as [|j]; simpl in Hj.
  - injection Hj as ->.
    assert (length P = c) as HlenP by (by rewrite HP).
    destruct (take n P) as [|p ps] eqn:Htake.
    { apply (f_equal length) in Htake. rewrite length_take in Htake.
      simpl in Htake. lia. }
    exists p. split.
    + apply draw_classes_train_mono. set_solver.
    + rewrite Nat.add_0_r. apply np_where_elem. fold (class_indices y_indices i).
      rewrite <- HP. apply (subseteq_take n). rewrite Htake. set_solver.
  - destruct (IH ts (Datatypes.S i)
                (train ++ take n0 P) (test ++ take t (drop n0 P)) s1 j)
      as (p & Hp & Hyp); try done.
    + simpl in Hts. lia.
    + intros k c' Hk. replace (Datatypes.S i + k) with (i + Datatypes.S k)
        by lia. by apply Hcs.
    + exists p. split; [done|]. rewrite Hyp. f_equal. lia.
Qed.

Lemma iter_indices_train_classes (n : nat) (y : list nat)
      (n_test n_train : nat) (rng rng' : S) (train test : list nat) (c : nat) :
  length y = n -> n_train + n_test = n -> n <= 2 * n_train ->
  _iter_indices n y n_test n_train rng = (Ok (train, test), rng') ->
  c ∈ y -> exists p, p ∈ train /\ y !! p = Some c.
Proof.
  intros Hy Hsum Hhalf. unfold _iter_indices.
  destruct (_validate_shuffle_split _ _ _) as [[a b]|e] eqn:Hv; [|done].
  apply validate_counts in Hv as (-> & -> & Hlt1 & Hlt2 & Hpos1 & Hpos2).
  set (yi := np_unique_inverse y).
  set (cs := bincount yi).
  assert (sum_nat cs = n) as Hcs.
  { unfold cs, yi. rewrite sum_bincount. unfold np_unique_inverse.
    by rewrite length_map. }
  case_bool_decide as Hnil; [done|].
  case_bool_decide as Hmin; [done|].
  case_bool_decide as Hk1; [done|].
  case_bool_decide as Hk2; [done|].
  destruct (approximate_mode_spec Hbounded cs n_train rng)
    as (Hlen & Hsum_n & Hpt); [lia|lia|].
  pose proof (fun i c x => approximate_mode_lower cs n_train rng i c x
                             ltac:(lia) ltac:(lia)) as Hlow.
  destruct (_approximate_mode cs n_train rng) as [n_i r1]. simpl in *.
  assert (forall i c, cs !! i = Some c -> 2 <= c) as Hc2.
  { intros i c' Hc'.
    pose proof (np_min_le c' cs (list_elem_of_lookup_2 _ _ _ Hc')). lia. }
  assert (Forall2 le n_i cs) as Hle.
  { apply Forall2_same_length_lookup. split; [done|].
    intros i x c' Hx Hc'. destruct (Hpt i c' Hc') as (x' & Hx' & Hbound).
    rewrite Hx in Hx'. injection Hx' as <-. pose proof (Hc2 i c' Hc').
    assert (c' * n_train / sum_nat cs < c'); [|lia].
    apply Nat.Div0.div_lt_upper_bound. nia. }
  pose proof (sum_zip_sub cs n_i Hle) as Hrem.
  assert (sum_nat (zip_with Nat.sub cs n_i) = n_test) as Hrem' by lia.
  rewrite <- Hrem' at 1.
  rewrite approximate_mode_exact by lia.
  intros Hres Hc.
  set (j := index_of c (np_unique y)).
  assert (j < length cs) as Hj.
  { unfold cs, yi. rewrite length_bincount_inverse.
    by apply index_of_lt, np_unique_elem. }
  destruct (lookup_lt_is_Some_2 cs j Hj) as [cj Hcj].
  destruct (lookup_lt_is_Some_2 n_i j ltac:(lia)) as [nj Hnj].
  assert (0 < nj) as Hnjpos.
  { pose proof (Hlow j cj nj Hcj Hnj). pose proof (Hc2 j cj Hcj).
    assert (1 <= cj * n_train / sum_nat cs); [|lia].
    apply Nat.div_le_lower_bound; nia. }
  destruct (draw_classes_train_member yi cs n_i (zip_with Nat.sub cs n_i) 0
              [] [] r1 j nj Hle) as (p & Hp & Hyp); try done.
  { rewrite length_zip_with. lia. }
  { intros k c' Hk. simpl. apply bincount_lookup in Hk as ->.
    apply np_where_length. }
  destruct (draw_classes _ _ _ _ _ _ _ _) as [[tr te] r3]. simpl in Hp.
  pose proof (shuffle_perm Hbounded tr r3) as Hp1.
  unfold permutation in Hres.
  destruct (shuffle tr r3) as [train' r4]. simpl in Hp1.
  destruct (shuffle te r4) as [test' r5].
  injection Hres as <- <- _.
  exists p. split; [by rewrite Hp1|].
  simpl in Hyp. unfold yi, np_unique_inverse in Hyp.
  change (map ?f ?l) with (f <$> l) in Hyp.
  rewrite list_lookup_fmap in Hyp.
  destruct (y !! p) as [v|] eqn:Hv; simpl in Hyp; [|done].
  injection Hyp as Hyp. f_equal.
  apply (index_of_inj v c (np_unique y)); [| |done].
  - by apply np_unique_elem, (list_elem_of_lookup_2 _ p).
  - by apply np_unique_elem.
Qed.

End TrainClasses.

Section TrainClassesTheorem.
Context {S : Type} `{BitGenerator S}.

(** X6: whenever the Splitter returns, every label code of the input
    occurs among the training codes. *)
Theorem split_train_has_every_class (X : DataFrame) (y : Series) (g : S)
        (parts : list (string * partition)) (c : nat) :
  bounded_draws ->
  (_split X y g).1 = Ok parts ->
  c ∈ values y ->
  exists y_train,
    parts !! 2 = Some ("y_train", Labels y_train) /\ c ∈ values y_train.
Proof.
  intros Hb Hs Hc.
  destruct (split_inv X y g parts Hs)
    as (X_train & X_test & y_train & y_test & train & test & n_train & n_test
        & rng & rng' & -> & Hlen & Hv & Hit & HX1 & HX2 & Hy1 & Hy2).
  apply validate_fraction_sizes in Hv as (-> & -> & Hn).
  destruct (validate_fraction_ok _ Hn) as (_ & Hpos & Hle).
  assert (length (index X) - (length (index X) + 4) / 5
          + (length (index X) + 4) / 5 = length (index X)) as Hadd by lia.
  destruct (iter_indices_train_classes Hb _ _ _ _ _ _ _ _ c Hlen Hadd
              ltac:(lia) Hit Hc) as (p & Hp & Hyp).
  exists y_train. split; [done|].
  apply iloc_series_inv in Hy1 as (_ & _ & Hv1).
  apply take_rows_omap in Hv1 as ->.
  apply list_elem_of_omap. by exists p.
Qed.

End TrainClassesTheorem.

(** ** More on the Cleaner *)

(** X7: cleaning twice is cleaning once: on the table it has produced the
    Cleaner returns that table, and where the first pass raises so does the
    composition. *)
Theorem clean_twice (df : Table) : _clean df ≫= _clean = _clean df.
Proof.
  destruct (_clean df) as [cleaned|e] eqn:Hc; [|done].
  simpl. exact (clean_idempotent df cleaned Hc).
Qed.

Lemma missing_label_counted (df : Table) :
  existsb isnull_label (target df) = true ->
  filter (fun c : string * nat => 0 < c.2) (missing_counts df) <> [].
Proof.
  intros Hnull Hnil. apply (no_missing_cols_target df) in Hnil.
  apply existsb_false_Forall in Hnil. congruence.
Qed.

Lemma mode_of_all_missing (l : list label) :
  (forall s, Some s ∉ l) -> mode l = [].
Proof.
  intros Hno. destruct (mode l) as [|s ms] eqn:Hm; [done|].
  assert (s ∈ mode l) as Hs by (rewrite Hm; set_solver).
  apply mode_elem in Hs as [Hs _]. by apply Hno in Hs.
Qed.

Lemma not_finite_features (df : Table) :
  ~ finite_features df <-> infinite_feature df.
Proof.
  unfold finite_features, infinite_feature. split.
  - intros Hn. apply not_Forall_Exists in Hn; [|apply _].
    apply Exists_exists in Hn as (c & Hc & Hcol).
    apply not_Forall_Exists in Hcol; [|apply _].
    apply Exists_exists in Hcol as (x & Hx & Hinf).
    destruct x as [|z|q|negative]; try (exfalso; by apply Hinf).
    by exists c, negative.
  - intros (c & negative & Hc & Hx) Hall.
    rewrite Forall_forall in Hall. specialize (Hall c Hc).
    rewrite Forall_forall in Hall. by specialize (Hall _ Hx).
Qed.

Lemma label_cases (df : Table) :
  no_label df \/
  (existsb isnull_label (target df) = false \/ exists s, Some s ∈ target df).
Proof.
  destruct (existsb isnull_label (target df)) eqn:Hnull; [|right; by left].
  destruct (mode (target df)) as [|m ms] eqn:Hm.
  - left. split; [done|]. intros s Hs. by apply mode_nonempty in Hs.
  - right. right. exists m.
    assert (m ∈ mode (target df)) as Hin by (rewrite Hm; set_solver).
    by apply mode_elem in Hin as [? _].
Qed.

Lemma clean_raise_inv (df : Table) (e : exn) :
  _clean df = Raise e ->
  (e = KeyError /\ no_label df) \/
  (e = IntCastingNaNError /\ infinite_feature df /\ ~ no_label df).
Proof.
  intros Hr. destruct (label_cases df) as [[Hnull Hno]|Hlab].
  - left. split; [|done]. revert Hr. unfold _clean.
    rewrite (bool_decide_eq_false_2 _ (missing_label_counted df Hnull)).
    simpl. rewrite Hnull, (mode_of_all_missing _ Hno). simpl. congruence.
  - right.
    assert (~ no_label df) as HnL.
    { intros [Hnull Hno]. destruct Hlab as [?|[s Hs]]; [congruence|].
      by apply Hno in Hs. }
    assert (infinite_feature df) as Hinf.
    { apply not_finite_features. intros Hfin.
      destruct (clean_returns df Hfin Hlab) as [df' Hok]. congruence. }
    split; [|done]. revert Hr. unfold _clean.
    destruct (bool_decide _); simpl.
    + destruct (astype_int (symptoms df)) as [cols|e'] eqn:Hc; simpl; [done|].
      intros [= <-]. by apply astype_int_raises in Hc.
    + destruct (existsb isnull_label (target df)) eqn:Hnull; simpl.
      * destruct (getitem0 (mode (target df))) as [m|e'] eqn:Hm; simpl.
        -- destruct (astype_int _) as [cols|e'] eqn:Hc; simpl; [done|].
           intros [= <-]. by apply astype_int_raises in Hc.
        -- destruct Hlab as [?|[s Hs]]; [done|].
           apply mode_nonempty in Hs. by destruct (mode (target df)).
      * destruct (astype_int _) as [cols|e'] eqn:Hc; simpl; [done|].
        intros [= <-]. by apply astype_int_raises in Hc.
Qed.

(** X8: the Cleaner raises in two cases and in no other: KeyError when the
    label column has a missing value and no present one, and otherwise
    IntCastingNaNError (a ValueError) when some feature cell is an
    infinity. *)
Theorem clean_raises (df : Table) (e : exn) :
  _clean df = Raise e <->
  (e = KeyError /\ no_label df) \/
  (e = IntCastingNaNError /\ infinite_feature df /\ ~ no_label df).
Proof.
  split; [apply clean_raise_inv|].
  intros [(-> & Hnull & Hno)|(-> & Hinf & HnL)].
  - unfold _clean.
    rewrite (bool_decide_eq_false_2 _ (missing_label_counted df Hnull)).
    simpl. by rewrite Hnull, (mode_of_all_missing _ Hno).
  - destruct (_clean df) as [df'|e] eqn:Hc.
    + apply clean_finite in Hc. by apply not_finite_features in Hinf.
    + apply clean_raise_inv in Hc as [[_ HL]|[-> _]]; done.
Qed.

Lemma count_label_perm (s : string) (l1 l2 : list label) :
  l1 ≡ₚ l2 -> count_label s l1 = count_label s l2.
Proof. intros Hp. unfold count_label, count_true. by rewrite Hp. Qed.

Lemma max_count_perm (l1 l2 : list label) :
  l1 ≡ₚ l2 -> max_count l1 = max_count l2.
Proof.
  assert (forall l1 l2, l1 ≡ₚ l2 -> max_count l1 <= max_count l2) as Hle.
  { intros k1 k2 Hp. unfold max_count at 1.
    induction (first_seen k1 []) as [|s ks IH]; simpl; [lia|].
    rewrite (count_label_perm s k1 k2 Hp).
    pose proof (max_count_ge s k2). lia. }
  intros Hp. apply Nat.le_antisymm; apply Hle; [done|by symmetry].
Qed.

Lemma mode_perm (l1 l2 : list label) : l1 ≡ₚ l2 -> mode l1 = mode l2.
Proof.
  intros Hp. apply sorted_unique; try apply sorted_set_sorted.
  intros s. fold (mode l1) (mode l2). rewrite !mode_elem.
  by rewrite (count_label_perm s l1 l2 Hp), (max_count_perm l1 l2 Hp), Hp.
Qed.

(** X9: the label the Cleaner fills in does not depend on the order of the
    rows: for two tables whose label columns are rearrangements of each
    other, the cleaned label columns are rearrangements of each other. *)
Theorem clean_labels_order_independent (df1 df2 c1 c2 : Table) :
  target df1 ≡ₚ target df2 ->
  _clean df1 = Ok c1 -> _clean df2 = Ok c2 ->
  mode (target df1) = mode (target df2) /\ target c1 ≡ₚ target c2.
Proof.
  intros Hp H1 H2. split; [by apply mode_perm|].
  apply clean_inv in H1 as (_ & _ & _ & Ht1), H2 as (_ & _ & _ & Ht2).
  assert (existsb isnull_label (target df1) = existsb isnull_label (target df2))
    as Hnull.
  { destruct (existsb isnull_label (target df1)) eqn:E1,
             (existsb isnull_label (target df2)) eqn:E2; try done.
    - apply existsb_isnull_elem in E1. rewrite Hp in E1.
      apply existsb_isnull_elem in E1. congruence.
    - apply existsb_isnull_elem in E2. rewrite <- Hp in E2.
      apply existsb_isnull_elem in E2. congruence. }
  destruct Ht1 as [[E1 ->]|[E1 (m1 & Hm1 & ->)]],
           Ht2 as [[E2 ->]|[E2 (m2 & Hm2 & ->)]]; try congruence.
  rewrite (mode_perm _ _ Hp) in Hm1. rewrite Hm1 in Hm2. injection Hm2 as ->.
  unfold fillna_label. change (map ?f ?l) with (f <$> l). by rewrite Hp.
Qed.

(** ** More on the Encoder *)

Lemma sorted_lookup_lt (l : list string) (i j : nat) (a b : string) :
  StronglySorted str_lt l -> i < j ->
  l !! i = Some a -> l !! j = Some b -> str_lt a b.
Proof.
  intros Hs. revert i j. induction Hs as [|x l Hs IH Hx]; intros i j Hij Hi Hj.
  - done.
  - destruct j as [|j]; [lia|]. destruct i as [|i]; simpl in *.
    + injection Hi as ->. rewrite Forall_forall in Hx. apply Hx.
      by eapply list_elem_of_lookup_2.
    + apply (IH i j); [lia|done|done].
Qed.

Lemma unique_python_lookup_present (vals : list label) (c : nat) (a : string) :
  _unique_python vals !! c = Some (Some a) ->
  sorted_set (omap id vals) !! c = Some a.
Proof.
  unfold _unique_python. intros Hl.
  apply lookup_app_Some in Hl as [Hl|[_ Hl]].
  - rewrite list_lookup_fmap in Hl.
    destruct (sorted_set (omap id vals) !! c); simpl in Hl; congruence.
  - destruct (existsb isnull_label vals); [|by rewrite lookup_nil in Hl].
    apply list_elem_of_lookup_2 in Hl. set_solver.
Qed.

Lemma encoded_row (df : Table) (X : DataFrame) (y : Series)
      (mapping : list (label * nat)) (i c : nat) (v : label) :
  _encode df = Ok (X, y, mapping) ->
  target df !! i = Some v -> values y !! i = Some c ->
  _unique_python (target df) !! c = Some v.
Proof.
  intros He Hv Hc. apply encode_inv in He as (_ & _ & _ & Hy & _ & _).
  rewrite Hy in Hc. change (map ?f ?l) with (f <$> l) in Hc.
  rewrite list_lookup_fmap, Hv in Hc. simpl in Hc. injection Hc as <-.
  apply code_in_lookup; [apply unique_python_NoDup|].
  apply unique_python_elem. by eapply list_elem_of_lookup_2.
Qed.

(** X10: the codes of the Encoder follow the order of the labels: two rows
    with present labels get the same code exactly when their labels are
    equal, and the smaller code exactly when the label is the smaller
    string. *)
Theorem encode_codes_follow_label_order (df : Table) (X : DataFrame)
        (y : Series) (mapping : list (label * nat)) (i j ci cj : nat)
        (a b : string) :
  _encode df = Ok (X, y, mapping) ->
  target df !! i = Some (Some a) -> target df !! j = Some (Some b) ->
  values y !! i = Some ci -> values y !! j = Some cj ->
  (a = b <-> ci = cj) /\ (str_lt a b <-> ci < cj).
Proof.
  intros He Hi Hj Hci Hcj.
  pose proof (encoded_row _ _ _ _ _ _ _ He Hi Hci) as Hua.
  pose proof (encoded_row _ _ _ _ _ _ _ He Hj Hcj) as Hub.
  apply unique_python_lookup_present in Hua, Hub.
  pose proof (sorted_set_sorted (omap id (target df))) as Hs.
  destruct (Nat.lt_trichotomy ci cj) as [Hlt|[Heq|Hgt]].
  - pose proof (sorted_lookup_lt _ _ _ _ _ Hs Hlt Hua Hub) as Hab.
    split; split; intros H; try done; try lia.
    subst. by apply str_lt_irrefl in Hab.
  - subst. rewrite Hua in Hub. injection Hub as ->.
    split; split; intros H; try done; try lia.
    by apply str_lt_irrefl in H.
  - pose proof (sorted_lookup_lt _ _ _ _ _ Hs Hgt Hub Hua) as Hba.
    split; split; intros H; try lia.
    + subst. by apply str_lt_irrefl in Hba.
    + by apply str_lt_asym in H.
Qed.

(** X11: the codes are dense: a number is the code of some row exactly when
    it is below the number of entries of the mapping. *)
Theorem encode_codes_dense (df : Table) (X : DataFrame) (y : Series)
        (mapping : list (label * nat)) (c : nat) :
  _encode df = Ok (X, y, mapping) ->
  c ∈ values y <-> c < length mapping.
Proof.
  intros He. pose proof He as Hinv.
  apply encode_inv in Hinv as (_ & _ & _ & Hy & _ & Hm). simpl in Hm.
  assert (length mapping = length (_unique_python (target df))) as Hlen.
  { rewrite Hm, length_zip, length_seq. lia. }
  rewrite Hlen. split.
  - intros Hc. apply list_elem_of_lookup in Hc as [i Hc].
    assert (is_Some (target df !! i)) as [v Hv].
    { apply lookup_lt_is_Some. apply lookup_lt_Some in Hc.
      by rewrite Hy, length_map in Hc. }
    eapply lookup_lt_Some, (encoded_row _ _ _ _ _ _ _ He Hv Hc).
  - intros Hc. apply lookup_lt_is_Some in Hc as [v Hv].
    assert (v ∈ target df) as Hin.
    { apply unique_python_elem. by eapply list_elem_of_lookup_2. }
    rewrite Hy. apply list_elem_of_fmap. exists v. split; [|done].
    pose proof (unique_python_NoDup (target df)) as Hnd.
    eapply NoDup_lookup; [exact Hnd|exact Hv|].
    apply code_in_lookup; [done|]. by apply unique_python_elem.
Qed.

(** ** The transform stage as a whole *)

Lemma clean_present_labels (df cleaned : Table) (s : string) :
  _clean df = Ok cleaned -> Some s ∈ target cleaned <-> Some s ∈ target df.
Proof.
  intros Hc. apply clean_inv in Hc as (_ & _ & _ & Ht).
  destruct Ht as [[_ ->]|[_ (m & Hm & ->)]]; [done|].
  apply getitem0_head in Hm.
  assert (Some m ∈ target df) as Hin.
  { assert (m ∈ mode (target df)) as Hmode.
    { destruct (mode (target df)); simpl in Hm; [done|].
      injection Hm as ->. set_solver. }
    by apply mode_elem in Hmode as [? _]. }
  unfold fillna_label. change (map ?f ?l) with (f <$> l).
  rewrite list_elem_of_fmap. split.
  - intros ([x|] & Hx & Hl); [by injection Hx as ->|by injection Hx as ->].
  - intros Hs. by exists (Some s).
Qed.

Lemma clean_well_formed (df cleaned : Table) :
  well_formed_table df -> _clean df = Ok cleaned -> well_formed_table cleaned.
Proof.
  intros [Hcols Htgt] Hc. apply clean_inv in Hc as (Hi & _ & Hs & Ht).
  unfold well_formed_table. rewrite Hi, Hs. split.
  - rewrite Forall_map. eapply Forall_impl; [exact Hcols|].
    intros c Hlen. simpl. by rewrite length_map.
  - destruct Ht as [[_ ->]|[_ (m & _ & ->)]]; [done|].
    unfold fillna_label. by rewrite length_map.
Qed.

Lemma encode_well_formed (df : Table) (X : DataFrame) (y : Series)
      (mapping : list (label * nat)) :
  well_formed_table df -> _encode df = Ok (X, y, mapping) ->
  well_formed_frame X /\ well_formed_series y.
Proof.
  intros [Hcols Htgt] He.
  apply encode_inv in He as (-> & _ & Hi & Hy & _ & _).
  unfold well_formed_frame, well_formed_series. simpl. split.
  - rewrite Forall_map. eapply Forall_impl; [exact Hcols|]. by intros c Hlen.
  - by rewrite Hi, Hy, length_map.
Qed.

Lemma encode_decode (df : Table) (X : DataFrame) (y : Series)
      (mapping : list (label * nat)) :
  _encode df = Ok (X, y, mapping) ->
  omap (decode mapping) (values y) = target df.
Proof.
  intros He. apply encode_inv in He as (_ & _ & _ & Hy & _ & Hm).
  simpl in Hy, Hm. apply omap_of_fmap_Some.
  rewrite Hy, Hm, <- list_fmap_compose. apply list_fmap_ext.
  intros _ lab Hlab%list_elem_of_lookup_2. simpl.
  apply decode_zip, code_in_lookup; [apply unique_python_NoDup|].
  by apply unique_python_elem.
Qed.

Section TransformStage.
Context {S : Type} `{BitGenerator S}.

Lemma transform_data_inv (df : Table) (g : S)
      (split : list (string * partition)) (mapping : list (label * nat)) :
  (transform_data df g).1 = Ok (split, mapping) ->
  exists cleaned X y,
    _clean df = Ok cleaned /\ _encode cleaned = Ok (X, y, mapping) /\
    (_split X y g).1 = Ok split.
Proof.
  unfold transform_data.
  destruct (_clean df) as [cleaned|e] eqn:Hc; [|done].
  destruct (_encode cleaned) as [[[X y] m]|e] eqn:He; [|done].
  destruct (_split X y g) as [[parts|e] g'] eqn:Hs; simpl; [|done].
  intros [= -> ->]. exists cleaned, X, y. rewrite Hs. auto.
Qed.

(** X12: the label mapping of the transform stage lists the distinct labels
    present in the raw table, in increasing order, with the codes
    0, 1, 2, ...: filling the missing labels adds no label, and the missing
    value gets no entry. *)
Theorem transform_mapping_from_raw_labels (df : Table) (g : S)
        (split : list (string * partition)) (mapping : list (label * nat)) :
  (transform_data df g).1 = Ok (split, mapping) ->
  mapping = zip (Some <$> sorted_set (omap id (target df)))
                (seq 0 (length (sorted_set (omap id (target df))))).
Proof.
  intros Ht. apply transform_data_inv in Ht as (cleaned & X & y & Hc & He & _).
  apply encode_inv in He as (_ & _ & _ & _ & _ & ->).
  pose proof (clean_no_missing _ _ Hc) as (_ & Hno & _).
  rewrite (unique_python_cleaned _ Hno), length_fmap.
  assert (sorted_set (omap id (target cleaned))
          = sorted_set (omap id (target df))) as ->; [|done].
  apply sorted_unique; try apply sorted_set_sorted.
  intros s. rewrite !sorted_set_elem, !list_elem_of_omap.
  split; intros ([x|] & Hx & Hs); simpl in Hs; try done;
    injection Hs as ->; exists (Some s); (split; [|done]).
  - by apply (clean_present_labels df cleaned).
  - by apply (clean_present_labels df cleaned).
Qed.

(** X13: through the whole transform stage no label is lost: read back
    through the returned mapping, the training and test codes together are
    the labels of the cleaned table, each as often as there. *)
Theorem transform_labels_preserved (df : Table) (g : S)
        (split : list (string * partition)) (mapping : list (label * nat)) :
  bounded_draws ->
  (transform_data df g).1 = Ok (split, mapping) ->
  exists cleaned y_train y_test,
    _clean df = Ok cleaned /\
    split !! 2 = Some ("y_train", Labels y_train) /\
    split !! 3 = Some ("y_test", Labels y_test) /\
    omap (decode mapping) (values y_train ++ values y_test) ≡ₚ target cleaned.
Proof.
  intros Hb Ht. apply transform_data_inv in Ht as (cleaned & X & y & Hc & He & Hs).
  destruct (split_index_partition X y g split Hb Hs)
    as (X_train & X_test & y_train & y_test & train & test
        & -> & Hlen & Hp & _ & _ & Hy1 & Hy2).
  apply iloc_series_inv in Hy1 as (_ & _ & Hv1), Hy2 as (_ & _ & Hv2).
  assert (values y_train ++ values y_test ≡ₚ values y) as Hy.
  { apply (take_rows_partition train test); [by rewrite Hlen|done|done]. }
  exists cleaned, y_train, y_test. repeat split; try done.
  rewrite Hy. by rewrite (encode_decode _ _ _ _ He).
Qed.

(** X14: on a well-formed table the transform stage raises in three cases
    and in no other: KeyError from the Cleaner, and then the label column
    has a missing value and no present one; IntCastingNaNError (a
    ValueError) from the Cleaner's cast, and then some feature cell is an
    infinity; or ValueError from the Splitter, after cleaning and encoding
    went through. *)
Theorem transform_raises (df : Table) (g : S) (e : exn) :
  bounded_draws -> well_formed_table df ->
  (transform_data df g).1 = Raise e ->
  (e = KeyError /\ no_label df) \/
  (e = IntCastingNaNError /\ infinite_feature df /\ ~ no_label df) \/
  (e = ValueError /\
   exists cleaned X y mapping,
     _clean df = Ok cleaned /\ _encode cleaned = Ok (X, y, mapping) /\
     (_split X y g).1 = Raise ValueError).
Proof.
  intros Hb Hwf. unfold transform_data.
  destruct (_clean df) as [cleaned|e0] eqn:Hc.
  - pose proof (clean_well_formed _ _ Hwf Hc) as Hwfc.
    destruct (encode_total cleaned (proj2 Hwfc)) as (X & y & m & He).
    rewrite He. destruct (encode_well_formed _ _ _ _ Hwfc He) as [HwX Hwy].
    destruct (_split X y g) as [[parts|e0] g'] eqn:Hs; simpl; [done|].
    intros [= ->]. right. right.
    assert (e = ValueError) as ->.
    { revert Hs. unfold _split.
      destruct (train_test_split X y (Some 42%Z) g) as [[r|e'] g''] eqn:Ht;
        simpl.
      - by destruct r as [[[X_train X_test] y_train] y_test].
      - intros [= <- _].
        apply (train_test_split_error_kind X y (Some 42%Z) g e' Hb HwX Hwy).
        by rewrite Ht. }
    split; [done|]. exists cleaned, X, y, m. by rewrite Hs.
  - simpl. intros [= ->].
    apply clean_raise_inv in Hc as [Hkey|Hcast]; [by left|right; by left].
Qed.

End TransformStage.

(** ** More on the Writer *)

Lemma save_partitions_trace {W} `{OS W} (items : list (string * partition))
      (path : string) (w : W) :
  (run (save_partitions items path) w).2
  `prefix_of` map (fun item : string * partition =>
                     to_csv (frame_of_partition item.2)
                            (os_path_join path (item.1 +:+ ".csv")) false)
                  items /\
  ((run (save_partitions items path) w).1.1 = Ok tt ->
   (run (save_partitions items path) w).2
   = map (fun item : string * partition =>
            to_csv (frame_of_partition item.2)
                   (os_path_join path (item.1 +:+ ".csv")) false)
         items) /\
  (forall e, (run (save_partitions items path) w).1.1 = Raise e ->
             (run (save_partitions items path) w).2 <> []).
Proof.
  revert w. induction items as [|[key part] items IH]; intros w; simpl.
  - split; [done|]. split; [done|]. by intros e [=].
  - assert (match part with Labels y => to_frame y | Frame df => df end
            = frame_of_partition part) as -> by by destruct part.
    destruct (os_step _ w) as [[[]|e] w1]; simpl.
    + destruct (IH w1) as (Hp & Hok & _).
      destruct (run (save_partitions items path) w1) as [[r w2] evs].
      simpl in *. split; [by apply prefix_cons|].
      split; [by intros ->%Hok|]. by intros.
    + split; [apply prefix_cons, prefix_nil|]. split; [by intros [=]|].
      by intros.
Qed.

(** X15: the Writer's calls are always an initial part of one fixed
    sequence: the creation of the directory, one CSV file per partition in
    the order of the dictionary, written without the index under the
    partition's key with the suffix [.csv], then the mapping as JSON under
    [label_mapping.json]. When the Writer returns normally it has made either
    all of these calls or the first one alone, and an OSError reaches the
    caller only from a later call than the first. *)
Theorem load_data_call_sequence {W} `{OS W}
        (dfs_dict : list (string * partition) * list (label * nat))
        (path : string) (w : W) :
  (run (load_data dfs_dict path) w).2 `prefix_of` writer_calls dfs_dict path /\
  ((run (load_data dfs_dict path) w).1.1 = Ok tt ->
   (run (load_data dfs_dict path) w).2 = writer_calls dfs_dict path \/
   (run (load_data dfs_dict path) w).2 = [os_makedirs path true]) /\
  (forall e, (run (load_data dfs_dict path) w).1.1 = Raise e ->
             is_OSError e = true ->
             2 <= length (run (load_data dfs_dict path) w).2).
Proof.
  unfold load_data, writer_calls. simpl.
  destruct (os_step (os_makedirs path true) w) as [[[]|e] w1]; simpl.
  - rewrite run_bind.
    destruct (save_partitions_trace dfs_dict.1 path w1) as (Hp & Hok & Hne).
    destruct (run (save_partitions dfs_dict.1 path) w1) as [[[[]|e] w2] evs];
      simpl in *.
    + rewrite (Hok eq_refl).
      destruct (os_step _ w2) as [[[]|e] w3]; simpl.
      * split; [done|]. split; [by left|]. by intros e [=].
      * split; [done|]. split; [by intros [=]|].
        intros e' _ _. rewrite length_app. simpl. lia.
    + split; [by apply prefix_cons, prefix_app_r|]. split; [by intros [=]|].
      intros e' _ _. specialize (Hne e eq_refl). destruct evs; [done|].
      simpl. lia.
  - destruct (is_OSError e) eqn:He; simpl.
    + split; [apply prefix_cons, prefix_nil|]. split; [by right|].
      by intros e' [=].
    + split; [apply prefix_cons, prefix_nil|]. split; [by intros [=]|].
      intros e' [= <-] He'. congruence.
Qed.

Section WriterAfterTransform.
Context {S : Type} `{BitGenerator S}.

(** X16: what the Writer is asked to write after the transform stage: when
    the transform stage returns and the Writer, given its result, returns
    normally after more than the creation of the directory, it has written
    [X_train.csv], [X_test.csv], [y_train.csv] and [y_test.csv], in this
    order, and then [label_mapping.json] with the mapping of the transform
    stage, all under the given path. *)
Theorem transform_then_load_files {W} `{OS W} (df : Table) (g : S)
        (split_df : list (string * partition)) (mapping : list (label * nat))
        (path : string) (w : W) :
  (transform_data df g).1 = Ok (split_df, mapping) ->
  (run (load_data (split_df, mapping) path) w).1.1 = Ok tt ->
  (run (load_data (split_df, mapping) path) w).2 <> [os_makedirs path true] ->
  exists X_train X_test y_train y_test,
    (run (load_data (split_df, mapping) path) w).2
    = [os_makedirs path true;
       to_csv X_train (os_path_join path "X_train.csv") false;
       to_csv X_test (os_path_join path "X_test.csv") false;
       to_csv (to_frame y_train) (os_path_join path "y_train.csv") false;
       to_csv (to_frame y_test) (os_path_join path "y_test.csv") false;
       json_dump_to mapping (os_path_join path "label_mapping.json") 4].
Proof.
  intros Ht Hok Hne.
  apply transform_data_inv in Ht as (cleaned & X & y & _ & _ & Hs).
  apply split_inv in Hs
    as (X_train & X_test & y_train & y_test & ? & ? & ? & ? & ? & ? & -> & _).
  exists X_train, X_test, y_train, y_test.
  revert Hok Hne. unfold load_data.
  cbn [run fst snd]. destruct (os_step (os_makedirs path true) w) as [[[]|e] w1].
  2:{ destruct (is_OSError e); simpl; [done|by intros [=]]. }
  rewrite run_bind.
  destruct (save_partitions_trace
              [("X_train", Frame X_train); ("X_test", Frame X_test);
               ("y_train", Labels y_train); ("y_test", Labels y_test)]
              path w1) as (_ & Hall & _).
  destruct (run (save_partitions _ path) w1) as [[[[]|e] w2] evs];
    [|by intros [=]].
  specialize (Hall eq_refl). simpl in Hall. subst evs. simpl.
  by destruct (os_step _ w2) as [[[]|e] w3].
Qed.

End WriterAfterTransform.

(** ** The further properties on the sample tables *)

Lemma split_partitions_rows_witness :
  @bounded_draws N lcg /\
  (_split sample_ten_X sample_ten_y 0%N).1 = Ok sample_split /\
  exists X_train X_test y_train y_test,
    sample_split = [("X_train", Frame X_train); ("X_test", Frame X_test);
                    ("y_train", Labels y_train); ("y_test", Labels y_test)] /\
    index X_train ++ index X_test ≡ₚ index sample_ten_X /\
    values y_train ++ values y_test ≡ₚ values sample_ten_y.
Proof.
  assert ((_split sample_ten_X sample_ten_y 0%N).1 = Ok sample_split) as Hs
      by (vm_compute; reflexivity).
  split; [exact lcg_bounded|]. split; [exact Hs|].
  exact (split_partitions_rows sample_ten_X sample_ten_y 0%N sample_split
           lcg_bounded Hs).
Defined.

Lemma split_sizes_witness :
  @bounded_draws N lcg /\
  (_split sample_ten_X sample_ten_y 0%N).1 = Ok sample_split /\
  exists X_train X_test y_train y_test,
    sample_split = [("X_train", Frame X_train); ("X_test", Frame X_test);
                    ("y_train", Labels y_train); ("y_test", Labels y_test)] /\
    length (index X_test) = (length (index sample_ten_X) + 4) / 5 /\
    length (values y_test) = (length (index sample_ten_X) + 4) / 5 /\
    length (index X_train)
    = length (index sample_ten_X) - (length (index sample_ten_X) + 4) / 5 /\
    length (values y_train)
    = length (index sample_ten_X) - (length (index sample_ten_X) + 4) / 5.
Proof.
  assert ((_split sample_ten_X sample_ten_y 0%N).1 = Ok sample_split) as Hs
      by (vm_compute; reflexivity).
  split; [exact lcg_bounded|]. split; [exact Hs|].
  exact (split_sizes sample_ten_X sample_ten_y 0%N sample_split
           lcg_bounded Hs).
Defined.

Lemma split_too_many_classes_witness :
  (length (index sample_three_X) + 4) / 5
  < length (np_unique (values sample_three_y)) /\
  (_split sample_three_X sample_three_y 0%N).1 = Raise ValueError.
Proof.
  assert ((length (index sample_three_X) + 4) / 5
          < length (np_unique (values sample_three_y))) as Hk
      by (vm_compute; lia).
  split; [exact Hk|].
  exact (split_too_many_classes sample_three_X sample_three_y 0%N Hk).
Defined.

Lemma split_raises_only_ValueError_witness :
  @bounded_draws N lcg /\
  well_formed_frame sample_fifty_X /\ well_formed_series sample_fifty_y /\
  (_split sample_fifty_X sample_fifty_y 0%N).1 = Raise ValueError /\
  ValueError = ValueError.
Proof.
  assert (well_formed_frame sample_fifty_X) as HwX
      by (repeat constructor).
  assert (well_formed_series sample_fifty_y) as Hwy by reflexivity.
  assert ((_split sample_fifty_X sample_fifty_y 0%N).1 = Raise ValueError)
    as Hs by (vm_compute; reflexivity).
  split; [exact lcg_bounded|]. split; [exact HwX|]. split; [exact Hwy|].
  split; [exact Hs|].
  exact (split_raises_only_ValueError sample_fifty_X sample_fifty_y 0%N
           ValueError lcg_bounded HwX Hwy Hs).
Defined.

Lemma split_returns_witness :
  @bounded_draws N lcg /\
  well_formed_frame sample_ten_X /\ well_formed_series sample_ten_y /\
  length (values sample_ten_y) = length (index sample_ten_X) /\
  (forall c, c ∈ values sample_ten_y ->
             2 <= count_nat c (values sample_ten_y)) /\
  0 < length (np_unique (values sample_ten_y))
  <= (length (index sample_ten_X) + 4) / 5 /\
  exists parts, (_split sample_ten_X sample_ten_y 0%N).1 = Ok parts.
Proof.
  assert (well_formed_frame sample_ten_X) as HwX by (repeat constructor).
  assert (well_formed_series sample_ten_y) as Hwy by reflexivity.
  assert (length (values sample_ten_y) = length (index sample_ten_X)) as Hlen
      by reflexivity.
  assert (forall c, c ∈ values sample_ten_y ->
                    2 <= count_nat c (values sample_ten_y)) as Hcounts.
  { apply Forall_forall. repeat constructor; vm_compute; lia. }
  assert (0 < length (np_unique (values sample_ten_y))
          <= (length (index sample_ten_X) + 4) / 5) as Hk
      by (vm_compute; lia).
  split; [exact lcg_bounded|]. split; [exact HwX|]. split; [exact Hwy|].
  split; [exact Hlen|]. split; [exact Hcounts|]. split; [exact Hk|].
  exact (split_returns sample_ten_X sample_ten_y 0%N lcg_bounded HwX Hwy Hlen
           Hcounts Hk).
Defined.

Lemma split_train_has_every_class_witness :
  @bounded_draws N lcg /\
  (_split sample_ten_X sample_ten_y 0%N).1 = Ok sample_split /\
  1 ∈ values sample_ten_y /\
  exists y_train,
    sample_split !! 2 = Some ("y_train", Labels y_train) /\
    1 ∈ values y_train.
Proof.
  assert ((_split sample_ten_X sample_ten_y 0%N).1 = Ok sample_split) as Hs
      by (vm_compute; reflexivity).
  assert (1 ∈ values sample_ten_y) as Hc by (repeat constructor).
  split; [exact lcg_bounded|]. split; [exact Hs|]. split; [exact Hc|].
  exact (split_train_has_every_class sample_ten_X sample_ten_y 0%N sample_split
           1 lcg_bounded Hs Hc).
Defined.

Lemma clean_labels_order_independent_witness :
  target sample_raw ≡ₚ target sample_raw_reversed /\
  _clean sample_raw = Ok sample_cleaned /\
  mode (target sample_raw) = mode (target sample_raw_reversed) /\
  exists c2, _clean sample_raw_reversed = Ok c2 /\
             target sample_cleaned ≡ₚ target c2.
Proof.
  assert (target sample_raw ≡ₚ target sample_raw_reversed) as Hp.
  { simpl. apply (Permutation_rev [Some "flu"; None; Some "cold"]). }
  assert (_clean sample_raw = Ok sample_cleaned) as H1
      by (vm_compute; reflexivity).
  split; [exact Hp|]. split; [exact H1|].
  pose proof (clean_labels_order_independent sample_raw sample_raw_reversed
                sample_cleaned _ Hp H1 eq_refl) as [Hm Ht].
  split; [exact Hm|]. eexists. split; [reflexivity|exact Ht].
Defined.

Lemma encode_codes_follow_label_order_witness :
  _encode sample_labelled = Ok (sample_X, sample_y, sample_mapping) /\
  target sample_labelled !! 0 = Some (Some "flu") /\
  target sample_labelled !! 1 = Some (Some "cold") /\
  values sample_y !! 0 = Some 2 /\ values sample_y !! 1 = Some 1 /\
  ("flu" = "cold" <-> 2 = 1) /\ (str_lt "flu" "cold" <-> 2 < 1).
Proof.
  assert (_encode sample_labelled = Ok (sample_X, sample_y, sample_mapping))
    as He by (vm_compute; reflexivity).
  split; [exact He|]. repeat (split; [reflexivity|]).
  exact (encode_codes_follow_label_order sample_labelled sample_X sample_y
           sample_mapping 0 1 2 1 "flu" "cold" He eq_refl eq_refl eq_refl
           eq_refl).
Defined.

Lemma encode_codes_dense_witness :
  _encode sample_labelled = Ok (sample_X, sample_y, sample_mapping) /\
  (2 ∈ values sample_y <-> 2 < length sample_mapping).
Proof.
  assert (_encode sample_labelled = Ok (sample_X, sample_y, sample_mapping))
    as He by (vm_compute; reflexivity).
  split; [exact He|].
  exact (encode_codes_dense sample_labelled sample_X sample_y sample_mapping 2
           He).
Defined.

Lemma transform_mapping_from_raw_labels_witness :
  (transform_data sample_ten 0%N).1 = Ok (sample_split, sample_split_mapping) /\
  sample_split_mapping
  = zip (Some <$> sorted_set (omap id (target sample_ten)))
        (seq 0 (length (sorted_set (omap id (target sample_ten))))).
Proof.
  assert ((transform_data sample_ten 0%N).1
          = Ok (sample_split, sample_split_mapping)) as Ht
      by (vm_compute; reflexivity).
  split; [exact Ht|].
  exact (transform_mapping_from_raw_labels sample_ten 0%N sample_split
           sample_split_mapping Ht).
Defined.

Lemma transform_labels_preserved_witness :
  @bounded_draws N lcg /\
  (transform_data sample_ten 0%N).1 = Ok (sample_split, sample_split_mapping) /\
  exists cleaned y_train y_test,
    _clean sample_ten = Ok cleaned /\
    sample_split !! 2 = Some ("y_train", Labels y_train) /\
    sample_split !! 3 = Some ("y_test", Labels y_test) /\
    omap (decode sample_split_mapping) (values y_train ++ values y_test)
    ≡ₚ target cleaned.
Proof.
  assert ((transform_data sample_ten 0%N).1
          = Ok (sample_split, sample_split_mapping)) as Ht
      by (vm_compute; reflexivity).
  split; [exact lcg_bounded|]. split; [exact Ht|].
  exact (transform_labels_preserved sample_ten 0%N sample_split
           sample_split_mapping lcg_bounded Ht).
Defined.

Lemma transform_raises_witness :
  @bounded_draws N lcg /\ well_formed_table sample_infinite /\
  (transform_data sample_infinite 0%N).1 = Raise IntCastingNaNError /\
  ((IntCastingNaNError = KeyError /\ no_label sample_infinite) \/
   (IntCastingNaNError = IntCastingNaNError /\
    infinite_feature sample_infinite /\ ~ no_label sample_infinite) \/
   (IntCastingNaNError = ValueError /\
    exists cleaned X y mapping,
      _clean sample_infinite = Ok cleaned /\
      _encode cleaned = Ok (X, y, mapping) /\
      (_split X y 0%N).1 = Raise ValueError)).
Proof.
  assert (well_formed_table sample_infinite) as Hwf
      by (split; [repeat constructor|reflexivity]).
  assert ((transform_data sample_infinite 0%N).1 = Raise IntCastingNaNError)
    as Ht by (vm_compute; reflexivity).
  split; [exact lcg_bounded|]. split; [exact Hwf|]. split; [exact Ht|].
  exact (transform_raises sample_infinite 0%N IntCastingNaNError lcg_bounded
           Hwf Ht).
Defined.

Lemma transform_then_load_files_witness :
  (transform_data sample_ten 0%N).1 = Ok (sample_split, sample_split_mapping) /\
  (run (load_data (sample_split, sample_split_mapping) "/srv/data/processed")
       (∅ : gmap string node)).1.1 = Ok tt /\
  (run (load_data (sample_split, sample_split_mapping) "/srv/data/processed")
       (∅ : gmap string node)).2
  <> [os_makedirs "/srv/data/processed" true] /\
  exists X_train X_test y_train y_test,
    (run (load_data (sample_split, sample_split_mapping) "/srv/data/processed")
         (∅ : gmap string node)).2
    = [os_makedirs "/srv/data/processed" true;
       to_csv X_train (os_path_join "/srv/data/processed" "X_train.csv") false;
       to_csv X_test (os_path_join "/srv/data/processed" "X_test.csv") false;
       to_csv (to_frame y_train)
              (os_path_join "/srv/data/processed" "y_train.csv") false;
       to_csv (to_frame y_test)
              (os_path_join "/srv/data/processed" "y_test.csv") false;
       json_dump_to sample_split_mapping
                    (os_path_join "/srv/data/processed" "label_mapping.json") 4].
Proof.
  assert ((transform_data sample_ten 0%N).1
          = Ok (sample_split, sample_split_mapping)) as Ht
      by (vm_compute; reflexivity).
  assert ((run (load_data (sample_split, sample_split_mapping)
                          "/srv/data/processed")
               (∅ : gmap string node)).1.1 = Ok tt) as Hok
      by (vm_compute; reflexivity).
  assert ((run (load_data (sample_split, sample_split_mapping)
                          "/srv/data/processed")
               (∅ : gmap string node)).2
          <> [os_makedirs "/srv/data/processed" true]) as Hne
      by (vm_compute; discriminate).
  split; [exact Ht|]. split; [exact Hok|]. split; [exact Hne|].
  exact (transform_then_load_files sample_ten 0%N sample_split
           sample_split_mapping "/srv/data/processed" ∅ Ht Hok Hne).
Defined.

(** ** The cast of the feature cells *)

Lemma Qtrunc_toward_zero (q : Q) :
  ((0 <= q -> inject_Z (Qtrunc q) <= q /\ q < inject_Z (Qtrunc q) + 1) /\
   (q <= 0 -> q <= inject_Z (Qtrunc q) /\ inject_Z (Qtrunc q) - 1 < q))%Q.
Proof.
  destruct q as [n d]. unfold Qtrunc, Qle, Qlt. simpl.
  pose proof (Z.quot_rem' n (Z.pos d)) as Hqr.
  split; intros Hn.
  - assert (0 <= n)%Z as Hn' by lia.
    pose proof (Z.rem_bound_pos n (Z.pos d) Hn' ltac:(lia)). nia.
  - assert (n <= 0)%Z as Hn' by lia.
    pose proof (Z.rem_bound_pos_neg n (Z.pos d) ltac:(lia) Hn'). nia.
Qed.

Lemma Qtrunc_range (q : Q) (a b : Z) :
  (a <= 0)%Z -> (0 <= b)%Z ->
  (a <= Qtrunc q <= b)%Z <->
  (inject_Z a - 1 < q /\ q < inject_Z b + 1)%Q.
Proof.
  intros Ha Hb. destruct q as [n d].
  unfold Qtrunc, Qlt, Qminus, Qplus, Qopp, inject_Z. simpl.
  pose proof (Z.quot_rem' n (Z.pos d)) as Hqr.
  destruct (Z.le_ge_cases 0 n) as [Hn|Hn].
  - pose proof (Z.rem_bound_pos n (Z.pos d) Hn ltac:(lia)).
    assert (0 <= n ÷ Z.pos d)%Z by (apply Z.quot_pos; lia). nia.
  - pose proof (Z.rem_bound_pos_neg n (Z.pos d) ltac:(lia) Hn).
    assert (n ÷ Z.pos d <= 0)%Z by (apply Z.quot_le_upper_bound; lia).
    nia.
Qed.

Lemma float_to_int64_range (q : Q) :
  (INT64_MIN <= float_to_int64 q <= INT64_MAX)%Z.
Proof.
  unfold float_to_int64. cbv zeta.
  destruct (_ && _) eqn:Hr.
  - apply andb_true_iff in Hr as [?%Z.leb_le ?%Z.leb_le]. done.
  - unfold INT64_MIN, INT64_MAX. lia.
Qed.

(** X17: a fractional feature cell is cast to int64: whenever the Cleaner
    returns, the cell at the same place of the cleaned table is an int64
    value; for a value whose truncation fits int64 it is the integer next to
    the value on the side of zero (so a cell between -1 and 1 becomes 0 and
    a whole number keeps its value), and for a value beyond that range it is
    [-2^63]. *)
Theorem clean_casts_toward_zero (df df' : Table) (k i : nat) (name : string)
        (col : list num) (q : Q) :
  _clean df = Ok df' ->
  symptoms df !! k = Some (name, col) -> col !! i = Some (Float q) ->
  exists (col' : list num) (z : Z),
    symptoms df' !! k = Some (name, col') /\ col' !! i = Some (Int z) /\
    (INT64_MIN <= z <= INT64_MAX)%Z /\
    ((inject_Z INT64_MIN - 1 < q /\ q < inject_Z INT64_MAX + 1 ->
      (0 <= q -> inject_Z z <= q /\ q < inject_Z z + 1) /\
      (q <= 0 -> q <= inject_Z z /\ inject_Z z - 1 < q)) /\
     (q <= inject_Z INT64_MIN - 1 \/ inject_Z INT64_MAX + 1 <= q ->
      z = INT64_MIN))%Q.
Proof.
  intros Hc Hk Hi. apply clean_inv in Hc as (_ & _ & Hs & _).
  exists (map cleaned_cell col), (float_to_int64 q). split; [|split].
  - rewrite Hs. change (map ?f ?l) with (f <$> l).
    by rewrite list_lookup_fmap, Hk.
  - change (map ?f ?l) with (f <$> l). by rewrite list_lookup_fmap, Hi.
  - split; [apply float_to_int64_range|].
    assert (INT64_MIN <= 0)%Z as Hmin by (unfold INT64_MIN; lia).
    assert (0 <= INT64_MAX)%Z as Hmax by (unfold INT64_MAX; lia).
    pose proof (Qtrunc_range q INT64_MIN INT64_MAX Hmin Hmax) as Hrange.
    unfold float_to_int64. cbv zeta. split.
    + intros Hin. apply Hrange in Hin as [H1 H2].
      rewrite (proj2 (Z.leb_le _ _) H1), (proj2 (Z.leb_le _ _) H2). simpl.
      apply Qtrunc_toward_zero.
    + intros Hout. destruct (_ && _) eqn:Hr; [|done]. exfalso.
      apply andb_true_iff in Hr as [H1%Z.leb_le H2%Z.leb_le].
      destruct (proj1 Hrange (conj H1 H2)) as [Hlo Hhi].
      destruct Hout as [Hout|Hout].
      * exact (Qlt_not_le _ _ Hlo Hout).
      * exact (Qlt_not_le _ _ Hhi Hout).
Qed.

Lemma clean_casts_toward_zero_witness :
  _clean sample_huge = Ok sample_huge_cleaned /\
  symptoms sample_huge !! 0
  = Some ("fever", [Float (1 # 2); Float (10000000000000000000 # 1)]) /\
  [Float (1 # 2); Float (10000000000000000000 # 1)] !! 1
  = Some (Float (10000000000000000000 # 1)) /\
  exists (col' : list num) (z : Z),
    symptoms sample_huge_cleaned !! 0 = Some ("fever", col') /\
    col' !! 1 = Some (Int z) /\
    (INT64_MIN <= z <= INT64_MAX)%Z /\
    ((inject_Z INT64_MIN - 1 < 10000000000000000000 # 1 /\
      10000000000000000000 # 1 < inject_Z INT64_MAX + 1 ->
      (0 <= 10000000000000000000 # 1 ->
       inject_Z z <= 10000000000000000000 # 1 /\
       10000000000000000000 # 1 < inject_Z z + 1) /\
      (10000000000000000000 # 1 <= 0 ->
       10000000000000000000 # 1 <= inject_Z z /\
       inject_Z z - 1 < 10000000000000000000 # 1)) /\
     (10000000000000000000 # 1 <= inject_Z INT64_MIN - 1 \/
      inject_Z INT64_MAX + 1 <= 10000000000000000000 # 1 ->
      z = INT64_MIN))%Q.
Proof.
  assert (_clean sample_huge = Ok sample_huge_cleaned) as Hc
      by (vm_compute; reflexivity).
  split; [exact Hc|]. split; [reflexivity|]. split; [reflexivity|].
  exact (clean_casts_toward_zero sample_huge sample_huge_cleaned 0 1 "fever"
           [Float (1 # 2); Float (10000000000000000000 # 1)]
           (10000000000000000000 # 1) Hc eq_refl eq_refl).
Defined.

(** ** More on the Reader *)

(** X18: apart from FileNotFoundError the Reader adds nothing to the load:
    it asks for the absolute path of the file name under [data], loads that
    path, and returns the frame or raises the exception it gets from the
    load. *)
Theorem extract_data_passes_through {W} `{OS W} (w w1 w2 : W)
        (fileName p : string) (r : result DataFrame) :
  os_step (os_path_abspath (os_path_join "data" fileName)) w = (Ok p, w1) ->
  os_step (pd_read_csv p) w1 = (r, w2) ->
  r <> Raise FileNotFoundError ->
  run (extract_data fileName) w
  = (r, w2, [os_path_abspath (os_path_join "data" fileName); pd_read_csv p]).
Proof.
  intros Habs Hread Hne. unfold extract_data. rewrite run_bind. simpl.
  rewrite Habs. simpl. rewrite Hread. destruct r as [df|e]; [done|].
  by destruct e.
Qed.

Lemma extract_data_passes_through_witness :
  os_step (os_path_abspath (os_path_join "data" "raw_data.csv")) sample_disk
  = (Ok "/srv/data/raw_data.csv", sample_disk) /\
  os_step (pd_read_csv "/srv/data/raw_data.csv") sample_disk
  = (Ok (frame_of_table sample_raw), sample_disk) /\
  Ok (frame_of_table sample_raw) <> Raise FileNotFoundError /\
  run (extract_data "raw_data.csv") sample_disk
  = (Ok (frame_of_table sample_raw), sample_disk,
     [os_path_abspath (os_path_join "data" "raw_data.csv");
      pd_read_csv "/srv/data/raw_data.csv"]).
Proof.
  assert (os_step (os_path_abspath (os_path_join "data" "raw_data.csv"))
                  sample_disk
          = (Ok "/srv/data/raw_data.csv", sample_disk)) as Habs by reflexivity.
  assert (os_step (pd_read_csv "/srv/data/raw_data.csv") sample_disk
          = (Ok (frame_of_table sample_raw), sample_disk)) as Hread
      by reflexivity.
  assert (Ok (frame_of_table sample_raw) <> Raise FileNotFoundError) as Hne
      by discriminate.
  split; [exact Habs|]. split; [exact Hread|]. split; [exact Hne|].
  exact (extract_data_passes_through sample_disk sample_disk sample_disk
           "raw_data.csv" "/srv/data/raw_data.csv"
           (Ok (frame_of_table sample_raw)) Habs Hread Hne).
Defined.

(** ** The Airflow tasks *)

Lemma run_task_bind {W} `{Worker W} {A B} (m : task A) (f : A -> task B)
      (w : W) :
  run_task (m ≫= f) w =
  match run_task m w with
  | (Ok a, w', evs) =>
      let '(r, w'', evs') := run_task (f a) w' in (r, w'', evs ++ evs')
  | (Raise e, w', evs) => (Raise e, w', evs)
  end.
Proof.
  revert w. induction m as [a|e|c k IH]; intros w; simpl.
  - change (Finish a ≫= f) with (f a).
    by destruct (run_task (f a) w) as [[r w'] evs].
  - done.
  - change (Ask c k ≫= f) with (Ask c (fun r => k r ≫= f)). simpl.
    destruct (worker_step c w) as [r w1]. rewrite IH.
    destruct (run_task (k r) w1) as [[[a|e] w2] evs]; [|done].
    by destruct (run_task (f a) w2) as [[r' w3] evs'].
Qed.

(** X19: the extract task pushes a path only for a frame that is not empty
    and that it has pickled at that path before: whenever a push is among
    its calls, the calls are the creation of the temporary directory, the
    Reader's two calls, the pickling of a non-empty frame at
    [/tmp/airflow_data/raw_data.pkl] and the push of this path under the key
    [data_file_path]. *)
Theorem airflow_extract_pushes_after_pickling {W} `{Worker W} (w : W)
        (key value : string) :
  xcom_push key value ∈ (run_task airflow_extract_data w).2 ->
  key = "data_file_path" /\ value = "/tmp/airflow_data/raw_data.pkl" /\
  exists (p : string) (df : DataFrame),
    empty df = false /\
    (run_task airflow_extract_data w).2
    = [core (os_makedirs "/tmp/airflow_data" true);
       core (os_path_abspath "data/raw_data.csv");
       core (pd_read_csv p);
       to_pickle df "/tmp/airflow_data/raw_data.pkl";
       xcom_push "data_file_path" "/tmp/airflow_data/raw_data.pkl"].
Proof.
  unfold airflow_extract_data. simpl.
  destruct (worker_step _ w) as [[[]|e] w1]; simpl; [|set_solver].
  destruct (worker_step _ w1) as [[p|e] w2]; simpl; [|set_solver].
  destruct (worker_step _ w2) as [[df|e] w3]; simpl.
  - destruct (empty df) eqn:Hempty; simpl; [set_solver|].
    destruct (worker_step _ w3) as [[[]|e] w4]; simpl; [|set_solver].
    destruct (worker_step _ w4) as [[[]|e] w5]; simpl.
    + intros Hin. assert (key = "data_file_path"
                          /\ value = "/tmp/airflow_data/raw_data.pkl")
        as [-> ->] by set_solver.
      split; [done|]. split; [done|]. by exists p, df.
    + intros Hin. assert (key = "data_file_path"
                          /\ value = "/tmp/airflow_data/raw_data.pkl")
        as [-> ->] by set_solver.
      split; [done|]. split; [done|]. by exists p, df.
  - destruct e; simpl; set_solver.
Qed.

Lemma airflow_extract_pushes_after_pickling_witness :
  xcom_push "data_file_path" "/tmp/airflow_data/raw_data.pkl"
  ∈ (run_task airflow_extract_data staged_worker).2 /\
  "data_file_path" = "data_file_path" /\
  "/tmp/airflow_data/raw_data.pkl" = "/tmp/airflow_data/raw_data.pkl" /\
  exists (p : string) (df : DataFrame),
    empty df = false /\
    (run_task airflow_extract_data staged_worker).2
    = [core (os_makedirs "/tmp/airflow_data" true);
       core (os_path_abspath "data/raw_data.csv");
       core (pd_read_csv p);
       to_pickle df "/tmp/airflow_data/raw_data.pkl";
       xcom_push "data_file_path" "/tmp/airflow_data/raw_data.pkl"].
Proof.
  assert ((run_task airflow_extract_data staged_worker).2
          = [core (os_makedirs "/tmp/airflow_data" true);
             core (os_path_abspath "data/raw_data.csv");
             core (pd_read_csv "/srv/data/raw_data.csv");
             to_pickle (frame_of_table sample_raw)
                       "/tmp/airflow_data/raw_data.pkl";
             xcom_push "data_file_path" "/tmp/airflow_data/raw_data.pkl"])
    as Hcalls by (vm_compute; reflexivity).
  assert (xcom_push "data_file_path" "/tmp/airflow_data/raw_data.pkl"
          ∈ (run_task airflow_extract_data staged_worker).2) as Hin
      by (rewrite Hcalls; repeat constructor).
  split; [exact Hin|].
  exact (airflow_extract_pushes_after_pickling staged_worker "data_file_path"
           "/tmp/airflow_data/raw_data.pkl" Hin).
Defined.

(** X20: a data file that is missing or holds no rows ends the extract task
    with ValueError: the Reader turns the missing file into an empty frame,
    the task refuses an empty frame, and nothing is pickled or pushed. *)
Theorem airflow_extract_no_data {W} `{Worker W} (w w1 w2 w3 : W) (p : string)
        (r : result DataFrame) :
  worker_step (core (os_makedirs TEMP_DIR true)) w = (Ok tt, w1) ->
  worker_step (core (os_path_abspath (os_path_join "data" DATA_FILE_NAME))) w1
  = (Ok p, w2) ->
  worker_step (core (pd_read_csv p)) w2 = (r, w3) ->
  r = Raise FileNotFoundError \/ (exists df, r = Ok df /\ empty df = true) ->
  run_task airflow_extract_data w
  = (Raise ValueError, w3,
     [core (os_makedirs TEMP_DIR true);
      core (os_path_abspath (os_path_join "data" DATA_FILE_NAME));
      core (pd_read_csv p)]).
Proof.
  intros Hmk Habs Hread Hr. unfold airflow_extract_data. simpl.
  change (worker_step (core (os_makedirs "/tmp/airflow_data" true)) w)
    with (worker_step (core (os_makedirs TEMP_DIR true)) w).
  rewrite Hmk. simpl.
  change (worker_step (core (os_path_abspath "data/raw_data.csv")) w1)
    with (worker_step
            (core (os_path_abspath (os_path_join "data" DATA_FILE_NAME))) w1).
  rewrite Habs. simpl. rewrite Hread.
  destruct Hr as [->|(df & -> & Hempty)]; simpl; [done|].
  by rewrite Hempty.
Qed.

Lemma airflow_extract_no_data_witness :
  worker_step (core (os_makedirs TEMP_DIR true)) fresh_worker
  = (Ok tt, with_files fresh_worker {["/tmp/airflow_data" := Directory]}) /\
  worker_step (core (os_path_abspath (os_path_join "data" DATA_FILE_NAME)))
              (with_files fresh_worker {["/tmp/airflow_data" := Directory]})
  = (Ok "/srv/data/raw_data.csv",
     with_files fresh_worker {["/tmp/airflow_data" := Directory]}) /\
  worker_step (core (pd_read_csv "/srv/data/raw_data.csv"))
              (with_files fresh_worker {["/tmp/airflow_data" := Directory]})
  = (Raise FileNotFoundError,
     with_files fresh_worker {["/tmp/airflow_data" := Directory]}) /\
  run_task airflow_extract_data fresh_worker
  = (Raise ValueError,
     with_files fresh_worker {["/tmp/airflow_data" := Directory]},
     [core (os_makedirs TEMP_DIR true);
      core (os_path_abspath (os_path_join "data" DATA_FILE_NAME));
      core (pd_read_csv "/srv/data/raw_data.csv")]).
Proof.
  assert (worker_step (core (os_makedirs TEMP_DIR true)) fresh_worker
          = (Ok tt, with_files fresh_worker
                      {["/tmp/airflow_data" := Directory]})) as Hmk
      by (vm_compute; reflexivity).
  assert (worker_step
            (core (os_path_abspath (os_path_join "data" DATA_FILE_NAME)))
            (with_files fresh_worker {["/tmp/airflow_data" := Directory]})
          = (Ok "/srv/data/raw_data.csv",
             with_files fresh_worker {["/tmp/airflow_data" := Directory]}))
    as Habs by (vm_compute; reflexivity).
  assert (worker_step (core (pd_read_csv "/srv/data/raw_data.csv"))
            (with_files fresh_worker {["/tmp/airflow_data" := Directory]})
          = (Raise FileNotFoundError,
             with_files fresh_worker {["/tmp/airflow_data" := Directory]}))
    as Hread by (vm_compute; reflexivity).
  split; [exact Hmk|]. split; [exact Habs|]. split; [exact Hread|].
  exact (airflow_extract_no_data fresh_worker _ _ _ "/srv/data/raw_data.csv"
           (Raise FileNotFoundError) Hmk Habs Hread (or_introl eq_refl)).
Defined.

Section TransformTask.
Context {S : Type} `{BitGenerator S}.

(** X21: the transform task pickles and pushes only what the transform stage
    has returned for the frame it has unpickled.  Whenever a pickling or a
    push is among its calls, the pull of the extract task's path has returned
    a path, the check of this path has succeeded, the unpickling at this
    path has returned a frame, the transform stage has returned for this
    very frame, what is pickled is its result, at
    [/tmp/airflow_data/transformed_data_set.pkl], and what is pushed is this
    path under the key [data_file_path], after the pickling.  When the
    transform stage raises for the frame that was unpickled, the task raises
    the same exception after these three calls: nothing is pickled and
    nothing is pushed. *)
Theorem airflow_transform_pushes_after_transform {W} `{Worker W} (g : S)
        (w : W) :
  (forall c : task_call,
     c ∈ (run_task (airflow_transform_data g) w).2 ->
     (exists obj q, c = pickle_dump obj q) \/
     (exists key value, c = xcom_push key value) ->
     exists (p : string) (df : Table) transformed_data (w1 w2 w3 : W),
       worker_step (xcom_pull "extract_task" "data_file_path") w
       = (Ok (Some p), w1) /\
       worker_step (os_path_exists p) w1 = (Ok true, w2) /\
       worker_step (read_pickle p) w2 = (Ok df, w3) /\
       (transform_data df g).1 = Ok transformed_data /\
       ((c = pickle_dump transformed_data
                         "/tmp/airflow_data/transformed_data_set.pkl" /\
         [xcom_pull "extract_task" "data_file_path";
          os_path_exists p;
          read_pickle p;
          pickle_dump transformed_data
                      "/tmp/airflow_data/transformed_data_set.pkl"]
         `prefix_of` (run_task (airflow_transform_data g) w).2) \/
        (c = xcom_push "data_file_path"
                       "/tmp/airflow_data/transformed_data_set.pkl" /\
         (run_task (airflow_transform_data g) w).2
         = [xcom_pull "extract_task" "data_file_path";
            os_path_exists p;
            read_pickle p;
            pickle_dump transformed_data
                        "/tmp/airflow_data/transformed_data_set.pkl";
            xcom_push "data_file_path"
                      "/tmp/airflow_data/transformed_data_set.pkl"]))) /\
  (forall (p : string) (df : Table) (e : exn) (w1 w2 w3 : W),
     worker_step (xcom_pull "extract_task" "data_file_path") w
     = (Ok (Some p), w1) ->
     p <> "" ->
     worker_step (os_path_exists p) w1 = (Ok true, w2) ->
     worker_step (read_pickle p) w2 = (Ok df, w3) ->
     (transform_data df g).1 = Raise e ->
     run_task (airflow_transform_data g) w
     = (Raise e, w3,
        [xcom_pull "extract_task" "data_file_path";
         os_path_exists p;
         read_pickle p])).
Proof.
  split.
  - intros c. unfold airflow_transform_data. simpl.
    destruct (worker_step _ w) as [[[p|]|e] w1] eqn:Hpull; simpl;
      [|set_solver..].
    case_bool_decide as Hp; simpl; [set_solver|].
    destruct (worker_step _ w1) as [[[]|e] w2] eqn:Hex; simpl; [|set_solver..].
    destruct (worker_step _ w2) as [[df|e] w3] eqn:Hread; simpl;
      [|set_solver].
    destruct (transform_data df g).1 as [transformed_data|e] eqn:Ht; simpl;
      [|set_solver].
    intros Hin Hkind. exists p, df, transformed_data, w1, w2, w3.
    repeat (split; [done|]).
    destruct (worker_step _ w3) as [[[]|e] w4]; simpl in *.
    + destruct (worker_step _ w4) as [[[]|e] w5]; simpl in *.
      * assert (c = pickle_dump transformed_data
                      "/tmp/airflow_data/transformed_data_set.pkl"
                \/ c = xcom_push "data_file_path"
                          "/tmp/airflow_data/transformed_data_set.pkl")
          as [->| ->] by set_solver.
        -- left. split; [done|]. by eexists [_].
        -- by right.
      * assert (c = pickle_dump transformed_data
                      "/tmp/airflow_data/transformed_data_set.pkl"
                \/ c = xcom_push "data_file_path"
                          "/tmp/airflow_data/transformed_data_set.pkl")
          as [->| ->] by set_solver.
        -- left. split; [done|]. by eexists [_].
        -- by right.
    + assert (c = pickle_dump transformed_data
                    "/tmp/airflow_data/transformed_data_set.pkl") as ->
          by set_solver.
      left. split; [done|]. by exists [].
  - intros p df e w1 w2 w3 Hpull Hp Hex Hread Ht.
    unfold airflow_transform_data. simpl.
    change (worker_step (xcom_pull "extract_task" XCOM_KEY_PATH) w)
      with (worker_step (xcom_pull "extract_task" "data_file_path") w).
    rewrite Hpull. simpl.
    rewrite (bool_decide_eq_false_2 _ Hp). simpl. rewrite Hex. simpl.
    rewrite Hread. simpl. by rewrite Ht.
Qed.

End TransformTask.

Lemma airflow_transform_pushes_after_transform_witness :
  xcom_push "data_file_path" "/tmp/airflow_data/transformed_data_set.pkl"
  ∈ (run_task (airflow_transform_data 0%N) extracted_worker).2 /\
  exists (p : string) (df : Table) transformed_data (w1 w2 w3 : machine),
    worker_step (xcom_pull "extract_task" "data_file_path") extracted_worker
    = (Ok (Some p), w1) /\
    worker_step (os_path_exists p) w1 = (Ok true, w2) /\
    worker_step (read_pickle p) w2 = (Ok df, w3) /\
    (transform_data df 0%N).1 = Ok transformed_data /\
    ((xcom_push "data_file_path" "/tmp/airflow_data/transformed_data_set.pkl"
      = pickle_dump transformed_data
                    "/tmp/airflow_data/transformed_data_set.pkl" /\
      [xcom_pull "extract_task" "data_file_path";
       os_path_exists p;
       read_pickle p;
       pickle_dump transformed_data
                   "/tmp/airflow_data/transformed_data_set.pkl"]
      `prefix_of` (run_task (airflow_transform_data 0%N) extracted_worker).2) \/
     (xcom_push "data_file_path" "/tmp/airflow_data/transformed_data_set.pkl"
      = xcom_push "data_file_path"
                  "/tmp/airflow_data/transformed_data_set.pkl" /\
      (run_task (airflow_transform_data 0%N) extracted_worker).2
      = [xcom_pull "extract_task" "data_file_path";
         os_path_exists p;
         read_pickle p;
         pickle_dump transformed_data
                     "/tmp/airflow_data/transformed_data_set.pkl";
         xcom_push "data_file_path"
                   "/tmp/airflow_data/transformed_data_set.pkl"])).
Proof.
  assert ((run_task (airflow_transform_data 0%N) extracted_worker).2
          = [xcom_pull "extract_task" "data_file_path";
             os_path_exists "/tmp/airflow_data/raw_data.pkl";
             read_pickle "/tmp/airflow_data/raw_data.pkl";
             pickle_dump (sample_split, sample_split_mapping)
                         "/tmp/airflow_data/transformed_data_set.pkl";
             xcom_push "data_file_path"
                       "/tmp/airflow_data/transformed_data_set.pkl"])
    as Hcalls by (vm_compute; reflexivity).
  assert (xcom_push "data_file_path"
                    "/tmp/airflow_data/transformed_data_set.pkl"
          ∈ (run_task (airflow_transform_data 0%N) extracted_worker).2) as Hin
      by (rewrite Hcalls; repeat constructor).
  split; [exact Hin|].
  exact (proj1 (airflow_transform_pushes_after_transform 0%N extracted_worker)
           (xcom_push "data_file_path"
                      "/tmp/airflow_data/transformed_data_set.pkl")
           Hin
           (or_intror (ex_intro _ "data_file_path"
                         (ex_intro _ "/tmp/airflow_data/transformed_data_set.pkl"
                            eq_refl)))).
Defined.

(** X22: the load task raises FileNotFoundError when the transform task has
    pushed no path, an empty path, or a path that does not exist; it then
    makes no call beyond the pull and the check of the path: nothing is
    unpickled and nothing is written. *)
Theorem airflow_load_path_missing {W} `{Worker W} (w w1 : W)
        (path : option string) :
  worker_step (xcom_pull "transform_task" XCOM_KEY_PATH) w = (Ok path, w1) ->
  path = None \/ path = Some "" \/
  (exists p w2, path = Some p /\
                worker_step (os_path_exists p) w1 = (Ok false, w2)) ->
  (run_task airflow_load_data w).1.1 = Raise FileNotFoundError /\
  Forall (fun c => c = xcom_pull "transform_task" XCOM_KEY_PATH \/
                   exists p, c = os_path_exists p)
         (run_task airflow_load_data w).2.
Proof.
  intros Hpull Hpath. unfold airflow_load_data. simpl.
  change (worker_step (xcom_pull "transform_task" "data_file_path") w)
    with (worker_step (xcom_pull "transform_task" XCOM_KEY_PATH) w).
  rewrite Hpull. simpl.
  destruct Hpath as [->|[->|(p & w2 & -> & Hex)]]; simpl.
  - split; [done|]. repeat constructor.
  - split; [done|]. repeat constructor.
  - case_bool_decide as Hp; simpl.
    + split; [done|]. repeat constructor.
    + rewrite Hex. simpl. split; [done|].
      constructor; [by left|]. constructor; [right; by exists p|constructor].
Qed.

Lemma airflow_load_path_missing_witness :
  worker_step (xcom_pull "transform_task" XCOM_KEY_PATH) fresh_worker
  = (Ok None, fresh_worker) /\
  (run_task airflow_load_data fresh_worker).1.1 = Raise FileNotFoundError /\
  Forall (fun c => c = xcom_pull "transform_task" XCOM_KEY_PATH \/
                   exists p, c = os_path_exists p)
         (run_task airflow_load_data fresh_worker).2.
Proof.
  assert (worker_step (xcom_pull "transform_task" XCOM_KEY_PATH) fresh_worker
          = (Ok None, fresh_worker)) as Hpull by reflexivity.
  split; [exact Hpull|].
  exact (airflow_load_path_missing fresh_worker fresh_worker None Hpull
           (or_introl eq_refl)).
Defined.

(** X23: when the output directory cannot be created, the load task still
    finishes normally: the Writer swallows the OSError, so the task ends
    without an exception after the pull, the check of the pulled path, the
    unpickling of [/tmp/airflow_data/transformed_data_set.pkl] (whatever path
    was pulled), the resolution of [data/processed] and the failed
    [makedirs]; no file is written. *)
Theorem airflow_load_directory_failure {W} `{Worker W} (w w1 w2 w3 w4 w5 : W)
        (p out : string)
        (loaded_data : list (string * partition) * list (label * nat))
        (e : exn) :
  worker_step (xcom_pull "transform_task" XCOM_KEY_PATH) w = (Ok (Some p), w1) ->
  p <> "" ->
  worker_step (os_path_exists p) w1 = (Ok true, w2) ->
  worker_step (pickle_load (os_path_join TEMP_DIR "transformed_data_set.pkl"))
              w2
  = (Ok loaded_data, w3) ->
  worker_step (core (os_path_abspath FINAL_PROCESSED_PATH)) w3 = (Ok out, w4) ->
  worker_step (core (os_makedirs out true)) w4 = (Raise e, w5) ->
  is_OSError e = true ->
  run_task airflow_load_data w
  = (Ok tt, w5,
     [xcom_pull "transform_task" XCOM_KEY_PATH;
      os_path_exists p;
      pickle_load (os_path_join TEMP_DIR "transformed_data_set.pkl");
      core (os_path_abspath FINAL_PROCESSED_PATH);
      core (os_makedirs out true)]).
Proof.
  intros Hpull Hp Hex Hload Habs Hmk He. unfold airflow_load_data. simpl.
  change (worker_step (xcom_pull "transform_task" "data_file_path") w)
    with (worker_step (xcom_pull "transform_task" XCOM_KEY_PATH) w).
  rewrite Hpull. simpl. rewrite (bool_decide_eq_false_2 _ Hp). simpl.
  rewrite Hex. simpl.
  change (worker_step
            (pickle_load "/tmp/airflow_data/transformed_data_set.pkl") w2)
    with (worker_step
            (pickle_load (os_path_join TEMP_DIR "transformed_data_set.pkl"))
            w2).
  rewrite Hload. simpl.
  change (worker_step (core (os_path_abspath "data/processed")) w3)
    with (worker_step (core (os_path_abspath FINAL_PROCESSED_PATH)) w3).
  rewrite Habs. simpl. rewrite Hmk. simpl. by rewrite He.
Qed.

Lemma airflow_load_directory_failure_witness :
  worker_step (xcom_pull "transform_task" XCOM_KEY_PATH) read_only_worker
  = (Ok (Some "/tmp/airflow_data/transformed_data_set.pkl"),
     read_only_worker) /\
  "/tmp/airflow_data/transformed_data_set.pkl" <> "" /\
  worker_step (os_path_exists "/tmp/airflow_data/transformed_data_set.pkl")
              read_only_worker
  = (Ok true, read_only_worker) /\
  worker_step (pickle_load (os_path_join TEMP_DIR "transformed_data_set.pkl"))
              read_only_worker
  = (Ok (sample_split, sample_split_mapping), read_only_worker) /\
  worker_step (core (os_path_abspath FINAL_PROCESSED_PATH)) read_only_worker
  = (Ok "/srv/data/processed", with_files read_only_worker (files read_only_worker)) /\
  worker_step (core (os_makedirs "/srv/data/processed" true))
              (with_files read_only_worker (files read_only_worker))
  = (Raise PermissionError,
     with_files read_only_worker (files read_only_worker)) /\
  is_OSError PermissionError = true /\
  run_task airflow_load_data read_only_worker
  = (Ok tt, with_files read_only_worker (files read_only_worker),
     [xcom_pull "transform_task" XCOM_KEY_PATH;
      os_path_exists "/tmp/airflow_data/transformed_data_set.pkl";
      pickle_load (os_path_join TEMP_DIR "transformed_data_set.pkl");
      core (os_path_abspath FINAL_PROCESSED_PATH);
      core (os_makedirs "/srv/data/processed" true)]).
Proof.
  assert (worker_step (xcom_pull "transform_task" XCOM_KEY_PATH)
                      read_only_worker
          = (Ok (Some "/tmp/airflow_data/transformed_data_set.pkl"),
             read_only_worker)) as Hpull by (vm_compute; reflexivity).
  assert ("/tmp/airflow_data/transformed_data_set.pkl" <> "") as Hp
      by discriminate.
  assert (worker_step
            (os_path_exists "/tmp/airflow_data/transformed_data_set.pkl")
            read_only_worker
          = (Ok true, read_only_worker)) as Hex by (vm_compute; reflexivity).
  assert (worker_step
            (pickle_load (os_path_join TEMP_DIR "transformed_data_set.pkl"))
            read_only_worker
          = (Ok (sample_split, sample_split_mapping), read_only_worker))
    as Hload by (vm_compute; reflexivity).
  assert (worker_step (core (os_path_abspath FINAL_PROCESSED_PATH))
                      read_only_worker
          = (Ok "/srv/data/processed",
             with_files read_only_worker (files read_only_worker))) as Habs
      by (vm_compute; reflexivity).
  assert (worker_step (core (os_makedirs "/srv/data/processed" true))
                      (with_files read_only_worker (files read_only_worker))
          = (Raise PermissionError,
             with_files read_only_worker (files read_only_worker))) as Hmk
      by (vm_compute; reflexivity).
  assert (is_OSError PermissionError = true) as He by reflexivity.
  split; [exact Hpull|]. split; [exact Hp|]. split; [exact Hex|].
  split; [exact Hload|]. split; [exact Habs|]. split; [exact Hmk|].
  split; [exact He|].
  exact (airflow_load_directory_failure read_only_worker _ _ _ _ _
           "/tmp/airflow_data/transformed_data_set.pkl" "/srv/data/processed"
           (sample_split, sample_split_mapping) PermissionError
           Hpull Hp Hex Hload Habs Hmk He).
Defined.

(** ** The split is stratified *)

Lemma filter_all {A} (P : A -> Prop) `{forall x, Decision (P x)} (l : list A) :
  Forall P l -> filter P l = l.
Proof. induction 1; [done|]. rewrite filter_cons_True by done. by f_equal. Qed.

Lemma count_nat_app (c : nat) (a b : list nat) :
  count_nat c (a ++ b) = count_nat c a + count_nat c b.
Proof. unfold count_nat. by rewrite filter_app, length_app. Qed.

Lemma count_nat_perm (c : nat) (a b : list nat) :
  a ≡ₚ b -> count_nat c a = count_nat c b.
Proof. intros Hp. unfold count_nat. by rewrite Hp. Qed.

Lemma count_nat_selected (c : nat) (y idx : list nat) :
  count_nat c (omap (fun p => y !! p) idx)
  = length (filter (fun p => y !! p = Some c) idx).
Proof.
  induction idx as [|p idx IH]; [done|].
  change (omap (fun p => y !! p) (p :: idx))
    with (match y !! p with
          | Some v => v :: omap (fun p => y !! p) idx
          | None => omap (fun p => y !! p) idx
          end).
  destruct (y !! p) as [v|] eqn:Hv.
  - rewrite count_nat_cons, IH. destruct (decide (v = c)) as [->|Hne].
    + by rewrite filter_cons_True by done.
    + rewrite filter_cons_False by congruence. done.
  - rewrite IH. by rewrite filter_cons_False by congruence.
Qed.

Section Stratified.
Context {S : Type} `{BitGenerator S}.
Hypothesis Hbounded : bounded_draws.

(** The loop over the classes puts [n_i[k]] positions of class [k] into the
    training positions. *)
Lemma draw_classes_train_class (y_indices cs ns ts : list nat) (i : nat)
      (train test : list nat) (s : S) (k : nat) :
  Forall2 le ns cs -> length ts = length cs ->
  (forall j c, cs !! j = Some c ->
               length (class_indices y_indices (i + j)) = c) ->
  length (filter (fun p => y_indices !! p = Some k)
                 (draw_classes y_indices cs ns ts i train test s).1.1)
  = length (filter (fun p => y_indices !! p = Some k) train)
    + (if decide (i <= k) then default 0 (ns !! (k - i)) else 0).
Proof.
  intros Hle. revert ts i train test s.
  induction Hle as [|n0 c ns cs Hnc Hle IH]; intros ts i train test s Hts Hcs.
  - cbn [draw_classes fst]. rewrite lookup_nil. simpl.
    destruct (decide (i <= k)); lia.
  - destruct ts as [|t ts]; [done|]. simpl.
    pose proof (permutation_n_perm Hbounded c s) as Hperm.
    destruct (permutation_n c s) as [perm s1]. simpl in Hperm.
    pose proof (Hcs 0 c eq_refl) as Hc0. rewrite Nat.add_0_r in Hc0.
    set (P := take_clip (class_indices y_indices i) perm).
    assert (P ≡ₚ class_indices y_indices i) as HP.
    { apply take_clip_perm. by rewrite Hc0. }
    assert (length P = c) as HlenP by (by rewrite HP).
    assert (Forall (fun p => y_indices !! p = Some i) (take n0 P)) as Hcls.
    { apply Forall_forall. intros p Hp. apply np_where_elem.
      fold (class_indices y_indices i). rewrite <- HP.
      by apply (subseteq_take n0). }
    rewrite IH.
    + rewrite filter_app, length_app.
      destruct (decide (k = i)) as [->|Hne].
      * rewrite (filter_all _ _ Hcls), length_take.
        destruct (decide (Datatypes.S i <= i)); [lia|].
        destruct (decide (i <= i)); [|lia].
        rewrite Nat.sub_diag. simpl. lia.
      * rewrite (filter_none (fun p => y_indices !! p = Some k) (take n0 P)).
        2:{ eapply Forall_impl; [exact Hcls|]. simpl. intros p Hp. congruence. }
        simpl. destruct (decide (i <= k)) as [Hik|Hik];
          destruct (decide (Datatypes.S i <= k)); try lia.
        replace (k - i) with (Datatypes.S (k - Datatypes.S i)) by lia.
        simpl. lia.
    + simpl in Hts. lia.
    + intros j c' Hj. replace (Datatypes.S i + j) with (i + Datatypes.S j)
        by lia. by apply Hcs.
Qed.

Lemma iter_indices_stratified (n : nat) (y : list nat)
      (n_test n_train : nat) (rng rng' : S) (train test : list nat) (c : nat) :
  length y = n -> n_train + n_test = n ->
  _iter_indices n y n_test n_train rng = (Ok (train, test), rng') ->
  c ∈ y ->
  count_nat c y * n_train / n
  <= length (filter (fun p => y !! p = Some c) train)
  <= Datatypes.S (count_nat c y * n_train / n).
Proof.
  intros Hy Hsum. unfold _iter_indices.
  destruct (_validate_shuffle_split _ _ _) as [[a b]|e] eqn:Hv; [|done].
  apply validate_counts in Hv as (-> & -> & Hlt1 & Hlt2 & Hpos1 & Hpos2).
  set (yi := np_unique_inverse y).
  set (cs := bincount yi).
  assert (sum_nat cs = n) as Hcs.
  { unfold cs, yi. rewrite sum_bincount. unfold np_unique_inverse.
    by rewrite length_map. }
  case_bool_decide as Hnil; [done|].
  case_bool_decide as Hmin; [done|].
  case_bool_decide as Hk1; [done|].
  case_bool_decide as Hk2; [done|].
  destruct (approximate_mode_spec Hbounded cs n_train rng)
    as (Hlen & Hsum_n & Hpt); [lia|lia|].
  pose proof (fun i c x => approximate_mode_lower Hbounded cs n_train rng i c x
                             ltac:(lia) ltac:(lia)) as Hlow.
  destruct (_approximate_mode cs n_train rng) as [n_i r1]. simpl in *.
  assert (forall i c, cs !! i = Some c -> 2 <= c) as Hc2.
  { intros i c' Hc'.
    pose proof (np_min_le c' cs (list_elem_of_lookup_2 _ _ _ Hc')). lia. }
  assert (Forall2 le n_i cs) as Hle.
  { apply Forall2_same_length_lookup. split; [done|].
    intros i x c' Hx Hc'. destruct (Hpt i c' Hc') as (x' & Hx' & Hbound).
    rewrite Hx in Hx'. injection Hx' as <-. pose proof (Hc2 i c' Hc').
    assert (c' * n_train / sum_nat cs < c'); [|lia].
    apply Nat.Div0.div_lt_upper_bound. nia. }
  pose proof (sum_zip_sub cs n_i Hle) as Hrem.
  assert (sum_nat (zip_with Nat.sub cs n_i) = n_test) as Hrem' by lia.
  rewrite <- Hrem' at 1.
  rewrite approximate_mode_exact by lia.
  intros Hres Hc.
  set (j := index_of c (np_unique y)).
  assert (np_unique y !! j = Some c) as Hjc
      by (by apply index_of_lookup, np_unique_elem).
  assert (j < length cs) as Hj.
  { unfold cs, yi. rewrite length_bincount_inverse.
    by apply index_of_lt, np_unique_elem. }
  destruct (lookup_lt_is_Some_2 cs j Hj) as [cj Hcj].
  destruct (lookup_lt_is_Some_2 n_i j ltac:(lia)) as [nj Hnj].
  assert (cj = count_nat c y) as Hcount.
  { apply bincount_lookup in Hcj as ->. by apply inverse_count. }
  pose proof (Hlow j cj nj Hcj Hnj) as Hlo.
  destruct (Hpt j cj Hcj) as (x' & Hx' & Hhi).
  rewrite Hnj in Hx'. injection Hx' as <-.
  pose proof (draw_classes_train_class yi cs n_i (zip_with Nat.sub cs n_i) 0
                [] [] r1 j Hle) as Hdraw.
  rewrite decide_True, Nat.sub_0_r, Hnj in Hdraw by lia. simpl in Hdraw.
  destruct (draw_classes _ _ _ _ _ _ _ _) as [[tr te] r3]. simpl in Hdraw.
  pose proof (shuffle_perm Hbounded tr r3) as Hp1.
  unfold permutation in Hres.
  destruct (shuffle tr r3) as [train' r4]. simpl in Hp1.
  destruct (shuffle te r4) as [test' r5].
  injection Hres as <- <- _.
  assert (length (filter (fun p => y !! p = Some c) train') = nj) as ->.
  { rewrite <- Hdraw.
    - rewrite (filter_ext_elem (fun p => y !! p = Some c)
                 (fun p => yi !! p = Some j) train').
      + by rewrite Hp1.
      + intros p _. unfold yi, np_unique_inverse.
        change (map ?f ?l) with (f <$> l). rewrite list_lookup_fmap.
        destruct (y !! p) as [v|] eqn:Hv; simpl; [|done].
        split; [by intros [= ->]|]. intros [= Hidx]. f_equal.
        apply (index_of_inj v c (np_unique y)); [| |done].
        * by apply np_unique_elem, (list_elem_of_lookup_2 _ p).
        * by apply np_unique_elem.
    - rewrite length_zip_with. lia.
    - intros k c' Hk. simpl. apply bincount_lookup in Hk as ->.
      apply np_where_length. }
  rewrite <- Hcount, <- Hcs. lia.
Qed.

End Stratified.

Section StratifiedTheorem.
Context {S : Type} `{BitGenerator S}.

(** X24: the split is stratified: whenever the Splitter returns, every label
    code has in the training partition its share of the training rows,
    rounded down or up (for a code that occurs [k] times among [n] rows, of
    which [m] go to training, between [floor(k * m / n)] and one more), and
    the remaining rows of that code are in the test partition. *)
Theorem split_stratified (X : DataFrame) (y : Series) (g : S)
        (parts : list (string * partition)) (c : nat) :
  bounded_draws ->
  (_split X y g).1 = Ok parts ->
  c ∈ values y ->
  exists y_train y_test,
    parts !! 2 = Some ("y_train", Labels y_train) /\
    parts !! 3 = Some ("y_test", Labels y_test) /\
    count_nat c (values y)
    * (length (index X) - (length (index X) + 4) / 5) / length (index X)
    <= count_nat c (values y_train)
    <= count_nat c (values y)
       * (length (index X) - (length (index X) + 4) / 5) / length (index X) + 1
    /\
    count_nat c (values y_train) + count_nat c (values y_test)
    = count_nat c (values y).
Proof.
  intros Hb Hs Hc.
  destruct (split_inv X y g parts Hs)
    as (X_train & X_test & y_train & y_test & train & test & n_train & n_test
        & rng & rng' & -> & Hlen & Hv & Hit & HX1 & HX2 & Hy1 & Hy2).
  apply validate_fraction_sizes in Hv as (-> & -> & Hn).
  destruct (validate_fraction_ok _ Hn) as (_ & Hpos & Hle).
  assert (length (index X) - (length (index X) + 4) / 5
          + (length (index X) + 4) / 5 = length (index X)) as Hadd by lia.
  pose proof (iter_indices_stratified Hb _ _ _ _ _ _ _ _ c Hlen Hadd Hit Hc)
    as Hstrat.
  pose proof (iter_indices_partition Hb _ _ _ _ _ _ _ _ Hlen Hadd Hit) as Hp.
  exists y_train, y_test. split; [done|]. split; [done|].
  apply iloc_series_inv in Hy1 as (_ & _ & Hv1), Hy2 as (_ & _ & Hv2).
  split.
  - apply take_rows_omap in Hv1 as ->. rewrite count_nat_selected. lia.
  - rewrite <- count_nat_app. apply count_nat_perm.
    apply (take_rows_partition train test); [by rewrite Hlen|done|done].
Qed.

End StratifiedTheorem.

Lemma split_stratified_witness :
  @bounded_draws N lcg /\
  (_split sample_ten_X sample_ten_y 0%N).1 = Ok sample_split /\
  1 ∈ values sample_ten_y /\
  exists y_train y_test,
    sample_split !! 2 = Some ("y_train", Labels y_train) /\
    sample_split !! 3 = Some ("y_test", Labels y_test) /\
    count_nat 1 (values sample_ten_y)
    * (length (index sample_ten_X) - (length (index sample_ten_X) + 4) / 5)
    / length (index sample_ten_X)
    <= count_nat 1 (values y_train)
    <= count_nat 1 (values sample_ten_y)
       * (length (index sample_ten_X) - (length (index sample_ten_X) + 4) / 5)
       / length (index sample_ten_X) + 1
    /\
    count_nat 1 (values y_train) + count_nat 1 (values y_test)
    = count_nat 1 (values sample_ten_y).
Proof.
  assert ((_split sample_ten_X sample_ten_y 0%N).1 = Ok sample_split) as Hs
      by (vm_compute; reflexivity).
  assert (1 ∈ values sample_ten_y) as Hc by (repeat constructor).
  split; [exact lcg_bounded|]. split; [exact Hs|]. split; [exact Hc|].
  exact (split_stratified sample_ten_X sample_ten_y 0%N sample_split 1
           lcg_bounded Hs Hc).
Defined.

(** ** Rows stay whole *)

Lemma take_rows_lookup {A} (idx : list nat) (v v' : list A) (i p : nat) :
  take_rows idx v = Ok v' -> idx !! i = Some p ->
  v' !! i = v !! p /\ is_Some (v !! p).
Proof.
  intros Ht Hi. apply traverse_ok_inv in Ht.
  destruct (Forall2_lookup_l _ _ _ _ _ Ht Hi) as (x & Hx & Hfx).
  destruct (v !! p) as [a|]; [|done]. injection Hfx as ->. by rewrite Hx.
Qed.

Lemma take_col_cell (idx : list nat) (c c' : column) (i p : nat) :
  take_col idx c = Ok c' -> idx !! i = Some p -> cell c' i = cell c p.
Proof.
  intros Ht Hi. destruct c as [v|v]; simpl in Ht.
  - destruct (take_rows idx v) as [v'|] eqn:Hv; [|done]. injection Ht as <-.
    simpl. by rewrite (proj1 (take_rows_lookup _ _ _ _ _ Hv Hi)).
  - destruct (take_rows idx v) as [v'|] eqn:Hv; [|done]. injection Ht as <-.
    simpl. by rewrite (proj1 (take_rows_lookup _ _ _ _ _ Hv Hi)).
Qed.

Lemma iloc_row (X X' : DataFrame) (idx : list nat) (i p : nat) :
  iloc X idx = Ok X' -> idx !! i = Some p ->
  index X' !! i = index X !! p /\ row X' i = row X p.
Proof.
  unfold iloc. intros Hx Hi.
  destruct (take_rows idx (index X)) as [rows|] eqn:Hr; simpl in Hx; [|done].
  destruct (traverse _ (columns X)) as [cols|] eqn:Hc; simpl in Hx; [|done].
  injection Hx as <-. simpl. split.
  - by apply (take_rows_lookup idx).
  - unfold row. simpl. apply traverse_ok_inv in Hc.
    induction Hc as [|c c' l l' Hcc' Hl IH]; simpl; [done|].
    destruct (take_col idx c.2) as [u|] eqn:Hu; simpl in Hcc'; [|done].
    injection Hcc' as <-. simpl.
    by rewrite IH, (take_col_cell _ _ _ _ _ Hu Hi).
Qed.

Section RowsIntact.
Context {S : Type} `{BitGenerator S}.

(** X25: the Splitter only selects rows: whenever it returns, every row of
    a partition is a row of the input, with the same row label, the same
    cells under the same column names and its own label code: there are
    positions [train] and [test], one for each row of the partitions, such
    that row [i] of [X_train] and code [i] of [y_train] are row [train[i]] of
    [X] and code [train[i]] of [y], and likewise for the test partitions. *)
Theorem split_rows_intact (X : DataFrame) (y : Series) (g : S)
        (parts : list (string * partition)) :
  (_split X y g).1 = Ok parts ->
  exists X_train X_test y_train y_test train test,
    parts = [("X_train", Frame X_train); ("X_test", Frame X_test);
             ("y_train", Labels y_train); ("y_test", Labels y_test)] /\
    length train = length (index X_train) /\
    length test = length (index X_test) /\
    (forall i p, train !! i = Some p ->
       index X_train !! i = index X !! p /\ row X_train i = row X p /\
       values y_train !! i = values y !! p /\ p < length (index X)) /\
    (forall i p, test !! i = Some p ->
       index X_test !! i = index X !! p /\ row X_test i = row X p /\
       values y_test !! i = values y !! p /\ p < length (index X)).
Proof.
  intros Hs.
  destruct (split_inv X y g parts Hs)
    as (X_train & X_test & y_train & y_test & train & test & n_train & n_test
        & rng & rng' & -> & Hlen & _ & _ & HX1 & HX2 & Hy1 & Hy2).
  exists X_train, X_test, y_train, y_test, train, test. split; [done|].
  pose proof (iloc_inv _ _ _ HX1) as (Hi1 & _).
  pose proof (iloc_inv _ _ _ HX2) as (Hi2 & _).
  apply iloc_series_inv in Hy1 as (_ & _ & Hv1), Hy2 as (_ & _ & Hv2).
  split; [symmetry; by apply (take_rows_length train (index X))|].
  split; [symmetry; by apply (take_rows_length test (index X))|].
  split.
  - intros i p Hp. destruct (iloc_row _ _ _ _ _ HX1 Hp) as [Hidx Hrow].
    destruct (take_rows_lookup _ _ _ _ _ Hv1 Hp) as [Hval _].
    destruct (take_rows_lookup _ _ _ _ _ Hi1 Hp) as [_ Hin].
    repeat split; try done. by apply lookup_lt_is_Some.
  - intros i p Hp. destruct (iloc_row _ _ _ _ _ HX2 Hp) as [Hidx Hrow].
    destruct (take_rows_lookup _ _ _ _ _ Hv2 Hp) as [Hval _].
    destruct (take_rows_lookup _ _ _ _ _ Hi2 Hp) as [_ Hin].
    repeat split; try done. by apply lookup_lt_is_Some.
Qed.

End RowsIntact.

Lemma split_rows_intact_witness :
  (_split sample_ten_X sample_ten_y 0%N).1 = Ok sample_split /\
  exists X_train X_test y_train y_test train test,
    sample_split = [("X_train", Frame X_train); ("X_test", Frame X_test);
                    ("y_train", Labels y_train); ("y_test", Labels y_test)] /\
    length train = length (index X_train) /\
    length test = length (index X_test) /\
    (forall i p, train !! i = Some p ->
       index X_train !! i = index sample_ten_X !! p /\
       row X_train i = row sample_ten_X p /\
       values y_train !! i = values sample_ten_y !! p /\
       p < length (index sample_ten_X)) /\
    (forall i p, test !! i = Some p ->
       index X_test !! i = index sample_ten_X !! p /\
       row X_test i = row sample_ten_X p /\
       values y_test !! i = values sample_ten_y !! p /\
       p < length (index sample_ten_X)).
Proof.
  assert ((_split sample_ten_X sample_ten_y 0%N).1 = Ok sample_split) as Hs
      by (vm_compute; reflexivity).
  split; [exact Hs|].
  exact (split_rows_intact sample_ten_X sample_ten_y 0%N sample_split Hs).
Defined.

(** ** When the transform stage returns *)

Lemma count_label_fillna (s m : string) (l : list label) :
  count_label s l <= count_label s (fillna_label m l).
Proof.
  unfold count_label, count_true, fillna_label.
  induction l as [|x l IH]; [done|]. cbn [map].
  destruct x as [t|].
  - destruct (decide (bool_decide (Some t = Some s) = true)) as [Ht|Ht].
    + rewrite !filter_cons_True by done. simpl. lia.
    + rewrite !filter_cons_False by done. done.
  - rewrite filter_cons_False by (by rewrite bool_decide_eq_false_2).
    destruct (decide (bool_decide (Some m = Some s) = true)) as [Hm|Hm].
    + rewrite filter_cons_True by done. simpl. lia.
    + rewrite filter_cons_False by done. done.
Qed.

Lemma count_label_codes (f : label -> nat) (s : string) (l : list label) :
  count_label s l <= count_nat (f (Some s)) (map f l).
Proof.
  unfold count_label, count_true.
  induction l as [|x l IH]; [done|]. cbn [map]. rewrite count_nat_cons.
  destruct (decide (bool_decide (x = Some s) = true)) as [Hx|Hx].
  - rewrite filter_cons_True by done. simpl.
    apply bool_decide_eq_true in Hx as ->. rewrite decide_True by done. lia.
  - rewrite filter_cons_False by done. lia.
Qed.

Lemma NoDup_bounded_length (l : list nat) (K : nat) :
  NoDup l -> (forall x, x ∈ l -> x < K) -> length l <= K.
Proof.
  intros Hnd Hlt. rewrite <- (length_seq K 0).
  apply submseteq_length, NoDup_submseteq; [done|].
  intros x Hx. apply elem_of_seq. specialize (Hlt x Hx). lia.
Qed.

Section TransformReturns.
Context {S : Type} `{BitGenerator S}.

(** X26: on a well-formed table without an infinite feature cell the
    transform stage returns whenever every label that is present occurs at
    least twice and the number of distinct present labels is at least 1 and
    at most [ceil(n / 5)], [n] being the number of rows; missing cells, in
    the features or among the labels, do not stand in the way. *)
Theorem transform_returns (df : Table) (g : S) :
  bounded_draws -> well_formed_table df -> finite_features df ->
  (forall s, Some s ∈ target df -> 2 <= count_label s (target df)) ->
  0 < length (sorted_set (omap id (target df)))
  <= (length (t_index df) + 4) / 5 ->
  exists split_df mapping, (transform_data df g).1 = Ok (split_df, mapping).
Proof.
  intros Hb Hwf Hfin Hcounts [Hk0 Hk].
  assert (exists s, Some s ∈ target df) as Hpresent.
  { destruct (sorted_set (omap id (target df))) as [|s l] eqn:Hs;
      [simpl in Hk0; lia|].
    exists s. assert (s ∈ sorted_set (omap id (target df))) as Hin
        by (rewrite Hs; set_solver).
    apply sorted_set_elem, list_elem_of_omap in Hin as ([x|] & Hx & Hid);
      simpl in Hid; [|done]. by injection Hid as ->. }
  destruct (clean_returns df Hfin (or_intror Hpresent)) as [cleaned Hc].
  pose proof (clean_well_formed _ _ Hwf Hc) as Hwfc.
  pose proof (clean_no_missing _ _ Hc) as (_ & Hno & _).
  destruct (encode_total cleaned (proj2 Hwfc)) as (X & y & m & He).
  destruct (encode_well_formed _ _ _ _ Hwfc He) as [HwX Hwy].
  pose proof (encode_inv _ _ _ _ He) as (HX & _ & Hidx & Hy & Hlen & _).
  simpl in Hy.
  assert (sorted_set (omap id (target cleaned))
          = sorted_set (omap id (target df))) as Hsame.
  { apply sorted_unique; try apply sorted_set_sorted.
    intros s. rewrite !sorted_set_elem, !list_elem_of_omap.
    split; intros ([x|] & Hx & Hs); simpl in Hs; try done;
      injection Hs as ->; exists (Some s); (split; [|done]);
      by apply (clean_present_labels df cleaned). }
  assert (forall s, count_label s (target df) <= count_label s (target cleaned))
    as Hgrow.
  { intros s. apply clean_inv in Hc as (_ & _ & _ & Ht).
    destruct Ht as [[_ ->]|[_ (m0 & _ & ->)]]; [done|].
    apply count_label_fillna. }
  assert (index X = t_index cleaned) as HiX by (by rewrite HX).
  assert (length (values y) = length (index X)) as Hlen'.
  { by rewrite Hy, length_map, HiX. }
  assert (length (t_index cleaned) = length (t_index df)) as Hrows.
  { by apply clean_inv in Hc as (-> & _). }
  assert (forall c, c ∈ values y -> 2 <= count_nat c (values y)) as Hcodes.
  { intros c Hin. rewrite Hy in Hin. change (map ?f ?l) with (f <$> l) in Hin.
    apply list_elem_of_fmap in Hin as (v & -> & Hv).
    destruct v as [s|].
    2:{ rewrite Forall_forall in Hno. by specialize (Hno None Hv). }
    rewrite Hy.
    pose proof (count_label_codes (code_in (_unique_python (target cleaned)))
                  s (target cleaned)) as Hcode.
    pose proof (Hgrow s) as Hg.
    pose proof (Hcounts s ltac:(by apply (clean_present_labels df cleaned)))
      as H2.
    lia. }
  assert (0 < length (np_unique (values y))
          <= (length (index X) + 4) / 5) as Hclasses.
  { split.
    - destruct Hpresent as [s Hs].
      apply (clean_present_labels df cleaned s Hc) in Hs.
      assert (code_in (_unique_python (target cleaned)) (Some s)
              ∈ np_unique (values y)) as Hin.
      { apply np_unique_elem. rewrite Hy. apply list_elem_of_fmap.
        by exists (Some s). }
      destruct (np_unique (values y)); [set_solver|simpl; lia].
    - rewrite HiX, Hrows. etransitivity; [|exact Hk].
      rewrite <- Hsame.
      replace (length (sorted_set (omap id (target cleaned))))
        with (length (_unique_python (target cleaned)))
        by (by rewrite (unique_python_cleaned _ Hno), length_fmap).
      apply NoDup_bounded_length; [apply np_unique_NoDup|].
      intros c Hin. apply (proj1 (np_unique_elem _ _)) in Hin.
      rewrite Hy in Hin.
      change (map ?f ?l) with (f <$> l) in Hin.
      apply list_elem_of_fmap in Hin as (v & -> & Hv).
      eapply lookup_lt_Some, code_in_lookup; [apply unique_python_NoDup|].
      by apply unique_python_elem. }
  destruct (train_test_split_returns X y (Some 42%Z) g Hb HwX Hwy Hlen'
              Hcodes Hclasses) as [[[[X_train X_test] y_train] y_test] Hr].
  unfold transform_data. rewrite Hc, He. unfold _split.
  destruct (train_test_split X y (Some 42%Z) g) as [r g'].
  simpl in Hr. subst r. simpl. eauto.
Qed.

End TransformReturns.

Lemma transform_returns_witness :
  @bounded_draws N lcg /\ well_formed_table sample_ten /\
  finite_features sample_ten /\
  (forall s, Some s ∈ target sample_ten ->
             2 <= count_label s (target sample_ten)) /\
  0 < length (sorted_set (omap id (target sample_ten)))
  <= (length (t_index sample_ten) + 4) / 5 /\
  exists split_df mapping,
    (transform_data sample_ten 0%N).1 = Ok (split_df, mapping).
Proof.
  assert (well_formed_table sample_ten) as Hwf
      by (split; [repeat constructor|reflexivity]).
  assert (finite_features sample_ten) as Hfin by (repeat constructor).
  assert (forall s, Some s ∈ target sample_ten ->
                    2 <= count_label s (target sample_ten)) as Hcounts.
  { intros s Hs. apply count_label_pos in Hs.
    destruct (decide (s = "flu")) as [->|Hflu]; [vm_compute; lia|].
    destruct (decide (s = "cold")) as [->|Hcold]; [vm_compute; lia|].
    exfalso. revert Hs. unfold count_label, count_true. simpl.
    repeat (rewrite filter_cons_False
              by (rewrite bool_decide_eq_false_2; [done|congruence])).
    simpl. lia. }
  assert (0 < length (sorted_set (omap id (target sample_ten)))
          <= (length (t_index sample_ten) + 4) / 5) as Hk
      by (vm_compute; lia).
  split; [exact lcg_bounded|]. split; [exact Hwf|]. split; [exact Hfin|].
  split; [exact Hcounts|]. split; [exact Hk|].
  exact (transform_returns sample_ten 0%N lcg_bounded Hwf Hfin Hcounts Hk).
Defined.
